(** * three-ui: layout resolution, dirty tracking, redraw and hit testing

    A shallow embedding of [src/three-ui/DisplayObject.js], [ThreeUI.js]
    and the constructors and [draw] callbacks of [Rectangle.js], [Text.js],
    [Sprite.js] and [BitmapText.js].

    JavaScript objects live in a heap of property maps; numbers are IEEE
    binary64 floats (Rocq's primitive floats); every method is a computation
    in a state monad over the whole world, whose outcome is a value, a
    thrown exception, or exhausted recursion fuel (the call stack never
    bottoms out). *)

From Stdlib Require Import ZArith Ascii String PrimFloat SpecFloat FloatOps.
From Stdlib Require FloatAxioms Uint63 DecimalString.
From stdpp Require Import gmap strings list.

Local Open Scope float_scope.

(** ** JavaScript values *)

Module JS.

Definition loc := nat.

Inductive jsval : Type :=
| VUndef
| VNull
| VBool (b : bool)
| VNum (f : float)
| VStr (s : string)
| VObj (l : loc).

(** [typeof v === 'number'] *)
Definition typeof_number (v : jsval) : bool :=
  match v with VNum _ => true | _ => false end.

(** [typeof v === 'undefined'] *)
Definition typeof_undefined (v : jsval) : bool :=
  match v with VUndef => true | _ => false end.

(** [a === b]: numbers compare as IEEE floats (NaN differs from itself,
    +0 equals -0), objects by reference. *)
Definition strict_eq (a b : jsval) : bool :=
  match a, b with
  | VUndef, VUndef => true
  | VNull, VNull => true
  | VBool x, VBool y => Bool.eqb x y
  | VNum x, VNum y => PrimFloat.eqb x y
  | VStr x, VStr y => String.eqb x y
  | VObj x, VObj y => Nat.eqb x y
  | _, _ => false
  end.

Definition is_nan (f : float) : bool := negb (PrimFloat.eqb f f).

(** ToBoolean *)
Definition to_boolean (v : jsval) : bool :=
  match v with
  | VUndef | VNull => false
  | VBool b => b
  | VNum f => negb (PrimFloat.eqb f 0 || is_nan f)
  | VStr s => negb (String.eqb s "")
  | VObj _ => true
  end.

(** ToNumber.  The conversion of a string (StringToNumber of the language
    standard) is supplied by the host; objects of this program have no
    [valueOf] of their own and convert to NaN. *)
Definition to_number (StringToNumber : string -> float) (v : jsval) : float :=
  match v with
  | VUndef => nan
  | VNull => 0
  | VBool b => if b then 1 else 0
  | VNum f => f
  | VStr s => StringToNumber s
  | VObj _ => nan
  end.

(** *** The percentage pattern [/^([0-9\.]+)%$/] and [parseFloat] *)

Definition digit_of (c : ascii) : option N :=
  let n := N_of_ascii c in
  if ((48 <=? n) && (n <=? 57))%N then Some (n - 48)%N else None.

Definition is_digit (c : ascii) : bool :=
  match digit_of c with Some _ => true | None => false end.

(** the character class [[0-9\.]] *)
Definition is_digit_or_dot (c : ascii) : bool :=
  is_digit c || Ascii.eqb c "."%char.

Fixpoint all_chars (p : ascii -> bool) (s : string) : bool :=
  match s with
  | EmptyString => true
  | String c r => p c && all_chars p r
  end.

(** [s.match(/^([0-9\.]+)%$/)]: the capture group when [s] is a non-empty
    run of digits and dots followed by one final percent sign. *)
Fixpoint percent_match (s : string) : option string :=
  match s with
  | EmptyString => None
  | String c r =>
      if is_digit_or_dot c then
        if String.eqb r "%" then Some (String c EmptyString)
        else match percent_match r with
             | Some d => Some (String c d)
             | None => None
             end
      else None
  end.

(** leading decimal digits of [s]: their value, their number, the rest *)
Fixpoint read_digits (acc : N) (count : nat) (s : string) : N * nat * string :=
  match s with
  | EmptyString => (acc, count, s)
  | String c r =>
      match digit_of c with
      | Some d => read_digits (10 * acc + d)%N (S count) r
      | None => (acc, count, s)
      end
  end.

(** the double nearest to [m / 10^k] (ties to even) *)
Definition decimal_to_float (m : N) (k : nat) : float :=
  match m with
  | N0 => 0
  | Npos p =>
      SF2Prim (SFdiv prec emax (S754_finite false p 0)
                 (S754_finite false (Nat.iter k (Pos.mul 10) 1%positive) 0))
  end.

(** [parseFloat] on a string of digits and dots: the longest prefix that is
    a decimal literal ([12], [12.], [12.5], [.5]); NaN when there is none. *)
Definition parseFloat (s : string) : float :=
  let '(ip, ni, rest) := read_digits 0%N 0 s in
  match rest with
  | String "."%char r =>
      let '(m, n, _) := read_digits ip ni r in
      if Nat.eqb n 0 then nan else decimal_to_float m (n - ni)
  | _ => if Nat.eqb ni 0 then nan else decimal_to_float ip 0
  end.

End JS.
Export JS.

(** ** Rectangles, positions and offsets, as the methods return them *)

Module Bounds.
Record t := mk { x : float; y : float; width : float; height : float }.
End Bounds.

Module Position.
Record t := mk { x : float; y : float }.
End Position.

Module Dimensions.
Record t := mk { width : float; height : float }.
End Dimensions.

Module Offset.
Record t := mk { left : float; top : float; right : float; bottom : float }.
End Offset.

(** ** The world: heap, root container, canvas context, host *)

(** Which constructor made an object.  Everything but [CPlain] has
    [DisplayObject.prototype] on its prototype chain. *)
Inductive class : Type := CPlain | CRectangle | CSprite | CText | CBitmapText.

Definition is_display (c : class) : bool :=
  match c with CPlain => false | _ => true end.

(** A heap object: its class, the properties that [Object.defineProperty]
    turned into observing accessors, and its own data properties, an
    association list in which the first binding of a key counts. *)
Record obj : Type := mkObj {
  cls : class;
  accessors : list string;
  fields : list (string * jsval)
}.

Fixpoint field_lookup (key : string) (fs : list (string * jsval)) : option jsval :=
  match fs with
  | [] => None
  | (k, v) :: r => if String.eqb k key then Some v else field_lookup key r
  end.

Fixpoint field_delete (key : string) (fs : list (string * jsval)) : list (string * jsval) :=
  match fs with
  | [] => []
  | (k, v) :: r =>
      if String.eqb k key then field_delete key r else (k, v) :: field_delete key r
  end.

(** the object with own data property [key] set to [value] *)
Definition obj_store (key : string) (value : jsval) (o : obj) : obj :=
  mkObj (cls o) (accessors o) ((key, value) :: fields o).

(** [Object.defineProperty(object, prop, {set, get})]: the data property
    gives way to the accessor *)
Definition obj_define_accessor (prop : string) (o : obj) : obj :=
  mkObj (cls o) (prop :: accessors o) (field_delete prop (fields o)).

Inductive error : Type :=
| TypeError (msg : string)
| Error (msg : string).

(** What is done to the 2d context, in the order it is done: the methods
    called and the properties assigned ([CGlobalAlpha], [CSmoothing] and
    [CProperty name] for the others).  [CDraw l ...] is not a call on the
    context: it marks that the [draw] callback of node [l] is entered, with
    the bounds it is given; what the callback does follows it. *)
Inductive ctx_op : Type :=
| CClearRect (x y w h : float)
| CSave
| CRestore
| CTranslate (x y : float)
| CRotate (radians : float)
| CGlobalAlpha (v : jsval)
| CSmoothing (key : string) (v : jsval)
| CDraw (l : loc) (x y w h : float)
| CProperty (name : string) (v : jsval)
| CFillRect (x y w h : float)
| CFillText (line : string) (x y : float)
| CDrawImage (image : jsval) (args : list jsval).

Record Listener : Type := mkListener {
  callback : nat;          (* index of the callback function *)
  displayObject : jsval
}.

(** The [ThreeUI] instance. *)
Record ThreeUI_t : Type := mkUI {
  displayObjects : list jsval;
  eventListeners_click : list Listener;
  clearRect : option Bounds.t;         (* null until the application sets it *)
  ui_height : float;
  ui_width : float;
  canvas_width : float;
  canvas_height : float;
  renderOnQuad : bool;
  texture_needsUpdate : bool;
  shouldReDraw : bool;
  listeningToTouchEvents : bool        (* undefined counts as false *)
}.

(** What the browser and the other collaborators supply. *)
Record Host : Type := mkHost {
  StringToNumber : string -> float;
  unsigned_long : float -> float;      (* conversion done by [canvas.width = v] *)
  smoothing_keys : list string;        (* smoothing properties the context defines *)
  gameCanvas_width : float;
  gameCanvas_height : float;
  gameCanvas_rect : Bounds.t;          (* gameCanvas.getBoundingClientRect() *)
  getAssetById : jsval -> jsval;       (* AssetLoader.getAssetById *)
  Sprite_parseSheet : jsval -> jsval -> jsval -> error + (jsval * jsval * jsval);
  BitmapText_prelude : jsval -> jsval -> jsval -> jsval ->
                       error + (list (string * jsval) * Dimensions.t);
  NumberToString : float -> string;    (* the decimal notation of a number *)
  image_error : loc -> option error    (* what [drawImage] raises on this object:
                                          not an image, or one in a broken state *)
}.

Record World : Type := mkWorld {
  host : Host;
  heap : gmap loc obj;
  next_loc : loc;
  ui : ThreeUI_t;
  context : list ctx_op
}.

Definition with_heap (h : gmap loc obj) (w : World) : World :=
  mkWorld (host w) h (next_loc w) (ui w) (context w).

Definition with_ui (u : ThreeUI_t) (w : World) : World :=
  mkWorld (host w) (heap w) (next_loc w) u (context w).

Definition with_context (c : list ctx_op) (w : World) : World :=
  mkWorld (host w) (heap w) (next_loc w) (ui w) c.

Definition with_shouldReDraw (b : bool) (u : ThreeUI_t) : ThreeUI_t :=
  mkUI (displayObjects u) (eventListeners_click u) (clearRect u) (ui_height u)
    (ui_width u) (canvas_width u) (canvas_height u) (renderOnQuad u)
    (texture_needsUpdate u) b (listeningToTouchEvents u).

Definition with_texture_needsUpdate (b : bool) (u : ThreeUI_t) : ThreeUI_t :=
  mkUI (displayObjects u) (eventListeners_click u) (clearRect u) (ui_height u)
    (ui_width u) (canvas_width u) (canvas_height u) (renderOnQuad u)
    b (shouldReDraw u) (listeningToTouchEvents u).

Definition with_listeningToTouchEvents (b : bool) (u : ThreeUI_t) : ThreeUI_t :=
  mkUI (displayObjects u) (eventListeners_click u) (clearRect u) (ui_height u)
    (ui_width u) (canvas_width u) (canvas_height u) (renderOnQuad u)
    (texture_needsUpdate u) (shouldReDraw u) b.

Definition with_displayObjects (l : list jsval) (u : ThreeUI_t) : ThreeUI_t :=
  mkUI l (eventListeners_click u) (clearRect u) (ui_height u)
    (ui_width u) (canvas_width u) (canvas_height u) (renderOnQuad u)
    (texture_needsUpdate u) (shouldReDraw u) (listeningToTouchEvents u).

Definition with_click_listeners (l : list Listener) (u : ThreeUI_t) : ThreeUI_t :=
  mkUI (displayObjects u) l (clearRect u) (ui_height u)
    (ui_width u) (canvas_width u) (canvas_height u) (renderOnQuad u)
    (texture_needsUpdate u) (shouldReDraw u) (listeningToTouchEvents u).

(** ** The monad of methods *)

Inductive outcome (A : Type) : Type :=
| Ret (a : A)
| Throw (e : error)
| Diverge.
Arguments Ret {A} a.
Arguments Throw {A} e.
Arguments Diverge {A}.

Definition M (A : Type) : Type := World -> outcome A * World.

Definition ret {A} (a : A) : M A := fun w => (Ret a, w).

Definition bind {A B} (m : M A) (k : A -> M B) : M B :=
  fun w =>
    match m w with
    | (Ret a, w') => k a w'
    | (Throw e, w') => (Throw e, w')
    | (Diverge, w') => (Diverge, w')
    end.

Definition throw {A} (e : error) : M A := fun w => (Throw e, w).

(** the recursion did not come back within the fuel given *)
Definition diverge {A} : M A := fun w => (Diverge, w).

Definition gets {A} (f : World -> A) : M A := fun w => (Ret (f w), w).

Definition modify (f : World -> World) : M unit := fun w => (Ret tt, f w).

Declare Scope js_scope.
Delimit Scope js_scope with js.
Notation "'do' x <- m ; k" := (bind m (fun x => k))
  (at level 10, x name, m at level 100, k at level 200,
   format "'[v' 'do'  x  <-  m ; '/' k ']'") : js_scope.
Notation "m ;; k" := (bind m (fun _ => k))
  (at level 100, k at level 200, right associativity) : js_scope.
Local Open Scope js_scope.

(** [forEach] / an index loop over a list captured before the loop *)
Fixpoint forEach {A} (f : A -> M unit) (l : list A) : M unit :=
  match l with
  | [] => ret tt
  | a :: r => f a ;; forEach f r
  end.

(** ** Property access *)

(** All properties that when adjusted will force a redraw of the UI *)
Definition dirtyProperties : list string :=
  ["x"; "y"; "width"; "height"; "rotation"; "alpha"; "visible"; "pivot";
   "anchor"; "smoothing"; "stretch"; "offset"; "text"; "scale"; "parent";
   "textAlign"; "assetPath"; "color"; "left"; "right"; "up"; "down";
   "ActiveInvoke"].

Definition mem (s : string) (l : list string) : bool :=
  existsb (String.eqb s) l.

Definition proxyKey (prop : string) : string := ("_proxied_" ++ prop)%string.

Definition deref (l : loc) : M obj :=
  fun w =>
    match heap w !! l with
    | Some o => (Ret o, w)
    | None => (Throw (TypeError "dangling reference"), w)
    end.

(** the object at [l] becomes [o] *)
Definition put_obj (l : loc) (o : obj) : M unit :=
  modify (fun w => with_heap (<[l := o]> (heap w)) w).


(** [new]: a fresh location holding [o] *)
Definition alloc (o : obj) : M jsval :=
  fun w =>
    (Ret (VObj (next_loc w)),
     mkWorld (host w) (<[next_loc w := o]> (heap w)) (S (next_loc w)) (ui w) (context w)).

(** [v instanceof DisplayObject] *)
Definition instanceof_DisplayObject (v : jsval) : M bool :=
  match v with
  | VObj l => do o <- deref l; ret (is_display (cls o))
  | _ => ret false
  end.

(** The getter of [_proxied_visible] on [DisplayObject.prototype];
    [get] reads a property, one call frame deeper. *)
Definition _proxied_visible_get (get : jsval -> string -> M jsval)
    (this : jsval) : M jsval :=
  do parent <- get this "parent";
  if to_boolean parent && negb (strict_eq parent this) then
    do pv <- get parent "visible";
    if negb (to_boolean pv) then ret (VBool false) else get this "_visible"
  else get this "_visible".

(** [v.name].  On an observed property the accessor installed by
    [observeDirtyProperties] returns [object[proxyKey]]; a key the object
    does not own is looked up on the prototype, where a display object finds
    the accessor [_proxied_visible]. *)
Fixpoint get_prop (n : nat) (v : jsval) (name : string) : M jsval :=
  match v with
  | VUndef | VNull => throw (TypeError "cannot read properties of undefined or null")
  | VBool _ | VNum _ | VStr _ => ret VUndef
  | VObj l =>
      do o <- deref l;
      let key := if mem name (accessors o) then proxyKey name else name in
      match field_lookup key (fields o) with
      | Some x => ret x
      | None =>
          if is_display (cls o) && String.eqb key "_proxied_visible" then
            match n with
            | O => diverge
            | S k => _proxied_visible_get (get_prop k) v
            end
          else ret VUndef
      end
  end.

(** [object[key] = value] on a plain key: when the object has no own
    property [key] and finds the setter of [_proxied_visible] on its
    prototype, the setter stores into [_visible]; else the own data property
    is written. *)
Definition obj_assign (key : string) (value : jsval) (o : obj) : obj :=
  if String.eqb key "_proxied_visible" && is_display (cls o) &&
     match field_lookup key (fields o) with Some _ => false | None => true end
  then obj_store "_visible" value o
  else obj_store key value o.

Definition assign (l : loc) (key : string) (value : jsval) : M unit :=
  do o <- deref l;
  put_obj l (obj_assign key value o).

Definition set_shouldReDraw (b : bool) : M unit :=
  modify (fun w => with_ui (with_shouldReDraw b (ui w)) w).

(** [v.name = value].  On an observed property this is the setter installed
    by [observeDirtyProperties]. *)
Definition set_prop (n : nat) (v : jsval) (name : string) (value : jsval) : M unit :=
  match v with
  | VUndef | VNull => throw (TypeError "cannot set properties of undefined or null")
  | VBool _ | VNum _ | VStr _ => ret tt
  | VObj l =>
      do o <- deref l;
      if mem name (accessors o) then
        do cur <- get_prop n v name;
        (if negb (strict_eq cur value) then set_shouldReDraw true else ret tt) ;;
        assign l (proxyKey name) value
      else assign l name value
  end.

(** One step of [observeDirtyProperties]: copy the current value to the
    proxy key, then replace the property by the observing accessor. *)
Definition observe_property (n : nat) (object : jsval) (prop : string) : M unit :=
  do value <- get_prop n object prop;
  set_prop n object (proxyKey prop) value ;;
  match object with
  | VObj l =>
      do o <- deref l;
      put_obj l (obj_define_accessor prop o)
  | _ => throw (TypeError "Object.defineProperty called on non-object")
  end.

Definition observeDirtyProperties (n : nat) (object : jsval) : M unit :=
  forEach (observe_property n object) dirtyProperties.

(** ** anchors.js *)

Module anchors.
Definition center : jsval := VNum 1.
Definition left : jsval := VNum 2.
Definition right : jsval := VNum 3.
Definition top : jsval := VNum 4.
Definition bottom : jsval := VNum 5.
End anchors.

(** [typeof v === 'number' ? v : 0] *)
Definition number_or_zero (v : jsval) : float :=
  match v with VNum f => f | _ => 0 end.

(** [typeof v !== 'undefined' ? v : d] *)
Definition default_to (d v : jsval) : jsval :=
  if typeof_undefined v then d else v.

Definition new_object (c : class) (props : list (string * jsval)) : M jsval :=
  alloc (mkObj c [] props).

Definition ctx_call (op : ctx_op) : M unit :=
  modify (fun w => with_context (context w ++ [op]) w).

(** [context.drawImage(image, ...)] with its arguments evaluated: a value
    that is not an object is refused with a TypeError; whether an object is
    an image that can be drawn is the host's to say. *)
Definition drawImage (image : jsval) (args : list jsval) : M unit :=
  match image with
  | VObj l =>
      do h <- gets host;
      match image_error h l with
      | Some e => throw e
      | None => ctx_call (CDrawImage image args)
      end
  | _ => throw (TypeError "Failed to execute 'drawImage' on 'CanvasRenderingContext2D'")
  end.

(** ToString.  Objects of this program have no [toString] of their own. *)
Definition to_string (NumberToString : float -> string) (v : jsval) : string :=
  match v with
  | VUndef => "undefined"
  | VNull => "null"
  | VBool b => if b then "true" else "false"
  | VNum f => NumberToString f
  | VStr s => s
  | VObj _ => "[object Object]"
  end.

(** [v.name(...)] for a method [name] of [DisplayObject.prototype], whose
    body is [method]: only a display object has it. *)
Definition method_call {A} (name : string) (v : jsval) (method : M A) : M A :=
  match v with
  | VUndef | VNull => throw (TypeError "cannot read properties of undefined or null")
  | _ =>
      do inst <- instanceof_DisplayObject v;
      if inst then method
      else throw (TypeError (String.append name " is not a function"))
  end.

(** ** DisplayObject.js *)

(** One call frame of the bounds methods, where [parent_getBounds] is
    [this.parent.getBounds()], which runs one frame deeper; and the
    constructor. *)
Module Frame.
Section Frame.

Variable fuel : nat.
Variable parent_getBounds : jsval -> M Bounds.t.

Definition getParentBounds (this : jsval) : M Bounds.t :=
  do parent <- get_prop fuel this "parent";
  if typeof_undefined parent then
    do width <- gets (fun w => ui_width (ui w));
    do height <- gets (fun w => ui_height (ui w));
    ret (Bounds.mk 0 0 width height)
  else
    do inst <- instanceof_DisplayObject parent;
    if inst then parent_getBounds parent
    else throw (Error "DisplayObject.parent should always be an instance of DisplayObject").

(** [value.match(/^([0-9\.]+)%$/)[1]] *)
Definition percent_capture (value : jsval) : M string :=
  match value with
  | VStr s =>
      match percent_match s with
      | Some d => ret d
      | None => throw (TypeError "cannot read properties of null")
      end
  | VUndef | VNull => throw (TypeError "cannot read properties of undefined or null")
  | _ => throw (TypeError "value.match is not a function")
  end.

(** The body of the loop of [getOffsetInCanvas] for one key.
    [parentBounds] is the loop's lazily filled variable. *)
Definition offset_entry (this value : jsval) (parentBounds : option Bounds.t)
    : M (float * option Bounds.t) :=
  match value with
  | VNum f => ret (f, parentBounds)
  | _ =>
      do pb <- match parentBounds with
               | Some pb => ret pb
               | None => getParentBounds this
               end;
      do d <- percent_capture value;
      ret (parseFloat d / 100 * Bounds.width pb, Some pb)
  end.

(** The loop runs over [Object.keys(offset)], that is over left, top, right
    and bottom in this order. *)
Definition getOffsetInCanvas (this : jsval) : M Offset.t :=
  do offset <- get_prop fuel this "offset";
  do left <- get_prop fuel offset "left";
  do top <- get_prop fuel offset "top";
  do right <- get_prop fuel offset "right";
  do bottom <- get_prop fuel offset "bottom";
  do l <- offset_entry this left None;
  do t <- offset_entry this top (snd l);
  do r <- offset_entry this right (snd t);
  do b <- offset_entry this bottom (snd r);
  ret (Offset.mk (fst l) (fst t) (fst r) (fst b)).

(** One axis of [adjustPositionForAnchor]: [lo] and [hi] are the anchors of
    the axis (left and right, or top and bottom). *)
Definition anchored (this : jsval) (axis : string) (lo hi : jsval)
    (origin size v : float) : M float :=
  do anchor <- get_prop fuel this "anchor";
  do a <- get_prop fuel anchor axis;
  if strict_eq a lo then ret (origin + v)
  else if strict_eq a hi then ret (origin + size - v)
  else if strict_eq a anchors.center then ret (origin + size * 0.5 + v)
  else ret v.

Definition adjustPositionForAnchor (this : jsval) (x y : float) : M Position.t :=
  do parentBounds <- getParentBounds this;
  do stretch <- get_prop fuel this "stretch";
  do sx <- get_prop fuel stretch "x";
  do x <- (if negb (to_boolean sx)
           then anchored this "x" anchors.left anchors.right
                  (Bounds.x parentBounds) (Bounds.width parentBounds) x
           else ret x);
  do sy <- get_prop fuel stretch "y";
  do y <- (if negb (to_boolean sy)
           then anchored this "y" anchors.top anchors.bottom
                  (Bounds.y parentBounds) (Bounds.height parentBounds) y
           else ret y);
  ret (Position.mk x y).

Definition adjustPositionForPivot (this : jsval) (x y : float) : M Position.t :=
  do width <- get_prop fuel this "width";
  do pivot <- get_prop fuel this "pivot";
  do px <- get_prop fuel pivot "x";
  do height <- get_prop fuel this "height";
  do py <- get_prop fuel pivot "y";
  do h <- gets host;
  let num := to_number (StringToNumber h) in
  ret (Position.mk (x - num width * num px) (y - num height * num py)).

Definition determinePositionInCanvas (this : jsval) : M Position.t :=
  do tx <- get_prop fuel this "x";
  do ty <- get_prop fuel this "y";
  do stretch <- get_prop fuel this "stretch";
  do sx <- get_prop fuel stretch "x";
  do sy <- get_prop fuel stretch "y";
  do position <-
    (if to_boolean sx || to_boolean sy then
       do parentBounds <- getParentBounds this;
       do offset <- getOffsetInCanvas this;
       ret (Position.mk
              (if to_boolean sx then Bounds.x parentBounds + Offset.left offset
               else number_or_zero tx)
              (if to_boolean sy then Bounds.y parentBounds + Offset.top offset
               else number_or_zero ty))
     else ret (Position.mk (number_or_zero tx) (number_or_zero ty)));
  do position <- adjustPositionForAnchor this (Position.x position) (Position.y position);
  adjustPositionForPivot this (Position.x position) (Position.y position).

Definition determineDimensionsInCanvas (this : jsval) : M Dimensions.t :=
  do tw <- get_prop fuel this "width";
  do th <- get_prop fuel this "height";
  do stretch <- get_prop fuel this "stretch";
  do sx <- get_prop fuel stretch "x";
  do sy <- get_prop fuel stretch "y";
  if to_boolean sx || to_boolean sy then
    do parentBounds <- getParentBounds this;
    do offset <- getOffsetInCanvas this;
    ret (Dimensions.mk
           (if to_boolean sx
            then Bounds.width parentBounds - Offset.left offset - Offset.right offset
            else number_or_zero tw)
           (if to_boolean sy
            then Bounds.height parentBounds - Offset.top offset - Offset.bottom offset
            else number_or_zero th))
  else ret (Dimensions.mk (number_or_zero tw) (number_or_zero th)).

Definition getBounds (this : jsval) : M Bounds.t :=
  do position <- determinePositionInCanvas this;
  do dimensions <- determineDimensionsInCanvas this;
  ret (Bounds.mk (Position.x position) (Position.y position)
         (Dimensions.width dimensions) (Dimensions.height dimensions)).

End Frame.

(** [var DisplayObject = function(ui, x, y, width, height)], run on [this].
    The back-reference [this.ui] is the one root container of the world.
    The constructors of the node kinds run it; the methods of
    [DisplayObject.prototype] follow the node kinds, whose [draw] callbacks
    [render] calls. *)
Definition construct (n : nat) (this x y width height : jsval) : M unit :=
  set_prop n this "x" (default_to (VNum 0) x) ;;
  set_prop n this "y" (default_to (VNum 0) y) ;;
  set_prop n this "width" (default_to (VNum 0) width) ;;
  set_prop n this "height" (default_to (VNum 0) height) ;;
  set_prop n this "rotation" (VNum 0) ;;
  set_prop n this "alpha" (VNum 1) ;;
  set_prop n this "visible" (VBool true) ;;
  do pivot <- new_object CPlain [("x", VNum 0.5); ("y", VNum 0.5)];
  set_prop n this "pivot" pivot ;;
  do anchor <- new_object CPlain [("x", anchors.left); ("y", anchors.top)];
  set_prop n this "anchor" anchor ;;
  set_prop n this "smoothing" (VBool true) ;;
  do stretch <- new_object CPlain [("x", VBool false); ("y", VBool false)];
  set_prop n this "stretch" stretch ;;
  do offset <- new_object CPlain
     [("left", VNum 0); ("top", VNum 0); ("right", VNum 0); ("bottom", VNum 0)];
  set_prop n this "offset" offset ;;
  set_prop n this "parent" VUndef.

End Frame.

(** ** The node kinds: Rectangle.js, Text.js, Sprite.js, BitmapText.js *)

Module Rectangle.
(** [var Rectangle = function(ui, color, x, y, width, height)] *)
Definition construct (n : nat) (this color x y width height : jsval) : M unit :=
  set_prop n this "color" color ;;
  Frame.construct n this
    (default_to (VNum 0) x) (default_to (VNum 0) y)
    (default_to (VNum 1) width) (default_to (VNum 1) height).

(** [Rectangle.prototype.draw] *)
Definition draw (n : nat) (this : jsval) (x y width height : float) : M unit :=
  do color <- get_prop n this "color";
  ctx_call (CProperty "fillStyle" color) ;;
  ctx_call (CFillRect x y width height).

End Rectangle.

Module Text.
(** [var Text = function(ui, text, size, font, color, x, y)] *)
Definition construct (n : nat) (this text size font color x y : jsval) : M unit :=
  set_prop n this "textAlign" (VStr "left") ;;
  set_prop n this "textBaseline" (VStr "alphabetic") ;;
  set_prop n this "text" (default_to (VStr "") text) ;;
  set_prop n this "size" (default_to (VNum 12) size) ;;
  set_prop n this "font" (default_to (VStr "Arial") font) ;;
  set_prop n this "color" (default_to (VStr "#000000") color) ;;
  set_prop n this "lineHeight" (VNum 1) ;;
  Frame.construct n this
    (default_to (VNum 0) x) (default_to (VNum 0) y) VUndef VUndef.

(** *** Drawing *)

(** the line feed *)
Definition LF : ascii := "010"%char.

(** [s.split('\n')] *)
Fixpoint split_lines (s : string) : list string :=
  match s with
  | EmptyString => [EmptyString]
  | String c r =>
      if Ascii.eqb c LF then EmptyString :: split_lines r
      else match split_lines r with
           | line :: lines => String c line :: lines
           | [] => [String c EmptyString]
           end
  end.

(** an array index or length as a number *)
Definition index_number (i : nat) : float :=
  PrimFloat.of_uint63 (Uint63.of_Z (Z.of_nat i)).

(** the [fillText] calls of the loop of [draw], from index [idx] on;
    [lineStep] is [this.size * this.lineHeight] *)
Fixpoint fill_lines (x y midLinePoint lineStep : float) (idx : nat) (lines : list string)
    : list ctx_op :=
  match lines with
  | [] => []
  | line :: rest =>
      CFillText line x (y + (index_number idx - midLinePoint) * lineStep)
      :: fill_lines x y midLinePoint lineStep (S idx) rest
  end.

(** [Text.prototype.draw].  The four properties of the context are assigned
    before [this.text.split] is called: when [this.text] is not a string the
    TypeError leaves them assigned.  The loop reads [this.size] and
    [this.lineHeight] anew for every line; nothing is written meanwhile, so
    they are read once here. *)
Definition draw (n : nat) (this : jsval) (x y : float) : M unit :=
  do h <- gets host;
  do size <- get_prop n this "size";
  do font <- get_prop n this "font";
  ctx_call (CProperty "font"
              (VStr (String.append (to_string (NumberToString h) size)
                       (String.append "px " (to_string (NumberToString h) font))))) ;;
  do color <- get_prop n this "color";
  ctx_call (CProperty "fillStyle" color) ;;
  do textAlign <- get_prop n this "textAlign";
  ctx_call (CProperty "textAlign" textAlign) ;;
  do textBaseline <- get_prop n this "textBaseline";
  ctx_call (CProperty "textBaseline" textBaseline) ;;
  do text <- get_prop n this "text";
  match text with
  | VStr s =>
      let lines := split_lines s in
      do textVerticalAlign <- get_prop n this "textVerticalAlign";
      let midLinePoint :=
        if strict_eq textVerticalAlign (VStr "center")
        then index_number (length lines) / 2 - 0.5
        else if strict_eq textVerticalAlign (VStr "bottom")
        then index_number (length lines) - 1
        else 0 in
      do size <- get_prop n this "size";
      do lineHeight <- get_prop n this "lineHeight";
      let num := to_number (StringToNumber h) in
      forEach ctx_call (fill_lines x y midLinePoint (num size * num lineHeight) O lines)
  | VUndef | VNull => throw (TypeError "cannot read properties of undefined or null")
  | _ => throw (TypeError "this.text.split is not a function")
  end.

End Text.

Module Sprite.

(** [Sprite.prototype.setAssetPath]; the sheet lookup of [parseSheet] is the
    asset provider's, its outcome is the host's. *)
Definition setAssetPath (n : nat) (this assetPath sheetImagePath sheetDataPath : jsval)
    : M unit :=
  set_prop n this "assetPath" assetPath ;;
  do sheet <- get_prop n this "sheet";
  do h <- gets host;
  if typeof_undefined sheetImagePath && negb (to_boolean sheet) then
    set_prop n this "asset" (getAssetById h assetPath) ;;
    set_prop n this "sheet" VNull
  else
    set_prop n this "asset" VNull ;;
    match Sprite_parseSheet h assetPath sheetImagePath sheetDataPath with
    | inl e => throw e
    | inr (sheet, sheetData, sheetImageData) =>
        set_prop n this "sheet" sheet ;;
        set_prop n this "sheetData" sheetData ;;
        set_prop n this "sheetImageData" sheetImageData
    end.

(** [width !== null ? width : natural] *)
Definition unless_null (v natural : jsval) : jsval :=
  if strict_eq v VNull then natural else v.

(** [var Sprite = function(ui, assetPath, x, y, width, height,
    sheetImagePath, sheetDataPath)] *)
Definition construct (n : nat)
    (this assetPath x y width height sheetImagePath sheetDataPath : jsval) : M unit :=
  setAssetPath n this assetPath sheetImagePath sheetDataPath ;;
  let x := default_to (VNum 0) x in
  let y := default_to (VNum 0) y in
  let width := default_to VNull width in
  let height := default_to VNull height in
  do asset <- get_prop n this "asset";
  do sheet <- get_prop n this "sheet";
  do sheetImageData <- get_prop n this "sheetImageData";
  do size <-
    (if to_boolean asset then
       do aw <- get_prop n asset "width";
       do ah <- get_prop n asset "height";
       ret (unless_null width aw, unless_null height ah)
     else if to_boolean sheet && to_boolean sheetImageData then
       do frame <- get_prop n sheetImageData "frame";
       do fw <- get_prop n frame "w";
       do fh <- get_prop n frame "h";
       ret (unless_null width fw, unless_null height fh)
     else ret (width, height));
  Frame.construct n this x y (fst size) (snd size).

(** [Sprite.prototype.draw] *)
Definition draw (n : nat) (this : jsval) (x y width height : float) : M unit :=
  do sheet <- get_prop n this "sheet";
  do sheetImageData <- get_prop n this "sheetImageData";
  if to_boolean sheet && to_boolean sheetImageData then
    do frame <- get_prop n sheetImageData "frame";
    do fx <- get_prop n frame "x";
    do fy <- get_prop n frame "y";
    do fw <- get_prop n frame "w";
    do fh <- get_prop n frame "h";
    drawImage sheet [fx; fy; fw; fh; VNum x; VNum y; VNum width; VNum height]
  else
    do asset <- get_prop n this "asset";
    drawImage asset [VNum x; VNum y; VNum width; VNum height].

End Sprite.

Module BitmapText.
(** [var BitmapText = function(ui, text, scale, x, y, sheetImagePath,
    sheetDataPath)].  What goes before the call of the [DisplayObject]
    constructor ([parseSheet], [setText], [calculateDimensions]) belongs to
    the bitmap font code: the host gives its outcome, an exception or the
    properties set and the dimensions computed. *)
Definition construct (n : nat)
    (this text scale x y sheetImagePath sheetDataPath : jsval) : M unit :=
  do h <- gets host;
  match BitmapText_prelude h text scale sheetImagePath sheetDataPath with
  | inl e => throw e
  | inr (props, dimensions) =>
      forEach (fun kv => set_prop n this (fst kv) (snd kv)) props ;;
      Frame.construct n this
        (default_to (VNum 0) x) (default_to (VNum 0) y)
        (VNum (Dimensions.width dimensions)) (VNum (Dimensions.height dimensions)) ;;
      do pivot <- get_prop n this "pivot";
      set_prop n pivot "x" (VNum 0) ;;
      do pivot <- get_prop n this "pivot";
      set_prop n pivot "y" (VNum 0)
  end.

(** *** Measuring and drawing

    The methods below read three properties of the text: [this.characters]
    (the text split into its characters, each a string of one character, so
    that a lookup never meets a property inherited from [Object.prototype]),
    [this.characterData] (the pixel rectangle of each character of the font;
    its entries are listed in the order of [Object.keys]) and [this.scale]
    (a number). *)

Definition fallbackWidth : float := 6.
Definition fallbackHeight : float := 6.

(** an entry of [this.characterData] *)
Record CharData : Type := mkCharData {
  data_x : float; data_y : float; data_width : float; data_height : float
}.

(** [this.characterData[character]] *)
Fixpoint characterData_get (characterData : list (string * CharData))
    (character : string) : option CharData :=
  match characterData with
  | [] => None
  | (k, d) :: r => if String.eqb k character then Some d else characterData_get r character
  end.

(** [Math.max(a, b)]: NaN when either is NaN, and +0 counts as larger
    than -0 *)
Definition Math_max (a b : float) : float :=
  if is_nan a || is_nan b then nan
  else if a <? b then b
  else if b <? a then a
  else match PrimFloat.classify a with
       | FloatClass.NZero => b
       | _ => a
       end.

(** one round of the loop of [calculateDimensions]: a character without
    data is replaced by [Object.keys(this.characterData)[0]] *)
Definition measure (characterData : list (string * CharData))
    (dimensions : Dimensions.t) (character : string) : Dimensions.t :=
  let data :=
    match characterData_get characterData character with
    | Some d => Some d
    | None =>
        match characterData with
        | (first, _) :: _ => characterData_get characterData first
        | [] => None
        end
    end in
  Dimensions.mk
    (Dimensions.width dimensions + match data with Some d => data_width d | None => 0 end)
    (Math_max (Dimensions.height dimensions)
       match data with Some d => data_height d | None => 0 end).

(** [BitmapText.prototype.calculateDimensions] *)
Definition calculateDimensions (characters : list string)
    (characterData : list (string * CharData)) (scale : float) : Dimensions.t :=
  let dimensions := fold_left (measure characterData) characters (Dimensions.mk 0 0) in
  Dimensions.mk (Dimensions.width dimensions * scale) (Dimensions.height dimensions * scale).

(** [context.drawImage(this.sheet, sx, sy, sw, sh, dx, dy, dw, dh)] *)
Record DrawImage : Type := mkDrawImage {
  src_x : float; src_y : float; src_width : float; src_height : float;
  dst_x : float; dst_y : float; dst_width : float; dst_height : float
}.

(** [BitmapText.prototype.drawCharacter] on a text with this character data
    and scale: the call made on the context, if any, and the bounding box
    returned *)
Definition drawCharacter (characterData : list (string * CharData)) (scale : float)
    (character : string) (x y : float) : option DrawImage * Bounds.t :=
  match characterData_get characterData character with
  | None => (None, Bounds.mk x y (fallbackWidth * scale) (fallbackHeight * scale))
  | Some data =>
      let width := data_width data * scale in
      let height := data_height data * scale in
      (Some (mkDrawImage (data_x data) (data_y data) (data_width data) (data_height data)
               x y width height),
       Bounds.mk x y width height)
  end.

(** the [drawImage] calls that [BitmapText.prototype.draw] makes, in order,
    on a text with these characters, character data and scale *)
Fixpoint draw (characterData : list (string * CharData)) (scale : float)
    (characters : list string) (x y : float) : list DrawImage :=
  match characters with
  | [] => []
  | character :: rest =>
      let r := drawCharacter characterData scale character x y in
      match fst r with Some call => [call] | None => [] end ++
      draw characterData scale rest
        (Bounds.x (snd r) + Bounds.width (snd r)) (Bounds.y (snd r))
  end.

(** *** The methods on a node of the heap

    [this.characters] is an array and [this.characterData] an object whose
    entries are objects: all of them objects of the heap, their elements
    and entries being own properties. *)
Module prototype.

(** the property key of index [i] *)
Definition index_key (i : nat) : string :=
  DecimalString.NilZero.string_of_uint (Nat.to_uint i).

(** the least integer not below [f], for a finite [f] *)
Definition ceiling (f : float) : Z :=
  match Prim2SF f with
  | S754_finite s m e =>
      let v := if s then Z.neg m else Z.pos m in
      if (0 <=? e)%Z then (v * 2 ^ e)%Z else (- ((- v) / 2 ^ (- e)))%Z
  | _ => 0%Z
  end.

(** the rounds of [for (var i = 0; i < length; i++)]: one for every index
    below [length].  [None] stands for a loop that does not end: [i++]
    leaves [i] at 2^53, so that is what happens when [length] is above. *)
Definition rounds (length : float) : option nat :=
  if 0 <? length then
    if 0x1p53 <? length then None else Some (Z.to_nat (ceiling length))
  else Some O.

(** [BitmapText.prototype.drawCharacter] *)
Definition drawCharacter (n : nat) (this character : jsval) (x y : float) : M Bounds.t :=
  do h <- gets host;
  let num := to_number (StringToNumber h) in
  do characterData <- get_prop n this "characterData";
  do data <- get_prop n characterData (to_string (NumberToString h) character);
  if typeof_undefined data then
    do scale <- get_prop n this "scale";
    ret (Bounds.mk x y (fallbackWidth * num scale) (fallbackHeight * num scale))
  else
    do dw <- get_prop n data "width";
    do scale <- get_prop n this "scale";
    do dh <- get_prop n data "height";
    let width := num dw * num scale in
    let height := num dh * num scale in
    do sheet <- get_prop n this "sheet";
    do dx <- get_prop n data "x";
    do dy <- get_prop n data "y";
    drawImage sheet [dx; dy; dw; dh; VNum x; VNum y; VNum width; VNum height] ;;
    ret (Bounds.mk x y width height).

(** the loop of [draw] from index [i] on, with [k] rounds to go *)
Fixpoint draw_from (n : nat) (this : jsval) (x y : float) (i k : nat) : M unit :=
  match k with
  | O => ret tt
  | S k =>
      do characters <- get_prop n this "characters";
      do character <- get_prop n characters (index_key i);
      do bounds <- drawCharacter n this character x y;
      draw_from n this (Bounds.x bounds + Bounds.width bounds) (Bounds.y bounds) (S i) k
  end.

(** [BitmapText.prototype.draw] *)
Definition draw (n : nat) (this : jsval) (x y : float) : M unit :=
  do characters <- get_prop n this "characters";
  do length <- get_prop n characters "length";
  do h <- gets host;
  match rounds (to_number (StringToNumber h) length) with
  | Some k => draw_from n this x y O k
  | None => diverge
  end.

End prototype.

End BitmapText.

(** ** DisplayObject.js: the methods *)

Module DisplayObject.

(** [var DisplayObject = function(ui, x, y, width, height)] *)
Definition construct (n : nat) (this x y width height : jsval) : M unit :=
  Frame.construct n this x y width height.

(** [getBounds] with a call stack of depth [n] *)
Fixpoint getBounds (n : nat) (this : jsval) : M Bounds.t :=
  match n with
  | O => diverge
  | S k => Frame.getBounds k (getBounds k) this
  end.

Definition getParentBounds (n : nat) : jsval -> M Bounds.t :=
  Frame.getParentBounds n (getBounds n).

Definition getOffsetInCanvas (n : nat) : jsval -> M Offset.t :=
  Frame.getOffsetInCanvas n (getBounds n).

Definition determinePositionInCanvas (n : nat) : jsval -> M Position.t :=
  Frame.determinePositionInCanvas n (getBounds n).

Definition determineDimensionsInCanvas (n : nat) : jsval -> M Dimensions.t :=
  Frame.determineDimensionsInCanvas n (getBounds n).

Definition adjustPositionForAnchor (n : nat) : jsval -> float -> float -> M Position.t :=
  Frame.adjustPositionForAnchor n (getBounds n).

Definition adjustPositionForPivot (n : nat) : jsval -> float -> float -> M Position.t :=
  Frame.adjustPositionForPivot n.

Definition shouldReceiveEvents (n : nat) (this : jsval) : M jsval :=
  get_prop n this "visible".

(** [Math.PI] *)
Definition Math_PI : float := 0x1.921fb54442d18p+1.

Definition smoothing_properties : list string :=
  ["mozImageSmoothingEnabled"; "webkitImageSmoothingEnabled";
   "msImageSmoothingEnabled"; "imageSmoothingEnabled"].

(** [this.draw(context, x, y, width, height)]: the callback that the node
    finds on the prototype of its kind.  [CDraw] marks that it is entered. *)
Definition draw (n : nat) (this : jsval) (b : Bounds.t) : M unit :=
  match this with
  | VObj l =>
      do o <- deref l;
      let entered :=
        ctx_call (CDraw l (Bounds.x b) (Bounds.y b) (Bounds.width b) (Bounds.height b)) in
      match cls o with
      | CPlain => throw (TypeError "this.draw is not a function")
      | CRectangle =>
          entered ;;
          Rectangle.draw n this (Bounds.x b) (Bounds.y b) (Bounds.width b) (Bounds.height b)
      | CSprite =>
          entered ;;
          Sprite.draw n this (Bounds.x b) (Bounds.y b) (Bounds.width b) (Bounds.height b)
      | CText => entered ;; Text.draw n this (Bounds.x b) (Bounds.y b)
      | CBitmapText =>
          entered ;; BitmapText.prototype.draw n this (Bounds.x b) (Bounds.y b)
      end
  | _ => throw (TypeError "this.draw is not a function")
  end.

Definition render (n : nat) (this : jsval) : M unit :=
  do visible <- get_prop n this "visible";
  if negb (to_boolean visible) then ret tt else
  ctx_call CSave ;;
  do bounds <- getBounds n this;
  do rotation <- get_prop n this "rotation";
  (if to_boolean rotation then
     do h <- gets host;
     let radians := (Math_PI / 180) * to_number (StringToNumber h) rotation in
     do pivotAdjustment <- adjustPositionForPivot n this 0 0;
     let moveX := Bounds.x bounds - Position.x pivotAdjustment in
     let moveY := Bounds.y bounds - Position.y pivotAdjustment in
     ctx_call (CTranslate moveX moveY) ;;
     ctx_call (CRotate radians) ;;
     ctx_call (CTranslate (- moveX) (- moveY))
   else ret tt) ;;
  do alpha <- get_prop n this "alpha";
  ctx_call (CGlobalAlpha alpha) ;;
  do h <- gets host;
  forEach (fun key =>
             if mem key (smoothing_keys h) then
               do smoothing <- get_prop n this "smoothing";
               ctx_call (CSmoothing key smoothing)
             else ret tt)
          smoothing_properties ;;
  draw n this bounds ;;
  ctx_call CRestore.

End DisplayObject.

(** ** ThreeUI.js *)

(** A pointer event as the handler inspects it. *)
Record Event : Type := mkEvent {
  is_TouchEvent : bool;     (* TouchEvent is defined and event is one *)
  is_MouseEvent : bool;     (* event instanceof MouseEvent *)
  touches : list (jsval * jsval);   (* pageX, pageY of each touch *)
  pageX : jsval;
  pageY : jsval
}.

Module ThreeUI.

(** [ThreeUI.prototype.resize]; the style transform of the canvas element is
    left to the browser. *)
Definition resize : M unit :=
  modify (fun w =>
    let u := ui w in
    let gameCanvasAspect := gameCanvas_width (host w) / gameCanvas_height (host w) in
    let width := ui_height u * gameCanvasAspect in
    with_ui (mkUI (displayObjects u) (eventListeners_click u) (clearRect u)
               (ui_height u) width
               (unsigned_long (host w) width) (unsigned_long (host w) (ui_height u))
               (renderOnQuad u) (texture_needsUpdate u) true
               (listeningToTouchEvents u)) w).

(** [height || 720] *)
Definition height_or_default (height : option float) : float :=
  match height with
  | Some h => if to_boolean (VNum h) then h else 720
  | None => 720
  end.

(** [var ThreeUI = function(gameCanvas, height, renderOnQuad)]: the world
    right after construction. *)
Definition construct (h : Host) (height : option float) (renderOnQuad : bool) : World :=
  snd (resize
         (mkWorld h ∅ O
            (mkUI [] [] None (height_or_default height) nan nan nan
               renderOnQuad false true false)
            [])).

(** [this.displayObjects[i].render(self.context)] *)
Definition render_entry (n : nat) (displayObject : jsval) : M unit :=
  method_call "render" displayObject (DisplayObject.render n displayObject).

(** [ThreeUI.prototype.draw] *)
Definition draw (n : nat) : M unit :=
  do u <- gets ui;
  if negb (shouldReDraw u) then ret tt else
  match clearRect u with
  | Some r => ctx_call (CClearRect (Bounds.x r) (Bounds.y r) (Bounds.width r) (Bounds.height r))
  | None => ctx_call (CClearRect 0 0 (canvas_width u) (canvas_height u))
  end ;;
  forEach (render_entry n) (displayObjects u) ;;
  (if renderOnQuad u
   then modify (fun w => with_ui (with_texture_needsUpdate true (ui w)) w)
   else ret tt) ;;
  set_shouldReDraw false.

(** the common tail of the factories *)
Definition register (n : nat) (displayObject : jsval) : M jsval :=
  modify (fun w =>
    with_ui (with_displayObjects (displayObjects (ui w) ++ [displayObject]) (ui w)) w) ;;
  observeDirtyProperties n displayObject ;;
  ret displayObject.

Definition createSprite (n : nat) (imagePath x y width height : jsval) : M jsval :=
  do displayObject <- new_object CSprite [];
  Sprite.construct n displayObject imagePath x y width height VUndef VUndef ;;
  register n displayObject.

Definition createSpriteFromSheet (n : nat)
    (imagePath sheetImagePath sheetDataPath x y width height : jsval) : M jsval :=
  do displayObject <- new_object CSprite [];
  Sprite.construct n displayObject imagePath x y width height sheetImagePath sheetDataPath ;;
  register n displayObject.

Definition createRectangle (n : nat) (color x y width height : jsval) : M jsval :=
  do displayObject <- new_object CRectangle [];
  Rectangle.construct n displayObject color x y width height ;;
  register n displayObject.

(** [new Text(this, text, font, color, x, y)] against the constructor's
    parameters [(ui, text, size, font, color, x, y)] *)
Definition createText (n : nat) (text font color x y : jsval) : M jsval :=
  do displayObject <- new_object CText [];
  Text.construct n displayObject text font color x y VUndef ;;
  register n displayObject.

Definition createBitmapText (n : nat)
    (text size x y sheetImagePath sheetDataPath : jsval) : M jsval :=
  do displayObject <- new_object CBitmapText [];
  BitmapText.construct n displayObject text size x y sheetImagePath sheetDataPath ;;
  register n displayObject.

(** [addEventListener('click', callback, displayObject)] *)
Definition addEventListener (callback : nat) (displayObject : jsval) : M unit :=
  modify (fun w =>
    with_ui (with_click_listeners
               (eventListeners_click (ui w) ++ [mkListener callback displayObject])
               (ui w)) w).

Definition windowToUISpace (x y : jsval) : M Position.t :=
  do h <- gets host;
  do height <- gets (fun w => ui_height (ui w));
  let bounds := gameCanvas_rect h in
  let scale := height / Bounds.height bounds in
  let num := to_number (StringToNumber h) in
  ret (Position.mk ((num x - Bounds.x bounds) * scale)
                   ((num y - Bounds.y bounds) * scale)).

(** [array.indexOf(v)]: the first index whose element is strictly equal
    to [v], none standing for -1 *)
Fixpoint indexOf (l : list jsval) (v : jsval) : option nat :=
  match l with
  | [] => None
  | a :: r => if strict_eq a v then Some O else option_map S (indexOf r v)
  end.

(** [array.splice(i, 1)] *)
Fixpoint splice1 (i : nat) (l : list jsval) : list jsval :=
  match l with
  | [] => []
  | a :: r => match i with O => r | S k => a :: splice1 k r end
  end.

(** [ThreeUI.prototype.moveToFront] *)
Definition moveToFront (displayObject : jsval) : M unit :=
  modify (fun w =>
    let objs := displayObjects (ui w) in
    let objs := match indexOf objs displayObject with
                | Some elIdx => splice1 elIdx objs
                | None => objs
                end in
    with_ui (with_displayObjects (objs ++ [displayObject]) (ui w)) w).

Definition isInBoundingBox (x y boundX boundY boundWidth boundHeight : float) : bool :=
  (boundX <=? x) && (x <=? boundX + boundWidth) &&
  (boundY <=? y) && (y <=? boundY + boundHeight).

(** The first [forEach] of [clickHandler]: [queue] is [callbackQueue].
    The node of a listener is a display object, as [onClick] registers it:
    [shouldReceiveEvents] and [getBounds] are its methods. *)
Fixpoint collect (n : nat) (coords : Position.t) (listeners : list Listener)
    (queue : list nat) : M (list nat) :=
  match listeners with
  | [] => ret queue
  | listener :: rest =>
      do receive <- DisplayObject.shouldReceiveEvents n (displayObject listener);
      if negb (to_boolean receive) then collect n coords rest queue else
      do bounds <- DisplayObject.getBounds n (displayObject listener);
      if isInBoundingBox (Position.x coords) (Position.y coords)
           (Bounds.x bounds) (Bounds.y bounds) (Bounds.width bounds) (Bounds.height bounds)
      then collect n coords rest (queue ++ [callback listener])
      else collect n coords rest queue
  end.

(** The second [forEach]: every queued callback is called; the result lists
    the callbacks called, in the order of the calls. *)
Fixpoint fire (callbacks : nat -> M unit) (queue : list nat) : M (list nat) :=
  match queue with
  | [] => ret []
  | c :: rest =>
      callbacks c ;;
      do fired <- fire callbacks rest;
      ret (c :: fired)
  end.

(** The first block of [clickHandler]: the coordinates the event carries
    (none for a touch event without them), noting whether the stream of
    events comes from touches. *)
Definition event_coords (event : Event) : M (option (jsval * jsval)) :=
  if is_TouchEvent event then
    modify (fun w => with_ui (with_listeningToTouchEvents true (ui w)) w) ;;
    match touches event with
    | t :: _ => ret (Some t)
    | [] =>
        if to_boolean (pageX event) && to_boolean (pageY event)
        then ret (Some (pageX event, pageY event))
        else
          modify (fun w => with_ui (with_listeningToTouchEvents false (ui w)) w) ;;
          ret None
    end
  else ret (Some (pageX event, pageY event)).

(** [ThreeUI.prototype.clickHandler].  [callbacks] gives each registered
    callback function its behaviour; the value returned is the list of the
    callbacks that were called (the source returns nothing). *)
Definition clickHandler (callbacks : nat -> M unit) (n : nat) (event : Event)
    : M (list nat) :=
  do coords <- event_coords event;
  do u <- gets ui;
  match coords with
  | None => ret []
  | Some c =>
      if listeningToTouchEvents u && is_MouseEvent event then ret [] else
      do coords <- windowToUISpace (fst c) (snd c);
      do callbackQueue <- collect n coords (eventListeners_click u) [];
      fire callbacks callbackQueue
  end.

End ThreeUI.

Module DisplayObject_events.
(** [DisplayObject.prototype.onClick] *)
Definition onClick (this : jsval) (callback : nat) : M unit :=
  ThreeUI.addEventListener callback this.
End DisplayObject_events.

(** ** Observations of a world, used to state the properties *)

(** the display object that [this.parent] holds, if it holds one *)
Definition parent_loc (w : World) (l : loc) : option loc :=
  match fst (get_prop 0 (VObj l) "parent" w) with
  | Ret (VObj p) =>
      match fst (instanceof_DisplayObject (VObj p) w) with
      | Ret true => Some p
      | _ => None
      end
  | _ => None
  end.

(** the [k]-th node up the chain of parents *)
Fixpoint nth_parent (w : World) (k : nat) (l : loc) : option loc :=
  match k with
  | O => Some l
  | S k' =>
      match parent_loc w l with
      | Some p => nth_parent w k' p
      | None => None
      end
  end.

(** reading [this.stretch.x] and [this.stretch.y] does not throw *)
Definition stretch_readable (w : World) (l : loc) : bool :=
  match fst ((do stretch <- get_prop 0 (VObj l) "stretch";
              do _ <- get_prop 0 stretch "x";
              get_prop 0 stretch "y") w) with
  | Ret _ => true
  | _ => false
  end.

(** [stretch] is readable on the first [k] nodes of the chain of [l] *)
Definition chain_readable (w : World) (l : loc) (k : nat) : bool :=
  forallb (fun i => match nth_parent w i l with
                    | Some q => stretch_readable w q
                    | None => true
                    end) (seq 0 k).

(** the chain of parents of [l] ends within [d] steps *)
Fixpoint chain_ends (d : nat) (w : World) (l : loc) : bool :=
  match parent_loc w l with
  | None => true
  | Some p =>
      match d with
      | O => false
      | S d' => chain_ends d' w p
      end
  end.

(** the properties of a node that the bounds methods read *)
Record Fields : Type := mkFields {
  f_x : jsval; f_y : jsval; f_width : jsval; f_height : jsval;
  f_stretch_x : jsval; f_stretch_y : jsval;
  f_anchor_x : jsval; f_anchor_y : jsval;
  f_pivot_x : jsval; f_pivot_y : jsval;
  f_left : jsval; f_top : jsval; f_right : jsval; f_bottom : jsval
}.

(** the four values of [this.offset], read one by one *)
Definition read_offset (this : jsval) : M (jsval * jsval * jsval * jsval) :=
  do offset <- get_prop 0 this "offset";
  do left <- get_prop 0 offset "left";
  do top <- get_prop 0 offset "top";
  do right <- get_prop 0 offset "right";
  do bottom <- get_prop 0 offset "bottom";
  ret (left, top, right, bottom).

Definition read_fields (this : jsval) : M Fields :=
  do x <- get_prop 0 this "x";
  do y <- get_prop 0 this "y";
  do width <- get_prop 0 this "width";
  do height <- get_prop 0 this "height";
  do stretch <- get_prop 0 this "stretch";
  do sx <- get_prop 0 stretch "x";
  do sy <- get_prop 0 stretch "y";
  do anchor <- get_prop 0 this "anchor";
  do ax <- get_prop 0 anchor "x";
  do ay <- get_prop 0 anchor "y";
  do pivot <- get_prop 0 this "pivot";
  do px <- get_prop 0 pivot "x";
  do py <- get_prop 0 pivot "y";
  do o <- read_offset this;
  ret (mkFields x y width height sx sy ax ay px py
         (fst (fst (fst o))) (snd (fst (fst o))) (snd (fst o)) (snd o)).

(** What the specification says an offset edge resolves to, [W] being the
    parent's resolved width: a number passes through, a percentage string
    [p%] is [p / 100] times [W]. *)
Definition spec_edge (W : float) (v : jsval) : option float :=
  match v with
  | VNum f => Some f
  | VStr s =>
      match percent_match s with
      | Some p => Some (parseFloat p / 100 * W)%float
      | None => None
      end
  | _ => None
  end.

(** [this.visible] reads as a truthy value *)
Definition is_visible (n : nat) (w : World) (this : jsval) : bool :=
  match fst (get_prop n this "visible" w) with
  | Ret v => to_boolean v
  | _ => false
  end.

Definition is_CDraw (op : ctx_op) : bool :=
  match op with CDraw _ _ _ _ _ => true | _ => false end.

(** the call of the draw callback that a pass owes to node [this]: none if
    the node reads invisible, else one, with the node's resolved bounds *)
Definition draw_call (n : nat) (w : World) (this : jsval) : list ctx_op :=
  if is_visible n w this then
    match this, fst (DisplayObject.getBounds n this w) with
    | VObj l, Ret b =>
        [CDraw l (Bounds.x b) (Bounds.y b) (Bounds.width b) (Bounds.height b)]
    | _, _ => []
    end
  else [].

(** the calls of draw callbacks of a whole pass, in list order *)
Definition draw_calls (n : nat) (w : World) (nodes : list jsval) : list ctx_op :=
  flat_map (draw_call n w) nodes.

(** the [clearRect] call that opens a pass *)
Definition clear_call (u : ThreeUI_t) : ctx_op :=
  match clearRect u with
  | Some r => CClearRect (Bounds.x r) (Bounds.y r) (Bounds.width r) (Bounds.height r)
  | None => CClearRect 0 0 (canvas_width u) (canvas_height u)
  end.

(** the accessors of [o] are those of the tracked properties: what
    [observeDirtyProperties] leaves on a node *)
Definition observed (o : obj) : bool :=
  forallb (fun p => mem p (accessors o)) dirtyProperties &&
  forallb (fun p => mem p dirtyProperties) (accessors o).



(** [l] is a display object whose [visible] is read through the accessor of
    [observeDirtyProperties] and on through the getter of the prototype *)
Definition visible_observed (w : World) (l : loc) : bool :=
  match heap w !! l with
  | Some o =>
      is_display (cls o) && mem "visible" (accessors o) &&
      match field_lookup "_proxied_visible" (fields o) with
      | Some _ => false
      | None => true
      end
  | None => false
  end.

(** ... and so are the first [k] nodes up its chain of parents *)
Definition chain_observed (w : World) (l : loc) (k : nat) : bool :=
  forallb (fun i => match nth_parent w i l with
                    | Some q => visible_observed w q
                    | None => true
                    end) (seq 0 k).

(** *** What the constructors and [observeDirtyProperties] do to the
    object they work on, as functions on that object *)

(** the world with object [o] at [l] *)
Definition focus (l : loc) (o : obj) (w : World) : World :=
  with_heap (<[l := o]> (heap w)) w.

(** the own data property [name], undefined if there is none *)
Definition obj_read (name : string) (o : obj) : jsval :=
  default VUndef (field_lookup name (fields o)).

(** one step of [observeDirtyProperties] on a property not yet observed *)
Definition obj_observe (o : obj) (prop : string) : obj :=
  obj_define_accessor prop (obj_assign (proxyKey prop) (obj_read prop o) o).

(** the [DisplayObject] constructor; [nx] is where its first object
    literal, the pivot, is allocated *)
Definition obj_construct (x y width height : jsval) (nx : loc) (o : obj) : obj :=
  obj_assign "parent" VUndef
    (obj_assign "offset" (VObj (S (S (S nx))))
       (obj_assign "stretch" (VObj (S (S nx)))
          (obj_assign "smoothing" (VBool true)
             (obj_assign "anchor" (VObj (S nx))
                (obj_assign "pivot" (VObj nx)
                   (obj_assign "visible" (VBool true)
                      (obj_assign "alpha" (VNum 1)
                         (obj_assign "rotation" (VNum 0)
                            (obj_assign "height" (default_to (VNum 0) height)
                               (obj_assign "width" (default_to (VNum 0) width)
                                  (obj_assign "y" (default_to (VNum 0) y)
                                     (obj_assign "x" (default_to (VNum 0) x) o)))))))))))).

(** the object literals of the [DisplayObject] constructor *)
Definition pivot_literal : obj := mkObj CPlain [] [("x", VNum 0.5); ("y", VNum 0.5)].
Definition anchor_literal : obj := mkObj CPlain [] [("x", anchors.left); ("y", anchors.top)].
Definition stretch_literal : obj := mkObj CPlain [] [("x", VBool false); ("y", VBool false)].
Definition offset_literal : obj :=
  mkObj CPlain [] [("left", VNum 0); ("top", VNum 0); ("right", VNum 0); ("bottom", VNum 0)].

(** the world after the four literals have been allocated *)
Definition allocated (w : World) : World :=
  mkWorld (host w)
    (<[S (S (S (next_loc w))) := offset_literal]>
       (<[S (S (next_loc w)) := stretch_literal]>
          (<[S (next_loc w) := anchor_literal]>
             (<[next_loc w := pivot_literal]> (heap w)))))
    (S (S (S (S (next_loc w))))) (ui w) (context w).

(** the properties can be observed one after the other: none is observed
    yet, none is a proxy key *)
Fixpoint observable (props acc : list string) : bool :=
  match props with
  | [] => true
  | p :: r =>
      negb (mem p acc) && negb (mem (proxyKey p) acc) &&
      negb (String.eqb p "_proxied_visible") && observable r (p :: acc)
  end.

(** the properties that carry the defaults of a node, read one by one *)
Definition read_defaults (node : jsval) : M (list jsval) :=
  do pivot <- get_prop 1 node "pivot";
  do px <- get_prop 1 pivot "x";
  do py <- get_prop 1 pivot "y";
  do anchor <- get_prop 1 node "anchor";
  do ax <- get_prop 1 anchor "x";
  do ay <- get_prop 1 anchor "y";
  do stretch <- get_prop 1 node "stretch";
  do sx <- get_prop 1 stretch "x";
  do sy <- get_prop 1 stretch "y";
  do offset <- get_prop 1 node "offset";
  do left <- get_prop 1 offset "left";
  do top <- get_prop 1 offset "top";
  do right <- get_prop 1 offset "right";
  do bottom <- get_prop 1 offset "bottom";
  do rotation <- get_prop 1 node "rotation";
  do alpha <- get_prop 1 node "alpha";
  do visible <- get_prop 1 node "visible";
  do parent <- get_prop 1 node "parent";
  ret [px; py; ax; ay; sx; sy; left; top; right; bottom;
       rotation; alpha; visible; parent].

(** pivot [(p, p)], anchor (left, top), stretch (false, false), offsets 0,
    rotation 0, alpha 1, visible, no parent *)
Definition defaults (p : float) : list jsval :=
  [VNum p; VNum p; anchors.left; anchors.top; VBool false; VBool false;
   VNum 0; VNum 0; VNum 0; VNum 0; VNum 0; VNum 1; VBool true; VUndef].

(** a call of one of the factories of [ThreeUI] *)
Inductive factory_call : Type :=
| NewSprite (imagePath x y width height : jsval)
| NewSpriteFromSheet (imagePath sheetImagePath sheetDataPath x y width height : jsval)
| NewRectangle (color x y width height : jsval)
| NewText (text font color x y : jsval)
| NewBitmapText (text size x y sheetImagePath sheetDataPath : jsval).

Definition run_factory (n : nat) (c : factory_call) : M jsval :=
  match c with
  | NewSprite imagePath x y width height =>
      ThreeUI.createSprite n imagePath x y width height
  | NewSpriteFromSheet imagePath sheetImagePath sheetDataPath x y width height =>
      ThreeUI.createSpriteFromSheet n imagePath sheetImagePath sheetDataPath x y width height
  | NewRectangle color x y width height =>
      ThreeUI.createRectangle n color x y width height
  | NewText text font color x y =>
      ThreeUI.createText n text font color x y
  | NewBitmapText text size x y sheetImagePath sheetDataPath =>
      ThreeUI.createBitmapText n text size x y sheetImagePath sheetDataPath
  end.

(** the pivot a node of the factory starts with, on both axes: the
    [BitmapText] constructor sets [this.pivot.x = 0; this.pivot.y = 0] *)
Definition default_pivot (c : factory_call) : float :=
  match c with
  | NewBitmapText _ _ _ _ _ _ => 0
  | _ => 0.5
  end.

(** ** Example worlds *)

Module Examples.

(** a 1280x720 game canvas shown at its own size; no assets; the one number
    that the examples print is 12, the default size of a text *)
Definition host : Host :=
  mkHost (fun _ => nan) (fun f => f) ["imageSmoothingEnabled"]
    1280 720 (Bounds.mk 0 0 1280 720)
    (fun _ => VUndef)
    (fun _ _ _ => inl (Error "Sheet data path missing when creating sprite from sheet"))
    (fun _ _ _ _ => inl (Error "Sheet image path missing when creating sprite from sheet"))
    (fun _ => "12") (fun _ => None).

(** [new ThreeUI(gameCanvas, 720)] *)
Definition fresh : World := ThreeUI.construct host (Some 720) false.

Definition after {A} (m : M A) (w : World) : World := snd (m w).

(** [a = ui.createRectangle('#fff'); b = ui.createRectangle('#fff');
    a.parent = b; b.parent = a] *)
Definition cyclic : World :=
  after (do a <- ThreeUI.createRectangle 0 (VStr "#fff") VUndef VUndef VUndef VUndef;
         do b <- ThreeUI.createRectangle 0 (VStr "#fff") VUndef VUndef VUndef VUndef;
         set_prop 0 a "parent" b ;;
         set_prop 0 b "parent" a) fresh.

(** [panel = ui.createRectangle('#fff', 300, 200, 400, 300);
    child = ui.createRectangle('#000', 10, 10, 20, 40);
    child.parent = panel; child.stretch.x = true;
    child.offset.left = 10; child.offset.right = '50%'] *)
Definition nested : World :=
  after (do panel <- ThreeUI.createRectangle 0 (VStr "#fff")
                       (VNum 300) (VNum 200) (VNum 400) (VNum 300);
         do child <- ThreeUI.createRectangle 0 (VStr "#000")
                       (VNum 10) (VNum 10) (VNum 20) (VNum 40);
         set_prop 0 child "parent" panel ;;
         do stretch <- get_prop 0 child "stretch";
         set_prop 0 stretch "x" (VBool true) ;;
         do offset <- get_prop 0 child "offset";
         set_prop 0 offset "left" (VNum 10) ;;
         set_prop 0 offset "right" (VStr "50%")) fresh.

(** [r = ui.createRectangle('#fff'); r.offset.left = 10;
    r.offset.top = '50%'; r.offset.right = '10%'; r.offset.bottom = '25%'] *)
Definition percent : World :=
  after (do r <- ThreeUI.createRectangle 0 (VStr "#fff") VUndef VUndef VUndef VUndef;
         do offset <- get_prop 0 r "offset";
         set_prop 0 offset "left" (VNum 10) ;;
         set_prop 0 offset "top" (VStr "50%") ;;
         set_prop 0 offset "right" (VStr "10%") ;;
         set_prop 0 offset "bottom" (VStr "25%")) fresh.

(** [r = ui.createRectangle('#fff'); r.stretch.x = true; r.stretch.y = true] *)
Definition stretched : World :=
  after (do r <- ThreeUI.createRectangle 0 (VStr "#fff") VUndef VUndef VUndef VUndef;
         do stretch <- get_prop 0 r "stretch";
         set_prop 0 stretch "x" (VBool true) ;;
         set_prop 0 stretch "y" (VBool true)) fresh.

(** the same, followed by [r.pivot.x = 0; r.pivot.y = 0] *)
Definition stretched_unpivoted : World :=
  after (do pivot <- get_prop 0 (VObj 0%nat) "pivot";
         set_prop 0 pivot "x" (VNum 0) ;;
         set_prop 0 pivot "y" (VNum 0)) stretched.

(** [a = ui.createRectangle('#f00', 50, 50, 100, 100);
    b = ui.createRectangle('#0f0', 100, 100, 100, 100);
    c = ui.createRectangle('#00f', 10, 10, 20, 20);
    d = ui.createRectangle('#fff', 500, 500, 10, 10);
    b.visible = false; c.parent = b] *)
Definition scene : World :=
  after (do a <- ThreeUI.createRectangle 0 (VStr "#f00")
                   (VNum 50) (VNum 50) (VNum 100) (VNum 100);
         do b <- ThreeUI.createRectangle 0 (VStr "#0f0")
                   (VNum 100) (VNum 100) (VNum 100) (VNum 100);
         do c <- ThreeUI.createRectangle 0 (VStr "#00f")
                   (VNum 10) (VNum 10) (VNum 20) (VNum 20);
         do d <- ThreeUI.createRectangle 0 (VStr "#fff")
                   (VNum 500) (VNum 500) (VNum 10) (VNum 10);
         set_prop 1 b "visible" (VBool false) ;;
         set_prop 1 c "parent" b) fresh.

(** the scene after a first pass: [ui.draw()] *)
Definition drawn : World := after (ThreeUI.draw 3) scene.

(** [a = ui.createRectangle('#f00', 50, 50, 100, 100);
    b = ui.createRectangle('#0f0', 100, 100, 100, 100);
    c = ui.createRectangle('#00f', 10, 10, 20, 20); c.parent = b;
    a.onClick(f0); b.onClick(f1); c.onClick(f2)]: the boxes are
    A = (0, 0, 100, 100), B = (50, 50, 100, 100), C = (50, 50, 20, 20) *)
Definition overlap : World :=
  after (do a <- ThreeUI.createRectangle 0 (VStr "#f00")
                   (VNum 50) (VNum 50) (VNum 100) (VNum 100);
         do b <- ThreeUI.createRectangle 0 (VStr "#0f0")
                   (VNum 100) (VNum 100) (VNum 100) (VNum 100);
         do c <- ThreeUI.createRectangle 0 (VStr "#00f")
                   (VNum 10) (VNum 10) (VNum 20) (VNum 20);
         set_prop 1 c "parent" b ;;
         DisplayObject_events.onClick a 0 ;;
         DisplayObject_events.onClick b 1 ;;
         DisplayObject_events.onClick c 2) fresh.

(** [f0 = function() { b.visible = false; }]; [f1] and [f2] do nothing *)
Definition callbacks (k : nat) : M unit :=
  match k with
  | O => set_prop 1 (VObj 5%nat) "visible" (VBool false)
  | _ => ret tt
  end.

(** a mouse event at page position (60, 60) *)
Definition click : Event := mkEvent false true [] (VNum 60) (VNum 60).

(** the same scene after [b.visible = false] *)
Definition hidden_parent : World :=
  after (set_prop 1 (VObj 5%nat) "visible" (VBool false)) overlap.

(** [r = ui.createRectangle('#fff', 10, 20, 30, 40); r.parent = null] *)
Definition null_parent : World :=
  after (do r <- ThreeUI.createRectangle 0 (VStr "#fff")
                   (VNum 10) (VNum 20) (VNum 30) (VNum 40);
         set_prop 0 r "parent" VNull) fresh.

(** [r = ui.createRectangle('#fff', 10, 20, 30, 40);
    r.anchor.x = ThreeUI.anchors.right; r.anchor.y = ThreeUI.anchors.center] *)
Definition anchored : World :=
  after (do r <- ThreeUI.createRectangle 0 (VStr "#fff")
                   (VNum 10) (VNum 20) (VNum 30) (VNum 40);
         do anchor <- get_prop 0 r "anchor";
         set_prop 0 anchor "x" anchors.right ;;
         set_prop 0 anchor "y" anchors.center) fresh.

(** [r = ui.createRectangle('#fff'); r.stretch.x = true;
    r.offset.left = '5 %'] *)
Definition malformed : World :=
  after (do r <- ThreeUI.createRectangle 0 (VStr "#fff") VUndef VUndef VUndef VUndef;
         do stretch <- get_prop 0 r "stretch";
         set_prop 0 stretch "x" (VBool true) ;;
         do offset <- get_prop 0 r "offset";
         set_prop 0 offset "left" (VStr "5 %")) fresh.

(** the scene of the click after [b.visible = false] and a pass:
    [ui.draw()] *)
Definition hidden_drawn : World := after (ThreeUI.draw 3) hidden_parent.

(** [a = ui.createRectangle('#f00', 0, 0, 10, 10); a.visible = false;
    t = ui.createText(42)] *)
Definition number_text : World :=
  after (do a <- ThreeUI.createRectangle 0 (VStr "#f00")
                   (VNum 0) (VNum 0) (VNum 10) (VNum 10);
         set_prop 1 a "visible" (VBool false) ;;
         ThreeUI.createText 0 (VNum 42) VUndef VUndef VUndef VUndef) fresh.

(** [t = ui.createText('Hello' + LF + 'World', '20px webFont', '#fff')] *)
Definition label : World :=
  after (ThreeUI.createText 0
           (VStr (String.append "Hello" (String Text.LF "World")))
           (VStr "20px webFont") (VStr "#fff") VUndef VUndef) fresh.

End Examples.

(** * Properties *)

Local Open Scope nat_scope.

(** ** Computations: sequencing, readers *)

Section Monad_facts.
Context {A B : Type}.

Lemma bind_Ret (m : M A) (k : A -> M B) w a w' :
  m w = (Ret a, w') -> bind m k w = k a w'.
Proof. intros H. unfold bind. now rewrite H. Qed.

Lemma bind_Throw (m : M A) (k : A -> M B) w e w' :
  m w = (Throw e, w') -> bind m k w = (Throw e, w').
Proof. intros H. unfold bind. now rewrite H. Qed.

Lemma bind_Diverge (m : M A) (k : A -> M B) w w' :
  m w = (Diverge, w') -> bind m k w = (Diverge, w').
Proof. intros H. unfold bind. now rewrite H. Qed.

Lemma bind_ret_l (a : A) (k : A -> M B) w : bind (ret a) k w = k a w.
Proof. reflexivity. Qed.


End Monad_facts.

(** Two worlds that the layout cannot tell apart: same host, same heap,
    same logical canvas size. *)
Definition same_layout (w1 w2 : World) : Prop :=
  host w1 = host w2 /\ heap w1 = heap w2 /\
  ui_width (ui w1) = ui_width (ui w2) /\ ui_height (ui w1) = ui_height (ui w2).

(** A reader hands back the world it was given, and its outcome depends on
    nothing but the host, the heap and the logical canvas size. *)
Definition reader {A} (m : M A) : Prop :=
  forall w1 w2, same_layout w1 w2 -> m w1 = (fst (m w2), w1).

Definition readonly {A} (m : M A) : Prop := forall w, snd (m w) = w.

Lemma same_layout_refl w : same_layout w w.
Proof. now repeat split. Qed.

Lemma same_layout_sym w1 w2 : same_layout w1 w2 -> same_layout w2 w1.
Proof. intros (? & ? & ? & ?). now repeat split. Qed.

Lemma same_layout_context c w : same_layout (with_context c w) w.
Proof. now repeat split. Qed.

Create HintDb ro discriminated.

Section Reader_facts.
Context {A B : Type}.

Lemma reader_readonly (m : M A) : reader m -> readonly m.
Proof. intros H w. now rewrite (H w w (same_layout_refl w)). Qed.

Lemma reader_ret (a : A) : reader (ret a).
Proof. now intros w1 w2 _. Qed.

Lemma reader_throw (e : error) : reader (@throw A e).
Proof. now intros w1 w2 _. Qed.

Lemma reader_diverge : reader (@diverge A).
Proof. now intros w1 w2 _. Qed.

Lemma reader_bind (m : M A) (k : A -> M B) :
  reader m -> (forall a, reader (k a)) -> reader (bind m k).
Proof.
  intros Hm Hk w1 w2 Hs. unfold bind.
  rewrite (Hm w1 w2 Hs), (Hm w2 w2 (same_layout_refl w2)). simpl.
  destruct (fst (m w2)) as [a | e |]; [| reflexivity ..].
  apply Hk, Hs.
Qed.

(** sequencing after a read-only computation stays in the same world *)
Lemma bind_ro (m : M A) (k : A -> M B) w :
  readonly m ->
  bind m k w =
  match fst (m w) with
  | Ret a => k a w
  | Throw e => (Throw e, w)
  | Diverge => (Diverge, w)
  end.
Proof.
  intros Hm. unfold bind. specialize (Hm w).
  destruct (m w) as [[a | e |] w1]; simpl in *; now subst.
Qed.

Lemma ro_eq (m : M A) w r : readonly m -> fst (m w) = r -> m w = (r, w).
Proof. intros Hm <-. specialize (Hm w). destruct (m w); simpl in *; now subst. Qed.

End Reader_facts.

#[global] Hint Resolve reader_ret reader_throw reader_diverge : ro.

Lemma reader_host : reader (gets host).
Proof. intros w1 w2 (H & _). unfold gets. simpl. now rewrite H. Qed.

Lemma reader_ui_width : reader (gets (fun w => ui_width (ui w))).
Proof. intros w1 w2 (_ & _ & H & _). unfold gets. simpl. now rewrite H. Qed.

Lemma reader_ui_height : reader (gets (fun w => ui_height (ui w))).
Proof. intros w1 w2 (_ & _ & _ & H). unfold gets. simpl. now rewrite H. Qed.

Lemma reader_deref l : reader (deref l).
Proof. intros w1 w2 (_ & H & _). unfold deref. rewrite H. now destruct (heap w2 !! l). Qed.

#[global] Hint Resolve reader_host reader_ui_width reader_ui_height reader_deref : ro.

(** Breaks a reader goal along the shape of the computation. *)
Ltac ro :=
  repeat (intros;
    first
      [ solve [auto with ro]
      | apply reader_readonly
      | apply reader_bind
      | match goal with
        | |- reader (match ?x with _ => _ end) => destruct x
        end ]).

Lemma reader_instanceof v : reader (instanceof_DisplayObject v).
Proof. unfold instanceof_DisplayObject. ro. Qed.
#[global] Hint Resolve reader_instanceof : ro.

Lemma reader_get_prop n : forall v name, reader (get_prop n v name).
Proof.
  induction n as [| n IH]; intros v name; destruct v; simpl; ro.
Qed.
#[global] Hint Resolve reader_get_prop : ro.

Section Frame_reader.
Variable fuel : nat.
Variable f : jsval -> M Bounds.t.
Hypothesis Hf : forall p, reader (f p).

Lemma reader_frame_getParentBounds this : reader (Frame.getParentBounds fuel f this).
Proof. unfold Frame.getParentBounds. ro. Qed.

Lemma reader_percent_capture v : reader (Frame.percent_capture v).
Proof. unfold Frame.percent_capture. ro. Qed.

Lemma reader_offset_entry this v c : reader (Frame.offset_entry fuel f this v c).
Proof.
  pose proof reader_frame_getParentBounds. pose proof reader_percent_capture.
  unfold Frame.offset_entry. ro.
Qed.

Lemma reader_frame_getOffsetInCanvas this : reader (Frame.getOffsetInCanvas fuel f this).
Proof. pose proof reader_offset_entry. unfold Frame.getOffsetInCanvas. ro. Qed.

Lemma reader_anchored this axis lo hi o s v :
  reader (Frame.anchored fuel this axis lo hi o s v).
Proof. unfold Frame.anchored. ro. Qed.

Lemma reader_frame_adjustPositionForAnchor this x y :
  reader (Frame.adjustPositionForAnchor fuel f this x y).
Proof.
  pose proof reader_frame_getParentBounds. pose proof reader_anchored.
  unfold Frame.adjustPositionForAnchor. ro.
Qed.

Lemma reader_frame_adjustPositionForPivot this x y :
  reader (Frame.adjustPositionForPivot fuel this x y).
Proof. unfold Frame.adjustPositionForPivot. ro. Qed.

Lemma reader_frame_determinePositionInCanvas this :
  reader (Frame.determinePositionInCanvas fuel f this).
Proof.
  pose proof reader_frame_getParentBounds.
  pose proof reader_frame_getOffsetInCanvas.
  pose proof reader_frame_adjustPositionForAnchor.
  pose proof reader_frame_adjustPositionForPivot.
  unfold Frame.determinePositionInCanvas. ro.
Qed.

Lemma reader_frame_determineDimensionsInCanvas this :
  reader (Frame.determineDimensionsInCanvas fuel f this).
Proof.
  pose proof reader_frame_getParentBounds.
  pose proof reader_frame_getOffsetInCanvas.
  unfold Frame.determineDimensionsInCanvas. ro.
Qed.

Lemma reader_frame_getBounds this : reader (Frame.getBounds fuel f this).
Proof.
  pose proof reader_frame_determinePositionInCanvas.
  pose proof reader_frame_determineDimensionsInCanvas.
  unfold Frame.getBounds. ro.
Qed.

End Frame_reader.

Lemma reader_getBounds n : forall this, reader (DisplayObject.getBounds n this).
Proof.
  induction n as [| n IH]; intros this; simpl; [ro |].
  now apply reader_frame_getBounds.
Qed.
#[global] Hint Resolve reader_getBounds : ro.

Lemma reader_getParentBounds n this : reader (DisplayObject.getParentBounds n this).
Proof. apply reader_frame_getParentBounds, reader_getBounds. Qed.

Lemma reader_getOffsetInCanvas n this : reader (DisplayObject.getOffsetInCanvas n this).
Proof. apply reader_frame_getOffsetInCanvas, reader_getBounds. Qed.

Lemma reader_adjustPositionForAnchor n this x y :
  reader (DisplayObject.adjustPositionForAnchor n this x y).
Proof. apply reader_frame_adjustPositionForAnchor, reader_getBounds. Qed.

Lemma reader_adjustPositionForPivot n this x y :
  reader (DisplayObject.adjustPositionForPivot n this x y).
Proof. apply reader_frame_adjustPositionForPivot. Qed.

Lemma reader_determinePositionInCanvas n this :
  reader (DisplayObject.determinePositionInCanvas n this).
Proof. apply reader_frame_determinePositionInCanvas, reader_getBounds. Qed.

Lemma reader_determineDimensionsInCanvas n this :
  reader (DisplayObject.determineDimensionsInCanvas n this).
Proof. apply reader_frame_determineDimensionsInCanvas, reader_getBounds. Qed.

#[global] Hint Resolve reader_getParentBounds reader_getOffsetInCanvas
  reader_adjustPositionForAnchor reader_adjustPositionForPivot
  reader_determinePositionInCanvas reader_determineDimensionsInCanvas
  reader_frame_getParentBounds reader_frame_getOffsetInCanvas
  reader_frame_adjustPositionForAnchor reader_frame_adjustPositionForPivot
  reader_frame_determinePositionInCanvas reader_frame_determineDimensionsInCanvas
  reader_frame_getBounds reader_offset_entry reader_percent_capture
  reader_anchored : ro.

Lemma reader_shouldReceiveEvents n this :
  reader (DisplayObject.shouldReceiveEvents n this).
Proof. unfold DisplayObject.shouldReceiveEvents. ro. Qed.
#[global] Hint Resolve reader_shouldReceiveEvents : ro.

(** ** Property reads and recursion fuel *)

(** More fuel does not change a read that came back. *)
Lemma proxied_visible_get_mono (g1 g2 : jsval -> string -> M jsval) this w r :
  (forall v name, readonly (g1 v name)) ->
  (forall v name, readonly (g2 v name)) ->
  (forall v name r, fst (g1 v name w) = r -> r <> Diverge -> fst (g2 v name w) = r) ->
  fst (_proxied_visible_get g1 this w) = r -> r <> Diverge ->
  fst (_proxied_visible_get g2 this w) = r.
Proof.
  intros R1 R2 Hg. unfold _proxied_visible_get.
  rewrite !bind_ro by ro.
  destruct (fst (g1 this "parent" w)) as [parent | e |] eqn:Ep.
  - rewrite (Hg _ _ _ Ep) by discriminate.
    destruct (to_boolean parent && negb (strict_eq parent this)); [| now apply Hg].
    rewrite !bind_ro by ro.
    destruct (fst (g1 parent "visible" w)) as [pv | e |] eqn:Ev.
    + rewrite (Hg _ _ _ Ev) by discriminate.
      destruct (negb (to_boolean pv)); [easy | now apply Hg].
    + rewrite (Hg _ _ _ Ev) by discriminate. easy.
    + simpl. intros <-. congruence.
  - rewrite (Hg _ _ _ Ep) by discriminate. easy.
  - simpl. intros <-. congruence.
Qed.

Lemma get_prop_S n : forall v name w r,
  fst (get_prop n v name w) = r -> r <> Diverge -> fst (get_prop (S n) v name w) = r.
Proof.
  induction n as [| n IH]; intros v name w r.
  - destruct v; try (simpl; congruence).
    cbn [get_prop]. rewrite !bind_ro by ro.
    destruct (fst (deref l w)) as [o | e |]; try congruence.
    destruct (field_lookup _ (fields o)); try congruence.
    destruct (is_display (cls o) && _); try congruence.
    simpl. congruence.
  - destruct v; try (simpl; congruence).
    change (get_prop (S (S n)) (VObj l) name)
      with (do o <- deref l;
            let key := if mem name (accessors o) then proxyKey name else name in
            match field_lookup key (fields o) with
            | Some x => ret x
            | None =>
                if is_display (cls o) && String.eqb key "_proxied_visible"
                then _proxied_visible_get (get_prop (S n)) (VObj l)
                else ret VUndef
            end).
    change (get_prop (S n) (VObj l) name)
      with (do o <- deref l;
            let key := if mem name (accessors o) then proxyKey name else name in
            match field_lookup key (fields o) with
            | Some x => ret x
            | None =>
                if is_display (cls o) && String.eqb key "_proxied_visible"
                then _proxied_visible_get (get_prop n) (VObj l)
                else ret VUndef
            end).
    rewrite !bind_ro by ro.
    destruct (fst (deref l w)) as [o | e |]; try congruence.
    cbv zeta. destruct (field_lookup _ (fields o)); try congruence.
    destruct (is_display (cls o) && _); try congruence.
    apply proxied_visible_get_mono; try solve [ro]; auto.
Qed.

Lemma get_prop_run n v name w r :
  fst (get_prop n v name w) = r -> get_prop n v name w = (r, w).
Proof. apply ro_eq. ro. Qed.

Lemma get_prop_mono n m v name w r :
  n <= m -> fst (get_prop n v name w) = r -> r <> Diverge ->
  fst (get_prop m v name w) = r.
Proof.
  induction 1 as [| m Hle IH]; [easy |].
  intros H Hr. apply get_prop_S; auto.
Qed.

(** a read known without fuel holds with any fuel *)
Lemma get_prop_from_0 n v name w x :
  fst (get_prop 0 v name w) = Ret x -> get_prop n v name w = (Ret x, w).
Proof.
  intros H. apply ro_eq; [ro |].
  apply (get_prop_mono 0 n); [lia | assumption | discriminate].
Qed.

Lemma proxyKey_visible name : proxyKey name = "_proxied_visible" -> name = "visible".
Proof. intros H. cbv in H. congruence. Qed.

(** Only reads of [visible] (and of its proxy key) run the prototype's
    getter; every other read is a table lookup and needs no fuel. *)
Lemma get_prop_data n v name w :
  name <> "visible" -> name <> "_proxied_visible" ->
  get_prop n v name w = get_prop 0 v name w /\ fst (get_prop 0 v name w) <> Diverge.
Proof.
  intros H1 H2.
  assert (Hk : forall acc,
             String.eqb (if mem name acc then proxyKey name else name)
               "_proxied_visible" = false).
  { intros acc. apply String.eqb_neq.
    destruct (mem name acc); [| assumption].
    intros E. now apply H1, proxyKey_visible. }
  assert (Hd : forall l, fst (deref l w) <> Diverge).
  { intros l. unfold deref. destruct (heap w !! l); discriminate. }
  destruct v; try (destruct n; simpl; split; congruence).
  destruct n; cbn [get_prop]; rewrite !bind_ro by ro;
    (destruct (fst (deref l w)) as [o | e |] eqn:E;
     [| split; simpl; congruence | now destruct (Hd l)]);
    rewrite Hk, andb_false_r; destruct (field_lookup _ (fields o)); split; simpl; congruence.
Qed.

(** ** Chains of parents *)

Lemma parent_loc_Some w l p :
  parent_loc w l = Some p ->
  fst (get_prop 0 (VObj l) "parent" w) = Ret (VObj p) /\
  fst (instanceof_DisplayObject (VObj p) w) = Ret true.
Proof.
  unfold parent_loc.
  destruct (fst (get_prop 0 (VObj l) "parent" w)) as [[| | | | | q] | |]; try discriminate.
  destruct (fst (instanceof_DisplayObject (VObj q) w)) as [[|] | |] eqn:E; try discriminate.
  intros [= ->]. auto.
Qed.

Lemma get_prop_heap n l name w x :
  fst (get_prop n (VObj l) name w) = Ret x -> exists o, heap w !! l = Some o.
Proof.
  destruct n; cbn [get_prop]; rewrite bind_ro by ro; unfold deref;
    destruct (heap w !! l) as [o |]; simpl; try discriminate; eauto.
Qed.

(** a data property of an object that is there can be read *)
Lemma get_prop_total n l name w o :
  heap w !! l = Some o -> name <> "visible" -> name <> "_proxied_visible" ->
  exists x, get_prop n (VObj l) name w = (Ret x, w) /\
            fst (get_prop 0 (VObj l) name w) = Ret x.
Proof.
  intros Ho H1 H2. destruct (get_prop_data n (VObj l) name w H1 H2) as [-> _].
  assert (Hk : String.eqb (if mem name (accessors o) then proxyKey name else name)
                 "_proxied_visible" = false).
  { apply String.eqb_neq. destruct (mem name (accessors o)); [| assumption].
    intros E. now apply H1, proxyKey_visible. }
  cbn [get_prop]. rewrite bind_ro by ro. unfold deref. rewrite Ho. cbn [fst].
  rewrite Hk, andb_false_r. destruct (field_lookup _ (fields o)); eauto.
Qed.

Lemma frame_getParentBounds_parent k f l w p :
  parent_loc w l = Some p ->
  Frame.getParentBounds k f (VObj l) w = f (VObj p) w.
Proof.
  intros H. apply parent_loc_Some in H as [Hp Hi].
  unfold Frame.getParentBounds.
  rewrite (bind_Ret _ _ _ _ _ (get_prop_from_0 k _ _ _ _ Hp)). cbn [typeof_undefined].
  rewrite (bind_Ret _ _ _ _ _
             (ro_eq _ _ _ (reader_readonly _ (reader_instanceof _)) Hi)). reflexivity.
Qed.

Lemma stretch_readable_inv w l :
  stretch_readable w l = true ->
  exists s sx sy,
    fst (get_prop 0 (VObj l) "stretch" w) = Ret s /\
    fst (get_prop 0 s "x" w) = Ret sx /\ fst (get_prop 0 s "y" w) = Ret sy.
Proof.
  unfold stretch_readable. rewrite bind_ro by ro.
  destruct (fst (get_prop 0 (VObj l) "stretch" w)) as [s | |] eqn:E1; try discriminate.
  rewrite bind_ro by ro.
  destruct (fst (get_prop 0 s "x" w)) as [sx | |] eqn:E2; try discriminate.
  destruct (fst (get_prop 0 s "y" w)) as [sy | |] eqn:E3; try discriminate.
  intros _. now exists s, sx, sy.
Qed.

(** One frame over a parent whose own [getBounds] does not come back does
    not come back either: both branches of [determinePositionInCanvas] ask
    for the parent's bounds before anything else can fail. *)
Lemma frame_getBounds_diverge k f l w p :
  parent_loc w l = Some p -> stretch_readable w l = true ->
  f (VObj p) w = (Diverge, w) ->
  Frame.getBounds k f (VObj l) w = (Diverge, w).
Proof.
  intros Hp Hs Hf.
  destruct (parent_loc_Some _ _ _ Hp) as [Hpar _].
  destruct (get_prop_heap _ _ _ _ _ Hpar) as [o Ho].
  destruct (get_prop_total k l "x" w o Ho) as (vx & Hx & _); try discriminate.
  destruct (get_prop_total k l "y" w o Ho) as (vy & Hy & _); try discriminate.
  destruct (stretch_readable_inv _ _ Hs) as (s & sx & sy & Hst & Hsx & Hsy).
  assert (Hpb : Frame.getParentBounds k f (VObj l) w = (Diverge, w)).
  { now rewrite (frame_getParentBounds_parent _ _ _ _ _ Hp). }
  unfold Frame.getBounds. apply bind_Diverge.
  unfold Frame.determinePositionInCanvas.
  rewrite (bind_Ret _ _ _ _ _ Hx), (bind_Ret _ _ _ _ _ Hy).
  rewrite (bind_Ret _ _ _ _ _ (get_prop_from_0 k _ _ _ _ Hst)).
  rewrite (bind_Ret _ _ _ _ _ (get_prop_from_0 k _ _ _ _ Hsx)).
  rewrite (bind_Ret _ _ _ _ _ (get_prop_from_0 k _ _ _ _ Hsy)).
  destruct (to_boolean sx || to_boolean sy).
  - apply bind_Diverge. now apply bind_Diverge.
  - rewrite bind_ret_l.
    apply bind_Diverge. unfold Frame.adjustPositionForAnchor. now apply bind_Diverge.
Qed.

Lemma nth_parent_add w a : forall b l,
  nth_parent w (a + b) l =
  match nth_parent w a l with
  | Some q => nth_parent w b q
  | None => None
  end.
Proof.
  induction a as [| a IH]; intros b l; simpl; [reflexivity |].
  destruct (parent_loc w l); [apply IH | reflexivity].
Qed.

Lemma nth_parent_S w k l :
  nth_parent w (S k) l =
  match nth_parent w k l with
  | Some q => parent_loc w q
  | None => None
  end.
Proof.
  replace (S k) with (k + 1) by lia. rewrite nth_parent_add.
  destruct (nth_parent w k l); [| reflexivity].
  simpl. now destruct (parent_loc w l0).
Qed.

(** A chain that runs into a cycle never ends. *)
Lemma cycle_unbounded w l j k c :
  0 < k -> nth_parent w j l = Some c -> nth_parent w k c = Some c ->
  chain_readable w l (j + k) = true ->
  forall i, exists q, nth_parent w i l = Some q /\ stretch_readable w q = true.
Proof.
  intros Hk Hj Hc Hr i.
  induction i as [i IH] using lt_wf_ind.
  destruct (Nat.lt_ge_cases i (j + k)) as [Hlt | Hge].
  - assert (Hd : exists q, nth_parent w i l = Some q).
    { destruct (nth_parent w i l) as [q |] eqn:E; [eauto |].
      assert (Hjk : nth_parent w (j + k) l = Some c)
        by (now rewrite nth_parent_add, Hj).
      replace (j + k) with (i + (j + k - i)) in Hjk by lia.
      rewrite nth_parent_add, E in Hjk. discriminate. }
    destruct Hd as [q Hq]. exists q. split; [assumption |].
    unfold chain_readable in Hr. rewrite forallb_forall in Hr.
    specialize (Hr i). rewrite Hq in Hr. apply Hr, in_seq. lia.
  - destruct (IH (i - k)) as (q & Hq & Hs); [lia |].
    exists q. split; [| assumption].
    replace i with (j + (k + (i - k - j))) by lia.
    replace (i - k) with (j + (i - k - j)) in Hq by lia.
    rewrite nth_parent_add, Hj in *. now rewrite nth_parent_add, Hc.
Qed.

(** On a chain that never ends the recursion of [getBounds] uses up any
    call stack. *)
Lemma getBounds_unbounded w n : forall l,
  (forall i, exists q, nth_parent w i l = Some q /\ stretch_readable w q = true) ->
  DisplayObject.getBounds n (VObj l) w = (Diverge, w).
Proof.
  induction n as [| n IH]; intros l H; [reflexivity |].
  cbn [DisplayObject.getBounds].
  destruct (H 0) as (q0 & [= <-] & Hs).
  destruct (H 1) as (p & Hp & _). simpl in Hp.
  destruct (parent_loc w l) as [p' |] eqn:Ep; [| discriminate].
  injection Hp as ->.
  apply (frame_getBounds_diverge _ _ _ _ p); auto.
  apply IH. intros i. destruct (H (S i)) as (q & Hq & Hsq).
  simpl in Hq. rewrite Ep in Hq. eauto.
Qed.

(** ** Two computations that agree in a world *)

Section Agreement.
Variable w : World.

(** [m1] and [m2] do the same in [w], and come back *)
Definition agrees {A} (m1 m2 : M A) : Prop :=
  m1 w = m2 w /\ fst (m1 w) <> Diverge.

Lemma agrees_ret {A} (a : A) : agrees (ret a) (ret a).
Proof. split; [reflexivity | discriminate]. Qed.

Lemma agrees_throw {A} (e : error) : agrees (@throw A e) (throw e).
Proof. split; [reflexivity | discriminate]. Qed.

Lemma agrees_gets {A} (f : World -> A) : agrees (gets f) (gets f).
Proof. split; [reflexivity | discriminate]. Qed.

Lemma agrees_bind {A B} (m1 m2 : M A) (k1 k2 : A -> M B) :
  readonly m1 -> agrees m1 m2 ->
  (forall a, fst (m1 w) = Ret a -> agrees (k1 a) (k2 a)) ->
  agrees (bind m1 k1) (bind m2 k2).
Proof.
  intros Hro [He Hd] Hk. unfold agrees, bind. rewrite <- He.
  rewrite (ro_eq m1 w _ Hro eq_refl).
  destruct (fst (m1 w)) as [a | e |] eqn:E; [| split; [reflexivity | discriminate] | easy].
  now apply Hk.
Qed.

Lemma agrees_get_prop n m v name :
  name <> "visible" -> name <> "_proxied_visible" ->
  agrees (get_prop n v name) (get_prop m v name).
Proof.
  intros H1 H2. unfold agrees.
  destruct (get_prop_data n v name w H1 H2) as [-> Hd].
  destruct (get_prop_data m v name w H1 H2) as [-> _].
  now split.
Qed.

Lemma agrees_instanceof v :
  agrees (instanceof_DisplayObject v) (instanceof_DisplayObject v).
Proof.
  split; [reflexivity |]. unfold instanceof_DisplayObject.
  destruct v; try discriminate.
  rewrite bind_ro by ro. unfold deref. destruct (heap w !! l); discriminate.
Qed.

Lemma agrees_percent_capture v :
  agrees (Frame.percent_capture v) (Frame.percent_capture v).
Proof.
  split; [reflexivity |]. unfold Frame.percent_capture.
  destruct v; try discriminate. destruct (percent_match s); discriminate.
Qed.

End Agreement.

Create HintDb ag discriminated.
#[global] Hint Resolve agrees_ret agrees_throw agrees_gets agrees_instanceof
  agrees_percent_capture : ag.

Ltac ag :=
  repeat (intros;
    first
      [ solve [auto with ag]
      | solve [apply agrees_get_prop; discriminate]
      | apply agrees_bind; [solve [ro] | |]
      | match goal with
        | |- agrees _ (match ?x with _ => _ end) (match ?x with _ => _ end) => destruct x
        end ]).

(** One frame of [getBounds] does the same with any fuel for its property
    reads and with any two ways of asking the parent that agree on the
    parent the node has. *)
Section Frame_agreement.
Variable w : World.
Variables k k' : nat.
Variables f g : jsval -> M Bounds.t.
Variable l : loc.
Hypothesis Hf : forall p, reader (f p).
Hypothesis Hg : forall p, reader (g p).
Hypothesis Hfg : forall p, parent_loc w l = Some p -> agrees w (f (VObj p)) (g (VObj p)).

Lemma agrees_frame_getParentBounds :
  agrees w (Frame.getParentBounds k f (VObj l)) (Frame.getParentBounds k' g (VObj l)).
Proof.
  unfold Frame.getParentBounds.
  apply agrees_bind; [ro | ag |]. intros parent Hparent.
  destruct (typeof_undefined parent); [ag |].
  apply agrees_bind; [ro | ag |]. intros [|] Hinst; [| ag].
  destruct (get_prop_data k (VObj l) "parent" w) as [E _]; try discriminate.
  rewrite E in Hparent.
  destruct parent as [| | | | | p]; try discriminate Hinst.
  apply Hfg. unfold parent_loc. now rewrite Hparent, Hinst.
Qed.

Lemma agrees_offset_entry v c :
  agrees w (Frame.offset_entry k f (VObj l) v c) (Frame.offset_entry k' g (VObj l) v c).
Proof.
  pose proof agrees_frame_getParentBounds.
  unfold Frame.offset_entry. ag.
Qed.

Lemma agrees_frame_getOffsetInCanvas :
  agrees w (Frame.getOffsetInCanvas k f (VObj l)) (Frame.getOffsetInCanvas k' g (VObj l)).
Proof.
  pose proof agrees_offset_entry.
  unfold Frame.getOffsetInCanvas. ag.
Qed.

Lemma agrees_anchored axis lo hi o s v :
  axis <> "visible" -> axis <> "_proxied_visible" ->
  agrees w (Frame.anchored k (VObj l) axis lo hi o s v)
           (Frame.anchored k' (VObj l) axis lo hi o s v).
Proof.
  intros H1 H2. unfold Frame.anchored.
  apply agrees_bind; [ro | ag |]. intros anchor _.
  apply agrees_bind; [ro | now apply agrees_get_prop |]. ag.
Qed.

Lemma agrees_frame_adjustPositionForAnchor x y :
  agrees w (Frame.adjustPositionForAnchor k f (VObj l) x y)
           (Frame.adjustPositionForAnchor k' g (VObj l) x y).
Proof.
  pose proof agrees_frame_getParentBounds.
  assert (Hx := fun lo hi o s v =>
            agrees_anchored "x" lo hi o s v ltac:(discriminate) ltac:(discriminate)).
  assert (Hy := fun lo hi o s v =>
            agrees_anchored "y" lo hi o s v ltac:(discriminate) ltac:(discriminate)).
  unfold Frame.adjustPositionForAnchor. ag.
Qed.

Lemma agrees_frame_adjustPositionForPivot x y :
  agrees w (Frame.adjustPositionForPivot k (VObj l) x y)
           (Frame.adjustPositionForPivot k' (VObj l) x y).
Proof. unfold Frame.adjustPositionForPivot. ag. Qed.

Lemma agrees_frame_determinePositionInCanvas :
  agrees w (Frame.determinePositionInCanvas k f (VObj l))
           (Frame.determinePositionInCanvas k' g (VObj l)).
Proof.
  pose proof agrees_frame_getParentBounds.
  pose proof agrees_frame_getOffsetInCanvas.
  pose proof agrees_frame_adjustPositionForAnchor.
  pose proof agrees_frame_adjustPositionForPivot.
  unfold Frame.determinePositionInCanvas. ag.
Qed.

Lemma agrees_frame_determineDimensionsInCanvas :
  agrees w (Frame.determineDimensionsInCanvas k f (VObj l))
           (Frame.determineDimensionsInCanvas k' g (VObj l)).
Proof.
  pose proof agrees_frame_getParentBounds.
  pose proof agrees_frame_getOffsetInCanvas.
  unfold Frame.determineDimensionsInCanvas. ag.
Qed.

Lemma agrees_frame_getBounds :
  agrees w (Frame.getBounds k f (VObj l)) (Frame.getBounds k' g (VObj l)).
Proof.
  pose proof agrees_frame_determinePositionInCanvas.
  pose proof agrees_frame_determineDimensionsInCanvas.
  unfold Frame.getBounds. ag.
Qed.

End Frame_agreement.

(** Past the length of the chain of parents, more call stack changes
    nothing: [getBounds] comes back, with the same outcome. *)
Lemma getBounds_stable w d : forall l n,
  chain_ends d w l = true -> d < n ->
  agrees w (DisplayObject.getBounds n (VObj l)) (DisplayObject.getBounds (S d) (VObj l)).
Proof.
  induction d as [| d IH]; intros l n Hd Hn;
    (destruct n as [| n]; [lia |]); cbn [DisplayObject.getBounds];
    apply agrees_frame_getBounds; try solve [ro];
    intros p Hp; cbn [chain_ends] in Hd; rewrite Hp in Hd; [discriminate |].
  apply IH; [assumption | lia].
Qed.

(** ** Bounds resolution: cycles and repeated calls *)

(** C1 (as amended): the code has no cycle guard and no [CyclicParentError].
    On a node whose chain of parents runs into a cycle (node [c], reached
    after [j] steps, is its own [k]-th parent), with [stretch] readable on
    the nodes of the chain, [getBounds] raises nothing: whatever the call
    stack [n], the recursion [getBounds -> getParentBounds ->
    parent.getBounds] uses it up, and the world is left as it was. *)
Theorem getBounds_cyclic_chain_exhausts_stack w l j k c :
  0 < k ->
  nth_parent w j l = Some c ->
  nth_parent w k c = Some c ->
  chain_readable w l (j + k) = true ->
  forall n, DisplayObject.getBounds n (VObj l) w = (Diverge, w).
Proof.
  intros Hk Hj Hc Hr n.
  apply getBounds_unbounded. now apply (cycle_unbounded w l j k c).
Qed.

Lemma getBounds_cyclic_chain_exhausts_stack_witness :
  (0 < 2 /\
   nth_parent Examples.cyclic 0 0 = Some 0 /\
   nth_parent Examples.cyclic 2 0 = Some 0 /\
   chain_readable Examples.cyclic 0 (0 + 2) = true) /\
  forall n, DisplayObject.getBounds n (VObj 0) Examples.cyclic = (Diverge, Examples.cyclic).
Proof.
  assert (H1 : nth_parent Examples.cyclic 0 0 = Some 0) by (vm_compute; reflexivity).
  assert (H2 : nth_parent Examples.cyclic 2 0 = Some 0) by (vm_compute; reflexivity).
  assert (H3 : chain_readable Examples.cyclic 0 (0 + 2) = true) by (vm_compute; reflexivity).
  split; [split; [lia | split; [assumption | split; assumption]] |].
  apply (getBounds_cyclic_chain_exhausts_stack Examples.cyclic 0 0 2 0);
    [lia | assumption ..].
Defined.

(** C1, the claim as stated fails: with [a.parent = b] and [b.parent = a],
    node [a] is its own second parent, and [getBounds] on [a] throws no
    exception at all, with any call stack. *)
Lemma getBounds_cycle_raises_nothing :
  nth_parent Examples.cyclic 2 0 = Some 0 /\
  ~ (exists n e, fst (DisplayObject.getBounds n (VObj 0) Examples.cyclic) = Throw e).
Proof.
  assert (H2 : nth_parent Examples.cyclic 2 0 = Some 0) by (vm_compute; reflexivity).
  split; [assumption |]. intros (n & e & H).
  rewrite (getBounds_unbounded Examples.cyclic n 0) in H; [discriminate |].
  apply (cycle_unbounded Examples.cyclic 0 0 2 0);
    [lia | reflexivity | exact H2 | vm_compute; reflexivity].
Qed.

(** C8: on a node whose chain of parents ends (within [d] steps), a call of
    [getBounds] with enough call stack comes back (with bounds or with an
    exception), leaves the world exactly as it was, and a second call right
    after it gives the identical outcome; the outcome is the same in every
    world with the same heap, host and logical canvas size, so it depends on
    no other state. *)
Theorem getBounds_idempotent w l d n m :
  chain_ends d w l = true -> d < n -> d < m ->
  forall r1 w1,
    DisplayObject.getBounds n (VObj l) w = (r1, w1) ->
    w1 = w /\ r1 <> Diverge /\
    DisplayObject.getBounds m (VObj l) w1 = (r1, w1) /\
    forall w2, same_layout w2 w -> DisplayObject.getBounds n (VObj l) w2 = (r1, w2).
Proof.
  intros Hd Hn Hm r1 w1 H1.
  destruct (getBounds_stable w d l n Hd Hn) as [En Dn].
  destruct (getBounds_stable w d l m Hd Hm) as [Em Dm].
  assert (Hw : w1 = w).
  { pose proof (reader_readonly _ (reader_getBounds n (VObj l)) w) as R.
    now rewrite H1 in R. }
  subst w1. rewrite H1 in Dn. simpl in Dn.
  repeat split; try assumption.
  - congruence.
  - intros w2 Hs. rewrite (reader_getBounds n (VObj l) w2 w Hs). now rewrite H1.
Qed.

Lemma getBounds_idempotent_witness :
  (chain_ends 1 Examples.nested 5 = true /\ 1 < 2 /\ 1 < 7) /\
  DisplayObject.getBounds 7 (VObj 5) Examples.nested =
    (Ret (Bounds.mk 100 40 190 40), Examples.nested).
Proof.
  assert (H : chain_ends 1 Examples.nested 5 = true) by (vm_compute; reflexivity).
  split; [split; [assumption | split; lia] |].
  assert (E : DisplayObject.getBounds 2 (VObj 5) Examples.nested =
              (Ret (Bounds.mk 100 40 190 40), Examples.nested))
    by (vm_compute; reflexivity).
  destruct (getBounds_idempotent Examples.nested 5 1 2 7 H ltac:(lia) ltac:(lia) _ _ E)
    as (_ & _ & E2 & _).
  exact E2.
Defined.

(** ** Bounds resolution on a node whose properties are known *)

Lemma read_offset_inv this w vl vt vr vb :
  fst (read_offset this w) = Ret (vl, vt, vr, vb) ->
  exists offset,
    fst (get_prop 0 this "offset" w) = Ret offset /\
    fst (get_prop 0 offset "left" w) = Ret vl /\
    fst (get_prop 0 offset "top" w) = Ret vt /\
    fst (get_prop 0 offset "right" w) = Ret vr /\
    fst (get_prop 0 offset "bottom" w) = Ret vb.
Proof.
  unfold read_offset. intros H.
  rewrite bind_ro in H by ro.
  destruct (fst (get_prop 0 this "offset" w)) as [o | |] eqn:Eo; try discriminate.
  rewrite bind_ro in H by ro.
  destruct (fst (get_prop 0 o "left" w)) as [a | |] eqn:Ea; try discriminate.
  rewrite bind_ro in H by ro.
  destruct (fst (get_prop 0 o "top" w)) as [b | |] eqn:Eb; try discriminate.
  rewrite bind_ro in H by ro.
  destruct (fst (get_prop 0 o "right" w)) as [c | |] eqn:Ec; try discriminate.
  rewrite bind_ro in H by ro.
  destruct (fst (get_prop 0 o "bottom" w)) as [d | |] eqn:Ed; try discriminate.
  injection H as -> -> -> ->. exists o. auto.
Qed.

Lemma reader_read_offset this : reader (read_offset this).
Proof. unfold read_offset. ro. Qed.
#[global] Hint Resolve reader_read_offset : ro.

Section Offsets.
Variables (n : nat) (this : jsval) (w : World).
Variables (vl vt vr vb : jsval) (pb : Bounds.t) (l t r b : float).
Hypothesis Hoff : fst (read_offset this w) = Ret (vl, vt, vr, vb).
Hypothesis Hpb :
  forallb typeof_number [vl; vt; vr; vb] = false ->
  fst (DisplayObject.getParentBounds n this w) = Ret pb.
Hypothesis Hl : spec_edge (Bounds.width pb) vl = Some l.
Hypothesis Ht : spec_edge (Bounds.width pb) vt = Some t.
Hypothesis Hr : spec_edge (Bounds.width pb) vr = Some r.
Hypothesis Hb : spec_edge (Bounds.width pb) vb = Some b.

(** one key of the loop: the value the specification gives, and the lazily
    fetched parent bounds are the parent's or still missing *)
Lemma offset_entry_spec v e cache :
  In v [vl; vt; vr; vb] ->
  cache = None \/ cache = Some pb ->
  spec_edge (Bounds.width pb) v = Some e ->
  exists cache',
    Frame.offset_entry n (DisplayObject.getBounds n) this v cache w = (Ret (e, cache'), w) /\
    (cache' = None \/ cache' = Some pb).
Proof.
  intros Hin Hc He.
  assert (Hp : typeof_number v = false ->
               Frame.getParentBounds n (DisplayObject.getBounds n) this w = (Ret pb, w)).
  { intros Hv. apply ro_eq; [ro |]. apply Hpb.
    simpl in Hin. cbn [forallb].
    destruct Hin as [<- | [<- | [<- | [<- | []]]]]; rewrite Hv;
      now rewrite ?andb_false_r. }
  unfold Frame.offset_entry.
  destruct v as [| | | f | s |]; try discriminate He.
  - injection He as ->. exists cache. now split.
  - simpl in He. destruct (percent_match s) as [d |] eqn:Ed; [| discriminate].
    injection He as <-. exists (Some pb). split; [| now right].
    destruct Hc as [-> | ->].
    + rewrite (bind_Ret _ _ _ _ _ (Hp eq_refl)).
      unfold Frame.percent_capture. rewrite Ed. reflexivity.
    + rewrite bind_ret_l. unfold Frame.percent_capture. rewrite Ed. reflexivity.
Qed.

Lemma getOffsetInCanvas_spec :
  DisplayObject.getOffsetInCanvas n this w = (Ret (Offset.mk l t r b), w).
Proof.
  destruct (read_offset_inv _ _ _ _ _ _ Hoff) as (o & Ho & Hvl & Hvt & Hvr & Hvb).
  unfold DisplayObject.getOffsetInCanvas, Frame.getOffsetInCanvas.
  rewrite (bind_Ret _ _ _ _ _ (get_prop_from_0 n _ _ _ _ Ho)).
  rewrite (bind_Ret _ _ _ _ _ (get_prop_from_0 n _ _ _ _ Hvl)).
  rewrite (bind_Ret _ _ _ _ _ (get_prop_from_0 n _ _ _ _ Hvt)).
  rewrite (bind_Ret _ _ _ _ _ (get_prop_from_0 n _ _ _ _ Hvr)).
  rewrite (bind_Ret _ _ _ _ _ (get_prop_from_0 n _ _ _ _ Hvb)).
  destruct (offset_entry_spec vl l None) as (c1 & E1 & C1); simpl; auto.
  rewrite (bind_Ret _ _ _ _ _ E1). cbn [fst snd].
  destruct (offset_entry_spec vt t c1) as (c2 & E2 & C2); simpl; auto.
  rewrite (bind_Ret _ _ _ _ _ E2). cbn [fst snd].
  destruct (offset_entry_spec vr r c2) as (c3 & E3 & C3); simpl; auto.
  rewrite (bind_Ret _ _ _ _ _ E3). cbn [fst snd].
  destruct (offset_entry_spec vb b c3) as (c4 & E4 & C4); simpl; auto 6.
  rewrite (bind_Ret _ _ _ _ _ E4). reflexivity.
Qed.

End Offsets.

Lemma read_fields_inv this w fs :
  fst (read_fields this w) = Ret fs ->
  (exists stretch anchor pivot,
     fst (get_prop 0 this "x" w) = Ret (f_x fs) /\
     fst (get_prop 0 this "y" w) = Ret (f_y fs) /\
     fst (get_prop 0 this "width" w) = Ret (f_width fs) /\
     fst (get_prop 0 this "height" w) = Ret (f_height fs) /\
     fst (get_prop 0 this "stretch" w) = Ret stretch /\
     fst (get_prop 0 stretch "x" w) = Ret (f_stretch_x fs) /\
     fst (get_prop 0 stretch "y" w) = Ret (f_stretch_y fs) /\
     fst (get_prop 0 this "anchor" w) = Ret anchor /\
     fst (get_prop 0 anchor "x" w) = Ret (f_anchor_x fs) /\
     fst (get_prop 0 anchor "y" w) = Ret (f_anchor_y fs) /\
     fst (get_prop 0 this "pivot" w) = Ret pivot /\
     fst (get_prop 0 pivot "x" w) = Ret (f_pivot_x fs) /\
     fst (get_prop 0 pivot "y" w) = Ret (f_pivot_y fs)) /\
  fst (read_offset this w) = Ret (f_left fs, f_top fs, f_right fs, f_bottom fs).
Proof.
  unfold read_fields. intros H.
  repeat (rewrite bind_ro in H by ro;
          match type of H with
          | context [fst (get_prop 0 ?v ?name w)] =>
              let E := fresh "E" in
              destruct (fst (get_prop 0 v name w)) eqn:E; try discriminate H
          end).
  rewrite bind_ro in H by ro.
  destruct (fst (read_offset this w)) as [[[[vl vt] vr] vb] | |] eqn:Eo;
    try discriminate H.
  injection H as <-. cbn.
  split; [| reflexivity]. eexists _, _, _. repeat split; eassumption.
Qed.

Section Node.
Variables (n : nat) (this : jsval) (w : World).
Variables (fs : Fields) (pb : Bounds.t) (l t r b : float).
Hypothesis Hfs : fst (read_fields this w) = Ret fs.
Hypothesis Hpb : fst (DisplayObject.getParentBounds n this w) = Ret pb.
Hypothesis Hl : spec_edge (Bounds.width pb) (f_left fs) = Some l.
Hypothesis Ht : spec_edge (Bounds.width pb) (f_top fs) = Some t.
Hypothesis Hr : spec_edge (Bounds.width pb) (f_right fs) = Some r.
Hypothesis Hb : spec_edge (Bounds.width pb) (f_bottom fs) = Some b.

Let num : jsval -> float := to_number (StringToNumber (host w)).
Let sx : bool := to_boolean (f_stretch_x fs).
Let sy : bool := to_boolean (f_stretch_y fs).

Lemma node_getParentBounds :
  Frame.getParentBounds n (DisplayObject.getBounds n) this w = (Ret pb, w).
Proof. apply ro_eq; [ro | exact Hpb]. Qed.

Lemma node_getOffsetInCanvas :
  Frame.getOffsetInCanvas n (DisplayObject.getBounds n) this w = (Ret (Offset.mk l t r b), w).
Proof.
  destruct (read_fields_inv _ _ _ Hfs) as [_ Ho].
  now apply (getOffsetInCanvas_spec n this w (f_left fs) (f_top fs) (f_right fs)
               (f_bottom fs) pb).
Qed.

Lemma node_adjustPositionForPivot x y :
  Frame.adjustPositionForPivot n this x y w =
  (Ret (Position.mk (x - num (f_width fs) * num (f_pivot_x fs))%float
                    (y - num (f_height fs) * num (f_pivot_y fs))%float), w).
Proof.
  destruct (read_fields_inv _ _ _ Hfs)
    as [(st & an & pv & Hx & Hy & Hw & Hh & Hst & Hsx & Hsy & Han & Hax & Hay & Hpv & Hpx & Hpy) _].
  unfold Frame.adjustPositionForPivot.
  rewrite (bind_Ret _ _ _ _ _ (get_prop_from_0 n _ _ _ _ Hw)).
  rewrite (bind_Ret _ _ _ _ _ (get_prop_from_0 n _ _ _ _ Hpv)).
  rewrite (bind_Ret _ _ _ _ _ (get_prop_from_0 n _ _ _ _ Hpx)).
  rewrite (bind_Ret _ _ _ _ _ (get_prop_from_0 n _ _ _ _ Hh)).
  rewrite (bind_Ret _ _ _ _ _ (get_prop_from_0 n _ _ _ _ Hpy)).
  reflexivity.
Qed.

Lemma node_anchored axis lo hi o s v a anchor :
  fst (get_prop 0 this "anchor" w) = Ret anchor ->
  fst (get_prop 0 anchor axis w) = Ret a ->
  exists v', Frame.anchored n this axis lo hi o s v w = (Ret v', w).
Proof.
  intros Han Ha. unfold Frame.anchored.
  rewrite (bind_Ret _ _ _ _ _ (get_prop_from_0 n _ _ _ _ Han)).
  rewrite (bind_Ret _ _ _ _ _ (get_prop_from_0 n _ _ _ _ Ha)).
  destruct (strict_eq a lo); [eexists; reflexivity |].
  destruct (strict_eq a hi); [eexists; reflexivity |].
  destruct (strict_eq a anchors.center); eexists; reflexivity.
Qed.

(** a stretched axis goes through [adjustPositionForAnchor] untouched *)
Lemma node_adjustPositionForAnchor x y :
  exists p,
    Frame.adjustPositionForAnchor n (DisplayObject.getBounds n) this x y w = (Ret p, w) /\
    (sx = true -> Position.x p = x) /\ (sy = true -> Position.y p = y).
Proof.
  destruct (read_fields_inv _ _ _ Hfs)
    as [(st & an & pv & Hx & Hy & Hw & Hh & Hst & Hsx & Hsy & Han & Hax & Hay & Hpv & Hpx & Hpy) _].
  unfold Frame.adjustPositionForAnchor.
  rewrite (bind_Ret _ _ _ _ _ node_getParentBounds).
  rewrite (bind_Ret _ _ _ _ _ (get_prop_from_0 n _ _ _ _ Hst)).
  rewrite (bind_Ret _ _ _ _ _ (get_prop_from_0 n _ _ _ _ Hsx)).
  destruct (node_anchored "x" anchors.left anchors.right
              (Bounds.x pb) (Bounds.width pb) x _ _ Han Hax) as [x' Ex].
  destruct (node_anchored "y" anchors.top anchors.bottom
              (Bounds.y pb) (Bounds.height pb) y _ _ Han Hay) as [y' Ey].
  subst sx sy.
  destruct (to_boolean (f_stretch_x fs)); cbn [negb];
    [rewrite bind_ret_l | rewrite (bind_Ret _ _ _ _ _ Ex)];
    rewrite (bind_Ret _ _ _ _ _ (get_prop_from_0 n _ _ _ _ Hsy));
    (destruct (to_boolean (f_stretch_y fs)); cbn [negb];
     [rewrite bind_ret_l | rewrite (bind_Ret _ _ _ _ _ Ey)]);
    eexists; (split; [reflexivity | split; intros; (reflexivity || discriminate)]).
Qed.

Lemma node_determinePositionInCanvas :
  exists p,
    Frame.determinePositionInCanvas n (DisplayObject.getBounds n) this w = (Ret p, w) /\
    (sx = true ->
     Position.x p = (Bounds.x pb + l - num (f_width fs) * num (f_pivot_x fs))%float) /\
    (sy = true ->
     Position.y p = (Bounds.y pb + t - num (f_height fs) * num (f_pivot_y fs))%float).
Proof.
  destruct (read_fields_inv _ _ _ Hfs)
    as [(st & an & pv & Hx & Hy & Hw & Hh & Hst & Hsx & Hsy & Han & Hax & Hay & Hpv & Hpx & Hpy) _].
  unfold Frame.determinePositionInCanvas.
  rewrite (bind_Ret _ _ _ _ _ (get_prop_from_0 n _ _ _ _ Hx)).
  rewrite (bind_Ret _ _ _ _ _ (get_prop_from_0 n _ _ _ _ Hy)).
  rewrite (bind_Ret _ _ _ _ _ (get_prop_from_0 n _ _ _ _ Hst)).
  rewrite (bind_Ret _ _ _ _ _ (get_prop_from_0 n _ _ _ _ Hsx)).
  rewrite (bind_Ret _ _ _ _ _ (get_prop_from_0 n _ _ _ _ Hsy)).
  fold sx sy.
  set (pos := Position.mk
                (if sx then (Bounds.x pb + l)%float else number_or_zero (f_x fs))
                (if sy then (Bounds.y pb + t)%float else number_or_zero (f_y fs))).
  assert (E : (if sx || sy
               then do parentBounds <- Frame.getParentBounds n (DisplayObject.getBounds n) this;
                    do offset <- Frame.getOffsetInCanvas n (DisplayObject.getBounds n) this;
                    ret (Position.mk
                           (if sx then (Bounds.x parentBounds + Offset.left offset)%float
                            else number_or_zero (f_x fs))
                           (if sy then (Bounds.y parentBounds + Offset.top offset)%float
                            else number_or_zero (f_y fs)))
               else ret (Position.mk (number_or_zero (f_x fs)) (number_or_zero (f_y fs)))) w
              = (Ret pos, w)).
  { destruct (sx || sy) eqn:Es.
    - rewrite (bind_Ret _ _ _ _ _ node_getParentBounds).
      rewrite (bind_Ret _ _ _ _ _ node_getOffsetInCanvas). reflexivity.
    - apply orb_false_elim in Es as [Ex Ey]. subst pos. now rewrite Ex, Ey. }
  rewrite (bind_Ret _ _ _ _ _ E).
  destruct (node_adjustPositionForAnchor (Position.x pos) (Position.y pos))
    as (p & Ep & Hpx' & Hpy').
  rewrite (bind_Ret _ _ _ _ _ Ep), node_adjustPositionForPivot.
  eexists. split; [reflexivity |].
  split; intros Hs; cbn [Position.x Position.y];
    [rewrite (Hpx' Hs) | rewrite (Hpy' Hs)]; subst pos; cbn; now rewrite Hs.
Qed.

Lemma node_determineDimensionsInCanvas :
  exists d,
    Frame.determineDimensionsInCanvas n (DisplayObject.getBounds n) this w = (Ret d, w) /\
    (sx = true -> Dimensions.width d = (Bounds.width pb - l - r)%float) /\
    (sy = true -> Dimensions.height d = (Bounds.height pb - t - b)%float).
Proof.
  destruct (read_fields_inv _ _ _ Hfs)
    as [(st & an & pv & Hx & Hy & Hw & Hh & Hst & Hsx & Hsy & Han & Hax & Hay & Hpv & Hpx & Hpy) _].
  unfold Frame.determineDimensionsInCanvas.
  rewrite (bind_Ret _ _ _ _ _ (get_prop_from_0 n _ _ _ _ Hw)).
  rewrite (bind_Ret _ _ _ _ _ (get_prop_from_0 n _ _ _ _ Hh)).
  rewrite (bind_Ret _ _ _ _ _ (get_prop_from_0 n _ _ _ _ Hst)).
  rewrite (bind_Ret _ _ _ _ _ (get_prop_from_0 n _ _ _ _ Hsx)).
  rewrite (bind_Ret _ _ _ _ _ (get_prop_from_0 n _ _ _ _ Hsy)).
  fold sx sy.
  destruct (sx || sy) eqn:Es.
  - rewrite (bind_Ret _ _ _ _ _ node_getParentBounds).
    rewrite (bind_Ret _ _ _ _ _ node_getOffsetInCanvas).
    eexists. split; [reflexivity |]. split; intros ->; reflexivity.
  - apply orb_false_elim in Es as [Ex Ey].
    eexists. split; [reflexivity |]. split; intros; congruence.
Qed.

(** The bounds of a node whose properties are [fs], under a parent with
    bounds [pb]: on a stretched axis they are the parent's, cut by the
    offsets, and moved by the pivot share of the raw size. *)
Lemma node_getBounds :
  exists bounds,
    DisplayObject.getBounds (S n) this w = (Ret bounds, w) /\
    (sx = true ->
     Bounds.width bounds = (Bounds.width pb - l - r)%float /\
     Bounds.x bounds = (Bounds.x pb + l - num (f_width fs) * num (f_pivot_x fs))%float) /\
    (sy = true ->
     Bounds.height bounds = (Bounds.height pb - t - b)%float /\
     Bounds.y bounds = (Bounds.y pb + t - num (f_height fs) * num (f_pivot_y fs))%float).
Proof.
  destruct node_determinePositionInCanvas as (p & Ep & Hx & Hy).
  destruct node_determineDimensionsInCanvas as (d & Ed & Hw & Hh).
  cbn [DisplayObject.getBounds]. unfold Frame.getBounds.
  rewrite (bind_Ret _ _ _ _ _ Ep), (bind_Ret _ _ _ _ _ Ed).
  eexists. split; [reflexivity |]. cbn. split; intros Hs; auto.
Qed.

End Node.

Lemma getParentBounds_root n this w :
  fst (get_prop 0 this "parent" w) = Ret VUndef ->
  DisplayObject.getParentBounds n this w =
  (Ret (Bounds.mk 0 0 (ui_width (ui w)) (ui_height (ui w))), w).
Proof.
  intros H. unfold DisplayObject.getParentBounds, Frame.getParentBounds.
  now rewrite (bind_Ret _ _ _ _ _ (get_prop_from_0 n _ _ _ _ H)).
Qed.

(** ** Offsets, stretch, and the full-canvas scenario *)

(** C4: each of the four offset edges of a node resolves as the
    specification says ([spec_edge]): a number passes through unchanged and
    a percentage string [p%] becomes [p / 100] times the WIDTH of the
    parent's resolved bounds, for left, top, right and bottom alike (the
    parent's height is never used).  The parent's bounds are only needed
    when some edge is not a number. *)
Theorem offsets_resolve_against_parent_width n this w vl vt vr vb pb l t r b :
  fst (read_offset this w) = Ret (vl, vt, vr, vb) ->
  (forallb typeof_number [vl; vt; vr; vb] = false ->
   fst (DisplayObject.getParentBounds n this w) = Ret pb) ->
  spec_edge (Bounds.width pb) vl = Some l ->
  spec_edge (Bounds.width pb) vt = Some t ->
  spec_edge (Bounds.width pb) vr = Some r ->
  spec_edge (Bounds.width pb) vb = Some b ->
  DisplayObject.getOffsetInCanvas n this w = (Ret (Offset.mk l t r b), w).
Proof. intros. now apply (getOffsetInCanvas_spec n this w vl vt vr vb pb). Qed.

Lemma offsets_resolve_against_parent_width_witness :
  DisplayObject.getOffsetInCanvas 1 (VObj 0) Examples.percent =
  (Ret (Offset.mk 10 640 128 320), Examples.percent).
Proof.
  apply (offsets_resolve_against_parent_width 1 (VObj 0) Examples.percent
           (VNum 10) (VStr "50%") (VStr "10%") (VStr "25%") (Bounds.mk 0 0 1280 720));
    try (intros _); vm_compute; reflexivity.
Defined.

(** C5: on a node whose properties are [fs], with parent bounds [pb] and
    offsets resolving to [l], [t], [r], [b], [getBounds] returns bounds
    such that on a stretched x axis the width is the parent's width minus
    the left and right offsets, and x is the parent's x plus the left offset
    (then moved by the pivot share of the raw width); likewise for a
    stretched y axis with top and bottom.  Raw position, raw size and anchor
    of that axis do not enter.  With [offset.right = "50%"] the width is
    [W - left - 0.5 * W]. *)
Theorem stretched_axis_bounds n this w fs pb l t r b :
  fst (read_fields this w) = Ret fs ->
  fst (DisplayObject.getParentBounds n this w) = Ret pb ->
  spec_edge (Bounds.width pb) (f_left fs) = Some l ->
  spec_edge (Bounds.width pb) (f_top fs) = Some t ->
  spec_edge (Bounds.width pb) (f_right fs) = Some r ->
  spec_edge (Bounds.width pb) (f_bottom fs) = Some b ->
  exists bounds,
    DisplayObject.getBounds (S n) this w = (Ret bounds, w) /\
    (to_boolean (f_stretch_x fs) = true ->
     Bounds.width bounds = (Bounds.width pb - l - r)%float /\
     Bounds.x bounds =
       (Bounds.x pb + l -
        to_number (StringToNumber (host w)) (f_width fs) *
        to_number (StringToNumber (host w)) (f_pivot_x fs))%float /\
     (f_right fs = VStr "50%" ->
      Bounds.width bounds = (Bounds.width pb - l - 0.5 * Bounds.width pb)%float)) /\
    (to_boolean (f_stretch_y fs) = true ->
     Bounds.height bounds = (Bounds.height pb - t - b)%float /\
     Bounds.y bounds =
       (Bounds.y pb + t -
        to_number (StringToNumber (host w)) (f_height fs) *
        to_number (StringToNumber (host w)) (f_pivot_y fs))%float).
Proof.
  intros Hfs Hpb Hl Ht Hr Hb.
  destruct (node_getBounds n this w fs pb l t r b Hfs Hpb Hl Ht Hr Hb)
    as (bounds & E & Hx & Hy).
  exists bounds. split; [assumption |]. split; [| assumption].
  intros Hs. destruct (Hx Hs) as [Hw Hxx]. repeat split; try assumption.
  intros E50. rewrite E50 in Hr. rewrite Hw.
  assert (E' : spec_edge (Bounds.width pb) (VStr "50%")
               = Some (0.5 * Bounds.width pb)%float) by (vm_compute; reflexivity).
  rewrite E' in Hr. now injection Hr as <-.
Qed.

Lemma stretched_axis_bounds_witness :
  exists bounds,
    DisplayObject.getBounds 2 (VObj 5) Examples.nested = (Ret bounds, Examples.nested) /\
    Bounds.width bounds = (400 - 10 - 0.5 * 400)%float /\
    Bounds.x bounds = (100 + 10 - 20 * 0.5)%float.
Proof.
  destruct (stretched_axis_bounds 1 (VObj 5) Examples.nested
              (mkFields (VNum 10) (VNum 10) (VNum 20) (VNum 40)
                 (VBool true) (VBool false) anchors.left anchors.top
                 (VNum 0.5) (VNum 0.5) (VNum 10) (VNum 0) (VStr "50%") (VNum 0))
              (Bounds.mk 100 50 400 300) 10 0 200 0)
    as (bounds & E & Hx & _); try (vm_compute; reflexivity).
  exists bounds. split; [exact E |].
  destruct (Hx eq_refl) as (Hw & Hxx & H50). split.
  - exact (H50 eq_refl).
  - exact Hxx.
Defined.

(** C7 (as amended): a UI constructed with logical height 720 over a
    1280x720 host surface has logical width 1280; and in a world with this
    canvas size, a node without parent, stretched on both axes, with all
    four offsets 0, has bounds of the full canvas size 1280x720 whose origin
    is moved by the pivot adjustment: x = 0 - width * pivot.x and
    y = 0 - height * pivot.y, on the node's raw width and height.  The
    bounds are exactly the full rectangle when both products are 0 (pivot
    (0, 0), or raw size 0). *)
Theorem full_canvas_stretch h renderOnQuad n this w fs :
  gameCanvas_width h = 1280%float -> gameCanvas_height h = 720%float ->
  ui_width (ui w) = ui_width (ui (ThreeUI.construct h (Some 720%float) renderOnQuad)) ->
  ui_height (ui w) = ui_height (ui (ThreeUI.construct h (Some 720%float) renderOnQuad)) ->
  fst (read_fields this w) = Ret fs ->
  fst (get_prop 0 this "parent" w) = Ret VUndef ->
  to_boolean (f_stretch_x fs) = true -> to_boolean (f_stretch_y fs) = true ->
  f_left fs = VNum 0 -> f_top fs = VNum 0 -> f_right fs = VNum 0 -> f_bottom fs = VNum 0 ->
  ui_width (ui (ThreeUI.construct h (Some 720%float) renderOnQuad)) = 1280%float /\
  DisplayObject.getBounds (S n) this w =
    (Ret (Bounds.mk
            (0 - to_number (StringToNumber (host w)) (f_width fs) *
                 to_number (StringToNumber (host w)) (f_pivot_x fs))
            (0 - to_number (StringToNumber (host w)) (f_height fs) *
                 to_number (StringToNumber (host w)) (f_pivot_y fs))
            1280 720), w) /\
  ((to_number (StringToNumber (host w)) (f_width fs) *
    to_number (StringToNumber (host w)) (f_pivot_x fs) = 0)%float ->
   (to_number (StringToNumber (host w)) (f_height fs) *
    to_number (StringToNumber (host w)) (f_pivot_y fs) = 0)%float ->
   DisplayObject.getBounds (S n) this w = (Ret (Bounds.mk 0 0 1280 720), w)).
Proof.
  intros Hgw Hgh Hw Hh Hfs Hpar Hsx Hsy Hl Ht Hr Hb.
  assert (Ewidth : ui_width (ui (ThreeUI.construct h (Some 720%float) renderOnQuad))
                   = 1280%float).
  { cbn. rewrite Hgw, Hgh. vm_compute. reflexivity. }
  assert (Eheight : ui_height (ui (ThreeUI.construct h (Some 720%float) renderOnQuad))
                    = 720%float) by (vm_compute; reflexivity).
  rewrite Ewidth in Hw. rewrite Eheight in Hh.
  pose proof (getParentBounds_root n this w Hpar) as Hpb.
  rewrite Hw, Hh in Hpb.
  destruct (node_getBounds n this w fs (Bounds.mk 0 0 1280 720) 0 0 0 0 Hfs)
    as (bounds & E & Hx & Hy);
    try (rewrite ?Hl, ?Ht, ?Hr, ?Hb; reflexivity).
  { now rewrite Hpb. }
  destruct (Hx Hsx) as [Ew Ex]. destruct (Hy Hsy) as [Eh Ey].
  cbn [Bounds.x Bounds.y Bounds.width Bounds.height] in *.
  assert (Eb : bounds =
    Bounds.mk
      (0 - to_number (StringToNumber (host w)) (f_width fs) *
           to_number (StringToNumber (host w)) (f_pivot_x fs))
      (0 - to_number (StringToNumber (host w)) (f_height fs) *
           to_number (StringToNumber (host w)) (f_pivot_y fs))
      1280 720).
  { destruct bounds as [bx by_ bw bh]. cbn in *. subst. reflexivity. }
  subst bounds. repeat split; try assumption.
  intros Hx0 Hy0. rewrite Hx0, Hy0 in E. exact E.
Qed.

Lemma full_canvas_stretch_witness :
  ui_width (ui Examples.fresh) = 1280%float /\
  DisplayObject.getBounds 1 (VObj 0) Examples.stretched_unpivoted =
    (Ret (Bounds.mk 0 0 1280 720), Examples.stretched_unpivoted).
Proof.
  destruct (full_canvas_stretch Examples.host false 0 (VObj 0)
              Examples.stretched_unpivoted
              (mkFields (VNum 0) (VNum 0) (VNum 1) (VNum 1)
                 (VBool true) (VBool true) anchors.left anchors.top
                 (VNum 0) (VNum 0) (VNum 0) (VNum 0) (VNum 0) (VNum 0)))
    as (Hw & _ & Hfull); try (vm_compute; reflexivity).
  split; [exact Hw |]. apply Hfull; vm_compute; reflexivity.
Defined.

(** C7, the claim as stated fails: a rectangle made by the factory with its
    defaults (raw size 1x1, pivot (0.5, 0.5), no parent), stretched on both
    axes with all offsets 0 on the 1280x720 canvas, has bounds
    (-0.5, -0.5, 1280, 720), not the full canvas rectangle. *)
Lemma full_canvas_stretch_default_pivot :
  fst (read_fields (VObj 0) Examples.stretched) =
    Ret (mkFields (VNum 0) (VNum 0) (VNum 1) (VNum 1)
           (VBool true) (VBool true) anchors.left anchors.top
           (VNum 0.5) (VNum 0.5) (VNum 0) (VNum 0) (VNum 0) (VNum 0)) /\
  fst (get_prop 0 (VObj 0) "parent" Examples.stretched) = Ret VUndef /\
  fst (DisplayObject.getBounds 1 (VObj 0) Examples.stretched) =
    Ret (Bounds.mk (-0.5) (-0.5) 1280 720) /\
  fst (DisplayObject.getBounds 1 (VObj 0) Examples.stretched) <>
    Ret (Bounds.mk 0 0 1280 720).
Proof.
  assert (E : fst (DisplayObject.getBounds 1 (VObj 0) Examples.stretched) =
              Ret (Bounds.mk (-0.5) (-0.5) 1280 720)) by (vm_compute; reflexivity).
  split; [vm_compute; reflexivity |].
  split; [vm_compute; reflexivity |].
  split; [exact E |].
  rewrite E. intros H.
  apply (f_equal (fun o => match o with
                           | Ret bounds => PrimFloat.eqb (Bounds.x bounds) 0
                           | _ => false
                           end)) in H.
  vm_compute in H. discriminate.
Qed.

(** ** Drawing: computations that only add calls to the context *)

(** In world [w], whatever calls the context has seen so far, [m] ends
    with outcome [r] after adding the calls [ops], and changes nothing
    else. *)
Definition runs_as {A} (m : M A) (w : World) (r : outcome A) (ops : list ctx_op) : Prop :=
  forall c, m (with_context c w) = (r, with_context (c ++ ops) w).

(** [m] is such a computation in every world, and its calls satisfy [P] *)
Definition emits (P : ctx_op -> Prop) {A} (m : M A) : Prop :=
  forall w, exists r ops, runs_as m w r ops /\ Forall P ops.

Lemma with_context_id w : with_context (context w) w = w.
Proof. now destruct w. Qed.

Lemma with_context_twice c c' w : with_context c (with_context c' w) = with_context c w.
Proof. reflexivity. Qed.

Lemma runs_as_here {A} (m : M A) w r ops :
  runs_as m w r ops -> m w = (r, with_context (context w ++ ops) w).
Proof. intros H. specialize (H (context w)). now rewrite with_context_id in H. Qed.

Lemma runs_as_reader {A} (m : M A) w : reader m -> runs_as m w (fst (m w)) [].
Proof.
  intros H c. rewrite (H _ _ (same_layout_context c w)). now rewrite app_nil_r.
Qed.

Lemma runs_as_ctx_call op w : runs_as (ctx_call op) w (Ret tt) [op].
Proof. now intros c. Qed.

Lemma runs_as_bind {A B} (m : M A) (k : A -> M B) w a o1 r o2 :
  runs_as m w (Ret a) o1 -> runs_as (k a) w r o2 -> runs_as (bind m k) w r (o1 ++ o2).
Proof.
  intros H1 H2 c. unfold bind. rewrite H1.
  rewrite (H2 (c ++ o1)). now rewrite app_assoc.
Qed.

Lemma runs_as_bind_stop {A B} (m : M A) (k : A -> M B) w r o1 :
  runs_as m w r o1 -> (forall a, r <> Ret a) ->
  exists r', runs_as (bind m k) w r' o1 /\ forall b, r' <> Ret b.
Proof.
  intros H1 Hr. destruct r as [a | e |].
  - now destruct (Hr a).
  - exists (Throw e). split; [| discriminate]. intros c. unfold bind. now rewrite H1.
  - exists Diverge. split; [| discriminate]. intros c. unfold bind. now rewrite H1.
Qed.

Lemma runs_as_bind_Throw {A B} (m : M A) (k : A -> M B) w e o1 :
  runs_as m w (Throw e) o1 -> runs_as (bind m k) w (Throw e) o1.
Proof. intros H1 c. unfold bind. now rewrite H1. Qed.

Lemma runs_as_bind_Diverge {A B} (m : M A) (k : A -> M B) w o1 :
  runs_as m w Diverge o1 -> runs_as (bind m k) w Diverge o1.
Proof. intros H1 c. unfold bind. now rewrite H1. Qed.

Section Emits.
Variable P : ctx_op -> Prop.

Lemma emits_reader {A} (m : M A) : reader m -> emits P m.
Proof. intros H w. exists (fst (m w)), []. split; [now apply runs_as_reader | constructor]. Qed.

Lemma emits_ctx_call op : P op -> emits P (ctx_call op).
Proof.
  intros H w. exists (Ret tt), [op]. split; [apply runs_as_ctx_call | now repeat constructor].
Qed.

Lemma emits_bind {A B} (m : M A) (k : A -> M B) :
  emits P m -> (forall a, emits P (k a)) -> emits P (bind m k).
Proof.
  intros Hm Hk w. destruct (Hm w) as (r & o1 & H1 & F1).
  destruct r as [a | e |].
  - destruct (Hk a w) as (r2 & o2 & H2 & F2).
    exists r2, (o1 ++ o2). split; [now apply (runs_as_bind m k w a) | now apply Forall_app].
  - destruct (runs_as_bind_stop m k w _ _ H1) as (r' & H' & _); [discriminate | eauto].
  - destruct (runs_as_bind_stop m k w _ _ H1) as (r' & H' & _); [discriminate | eauto].
Qed.

Lemma emits_forEach {A} (f : A -> M unit) (l : list A) :
  (forall a, emits P (f a)) -> emits P (forEach f l).
Proof.
  intros H. induction l as [| a l IH]; simpl.
  - apply emits_reader, reader_ret.
  - apply emits_bind; auto.
Qed.

End Emits.

Ltac em :=
  repeat (intros;
    first
      [ solve [apply emits_reader; ro]
      | solve [apply emits_ctx_call; reflexivity]
      | apply emits_bind
      | apply emits_forEach
      | match goal with
        | |- emits _ (match ?x with _ => _ end) => destruct x
        end ]).

Lemma emits_weaken (P Q : ctx_op -> Prop) {A} (m : M A) :
  (forall op, P op -> Q op) -> emits P m -> emits Q m.
Proof.
  intros HPQ Hm w. destruct (Hm w) as (r & ops & H & F).
  exists r, ops. split; [exact H |]. clear H. induction F; constructor; auto.
Qed.

Lemma runs_as_ctx_calls ops w : runs_as (forEach ctx_call ops) w (Ret tt) ops.
Proof.
  induction ops as [| op ops IH].
  - intros c. cbn. now rewrite app_nil_r.
  - cbn [forEach]. apply (runs_as_bind _ _ w tt [op] (Ret tt) ops).
    + apply runs_as_ctx_call.
    + exact IH.
Qed.

Lemma emits_ctx_calls (P : ctx_op -> Prop) ops :
  Forall P ops -> emits P (forEach ctx_call ops).
Proof. intros F w. exists (Ret tt), ops. split; [apply runs_as_ctx_calls | exact F]. Qed.

(** a read made after calls on the context is the read made before them *)
Lemma bind_reader_at {A B} (m : M A) (k : A -> M B) c w :
  reader m ->
  bind m k (with_context c w) =
  match fst (m w) with
  | Ret a => k a (with_context c w)
  | Throw e => (Throw e, with_context c w)
  | Diverge => (Diverge, with_context c w)
  end.
Proof.
  intros H. unfold bind. rewrite (H _ _ (same_layout_context c w)).
  now destruct (fst (m w)).
Qed.

Lemma bind_ctx_call_at {B} op (k : unit -> M B) c w :
  bind (ctx_call op) k (with_context c w) = k tt (with_context (c ++ [op]) w).
Proof. reflexivity. Qed.

(** *** The draw callbacks *)

(** what a draw callback does to the context: it assigns properties, fills,
    writes and draws images *)
Definition paints (op : ctx_op) : bool :=
  match op with
  | CProperty _ _ | CFillRect _ _ _ _ | CFillText _ _ _ | CDrawImage _ _ => true
  | _ => false
  end.

Definition painted (op : ctx_op) : Prop := paints op = true.

Lemma painted_fill_lines x y mid step : forall lines idx,
  Forall painted (Text.fill_lines x y mid step idx lines).
Proof.
  induction lines as [| l r IH]; intros idx; cbn [Text.fill_lines]; constructor.
  - reflexivity.
  - apply IH.
Qed.

Lemma emits_drawImage image args : emits painted (drawImage image args).
Proof. unfold drawImage. em. Qed.

Ltac pt :=
  repeat (intros;
    first
      [ solve [apply emits_reader; ro]
      | solve [apply emits_ctx_call; reflexivity]
      | solve [apply emits_drawImage]
      | solve [apply emits_ctx_calls, painted_fill_lines]
      | apply emits_bind
      | match goal with
        | |- emits _ (match ?x with _ => _ end) => destruct x
        | |- emits _ (if ?x then _ else _) => destruct x
        end ]).

Lemma emits_Rectangle_draw n this x y wd h : emits painted (Rectangle.draw n this x y wd h).
Proof. unfold Rectangle.draw. pt. Qed.

Lemma emits_Text_draw n this x y : emits painted (Text.draw n this x y).
Proof. unfold Text.draw. pt. Qed.

Lemma emits_Sprite_draw n this x y wd h : emits painted (Sprite.draw n this x y wd h).
Proof. unfold Sprite.draw. pt. Qed.

Lemma emits_drawCharacter n this character x y :
  emits painted (BitmapText.prototype.drawCharacter n this character x y).
Proof. unfold BitmapText.prototype.drawCharacter. pt. Qed.

Lemma emits_draw_from n this k : forall x y i,
  emits painted (BitmapText.prototype.draw_from n this x y i k).
Proof.
  induction k as [| k IH]; intros x y i; cbn [BitmapText.prototype.draw_from].
  - pt.
  - apply emits_bind; [pt |]. intros characters.
    apply emits_bind; [pt |]. intros character.
    apply emits_bind; [apply emits_drawCharacter |]. intros bounds. apply IH.
Qed.

Lemma emits_BitmapText_draw n this x y :
  emits painted (BitmapText.prototype.draw n this x y).
Proof.
  unfold BitmapText.prototype.draw.
  apply emits_bind; [pt |]. intros characters.
  apply emits_bind; [pt |]. intros length.
  apply emits_bind; [pt |]. intros h.
  destruct (BitmapText.prototype.rounds _); [apply emits_draw_from | pt].
Qed.

(** the callback of a node: the mark that it is entered, and what it
    paints *)
Definition called (op : ctx_op) : Prop := is_CDraw op = true \/ painted op.

Lemma emits_draw n this bounds : emits called (DisplayObject.draw n this bounds).
Proof.
  unfold DisplayObject.draw. destruct this; try solve [apply emits_reader; ro].
  apply emits_bind; [apply emits_reader; ro |]. intros o. cbv zeta.
  destruct (cls o); try solve [apply emits_reader; ro];
    (apply emits_bind; [apply emits_ctx_call; now left |]); intros _;
    apply (emits_weaken painted); try (intros op; now right).
  - apply emits_Rectangle_draw.
  - apply emits_Sprite_draw.
  - apply emits_Text_draw.
  - apply emits_BitmapText_draw.
Qed.

(** calls other than the marks of draw callbacks *)
Definition quiet (op : ctx_op) : Prop := is_CDraw op = false.

Lemma painted_quiet op : painted op -> quiet op.
Proof. unfold painted, quiet. now destruct op. Qed.

Lemma filter_quiet ops : Forall quiet ops -> List.filter is_CDraw ops = [].
Proof.
  induction 1 as [| op ops H _ IH]; [reflexivity |].
  simpl. unfold quiet in H. now rewrite H.
Qed.

(** [m] runs in [w] adding calls to the context; the draw callbacks entered
    are [dc], or none when [m] does not return *)
Definition draws (dc : list ctx_op) (m : M unit) (w : World) : Prop :=
  exists r ops,
    runs_as m w r ops /\
    (List.filter is_CDraw ops = dc \/ (r <> Ret tt /\ List.filter is_CDraw ops = [])).

Lemma draws_bind_quiet {A} dc (m : M A) (k : A -> M unit) w :
  emits quiet m -> (forall a, fst (m w) = Ret a -> draws dc (k a) w) ->
  draws dc (bind m k) w.
Proof.
  intros Hm Hk. destruct (Hm w) as (r & o1 & H1 & F1).
  pose proof (runs_as_here _ _ _ _ H1) as E.
  destruct r as [a | e |].
  - destruct (Hk a) as (r2 & o2 & H2 & F2); [now rewrite E |].
    exists r2, (o1 ++ o2). split; [now apply (runs_as_bind m k w a) |].
    now rewrite List.filter_app, (filter_quiet _ F1).
  - destruct (runs_as_bind_stop m k w _ _ H1) as (r' & H' & N); [discriminate |].
    exists r', o1. split; [assumption |]. right. split; [apply N | now apply filter_quiet].
  - destruct (runs_as_bind_stop m k w _ _ H1) as (r' & H' & N); [discriminate |].
    exists r', o1. split; [assumption |]. right. split; [apply N | now apply filter_quiet].
Qed.

Lemma emits_adjustPositionForPivot n this x y :
  emits quiet (DisplayObject.adjustPositionForPivot n this x y).
Proof. apply emits_reader. ro. Qed.

(** a node that reads invisible is skipped: nothing is resolved, nothing is
    drawn, the world stays as it is *)
Lemma render_invisible n this w v :
  fst (get_prop n this "visible" w) = Ret v -> to_boolean v = false ->
  DisplayObject.render n this w = (Ret tt, w).
Proof.
  intros Hv Hf. unfold DisplayObject.render.
  rewrite (bind_Ret _ _ _ _ _ (get_prop_run _ _ _ _ _ Hv)). now rewrite Hf.
Qed.

Lemma draws_throw dc e w : draws dc (throw e) w.
Proof.
  exists (Throw e), []. split; [| right; split; [discriminate | reflexivity]].
  intros c. now rewrite app_nil_r.
Qed.

Lemma draws_ret w : draws [] (ret tt) w.
Proof.
  exists (Ret tt), []. split; [| now left].
  intros c. now rewrite app_nil_r.
Qed.

Lemma draws_ctx_call op w : draws (List.filter is_CDraw [op]) (ctx_call op) w.
Proof. exists (Ret tt), [op]. split; [apply runs_as_ctx_call | now left]. Qed.

Lemma draws_then_quiet dc (m : M unit) (k : unit -> M unit) w :
  draws dc m w -> emits quiet (k tt) -> draws dc (bind m k) w.
Proof.
  intros (r & o1 & H1 & F1) Hk. destruct r as [[] | e |].
  - destruct (Hk w) as (r2 & o2 & H2 & F2).
    exists r2, (o1 ++ o2). split; [now apply (runs_as_bind m k w tt) |].
    left. rewrite List.filter_app, (filter_quiet _ F2), app_nil_r.
    destruct F1 as [F1 | [N _]]; [exact F1 | now destruct N].
  - destruct (runs_as_bind_stop m k w _ _ H1) as (r' & H' & N); [discriminate |].
    exists r', o1. split; [assumption |].
    destruct F1 as [F1 | [_ F1]]; [now left | right; split; [apply N | exact F1]].
  - destruct (runs_as_bind_stop m k w _ _ H1) as (r' & H' & N); [discriminate |].
    exists r', o1. split; [assumption |].
    destruct F1 as [F1 | [_ F1]]; [now left | right; split; [apply N | exact F1]].
Qed.

(** the draw callback of node [this], called with [bounds]: once it is
    entered, the mark stays, whether the callback returns or not *)
Lemma draw_draws n this bounds w :
  draws match this with
        | VObj l => [CDraw l (Bounds.x bounds) (Bounds.y bounds)
                       (Bounds.width bounds) (Bounds.height bounds)]
        | _ => []
        end (DisplayObject.draw n this bounds) w.
Proof.
  unfold DisplayObject.draw. destruct this; try apply draws_throw.
  apply draws_bind_quiet; [em |]. intros o _. cbv zeta.
  destruct (cls o); try apply draws_throw;
    (apply draws_then_quiet; [apply draws_ctx_call |]);
    apply (emits_weaken painted); try apply painted_quiet.
  - apply emits_Rectangle_draw.
  - apply emits_Sprite_draw.
  - apply emits_Text_draw.
  - apply emits_BitmapText_draw.
Qed.

(** [render] adds calls to the context and nothing else; the draw callback
    it enters is the one [draw_call] says, unless it stops before *)
Lemma render_draws n this w : draws (draw_call n w this) (DisplayObject.render n this) w.
Proof.
  unfold DisplayObject.render, draw_call, is_visible.
  apply draws_bind_quiet; [em |]. intros v Hv. rewrite Hv.
  destruct (to_boolean v); cbn [negb]; [| apply draws_ret].
  apply draws_bind_quiet; [em |]. intros [] _.
  apply draws_bind_quiet; [em |]. intros bounds Hb.
  match goal with
  | |- draws ?dc _ _ =>
      replace dc with
        match this with
        | VObj l => [CDraw l (Bounds.x bounds) (Bounds.y bounds)
                       (Bounds.width bounds) (Bounds.height bounds)]
        | _ => []
        end
        by (destruct this; try reflexivity; now rewrite Hb)
  end.
  apply draws_bind_quiet; [em |]. intros rotation _.
  apply draws_bind_quiet; [em |]. intros [] _.
  apply draws_bind_quiet; [em |]. intros alpha _.
  apply draws_bind_quiet; [em |]. intros [] _.
  apply draws_bind_quiet; [em |]. intros h _.
  apply draws_bind_quiet; [em |]. intros [] _.
  apply draws_then_quiet; [apply draw_draws | em].
Qed.

(** the same of the call [displayObjects[i].render(context)] *)
Lemma render_entry_draws n d w : draws (draw_call n w d) (ThreeUI.render_entry n d) w.
Proof.
  unfold ThreeUI.render_entry, method_call.
  destruct d; try apply draws_throw;
    (apply draws_bind_quiet; [em |]); intros [] _;
    first [apply render_draws | apply draws_throw].
Qed.

(** what the loop of a pass over the nodes [l] has done when it ends with
    outcome [r], the draw callbacks entered being [dc]: either every
    [render] returned in the world of the pass, and so did the loop, with
    the draw callbacks of all the nodes entered in list order; or the loop
    ended at the first node whose [render] did not return, with the outcome
    of that [render] and the draw callbacks of the nodes before it entered,
    and of the node itself if it got that far *)
Definition pass_ends (n : nat) (w : World) (l : list jsval) (r : outcome unit)
    (dc : list ctx_op) : Prop :=
  (r = Ret tt /\
   (forall d, In d l -> fst (ThreeUI.render_entry n d w) = Ret tt) /\
   dc = draw_calls n w l) \/
  (r <> Ret tt /\
   exists pre d post,
     l = pre ++ d :: post /\
     (forall d', In d' pre -> fst (ThreeUI.render_entry n d' w) = Ret tt) /\
     fst (ThreeUI.render_entry n d w) = r /\
     (dc = draw_calls n w pre \/ dc = draw_calls n w (pre ++ [d]))).

Lemma forEach_render n w l :
  exists r ops,
    runs_as (forEach (ThreeUI.render_entry n) l) w r ops /\
    pass_ends n w l r (List.filter is_CDraw ops).
Proof.
  induction l as [| d l IH].
  - exists (Ret tt), []. split; [intros c; now rewrite app_nil_r |].
    left. split; [reflexivity |]. split; [now intros d [] | reflexivity].
  - destruct (render_entry_draws n d w) as (r1 & o1 & H1 & F1).
    pose proof (runs_as_here _ _ _ _ H1) as E1. apply (f_equal fst) in E1. cbn [fst] in E1.
    assert (Stop : r1 <> Ret tt ->
              pass_ends n w (d :: l) r1 (List.filter is_CDraw o1)).
    { intros N. right. split; [exact N |]. exists [], d, l.
      split; [reflexivity |]. split; [now intros d' [] |]. split; [exact E1 |].
      destruct F1 as [F1 | [_ F1]]; rewrite F1; [right | now left].
      unfold draw_calls. cbn [app flat_map]. now rewrite app_nil_r. }
    cbn [forEach]. destruct r1 as [[] | e |].
    + destruct IH as (r2 & o2 & H2 & P2).
      destruct F1 as [F1 | [N _]]; [| now destruct N].
      exists r2, (o1 ++ o2). split; [now apply (runs_as_bind _ _ w tt) |].
      rewrite List.filter_app, F1.
      destruct P2 as [(-> & Hall & ->) | (N & pre & d0 & post & -> & Hpre & Hd0 & Hdc)].
      * left. split; [reflexivity |]. split; [| reflexivity].
        intros d' [<- | Hd']; [exact E1 | now apply Hall].
      * right. split; [exact N |]. exists (d :: pre), d0, post.
        split; [reflexivity |]. split; [| split; [exact Hd0 |]].
        -- intros d' [<- | Hd']; [exact E1 | now apply Hpre].
        -- destruct Hdc as [-> | ->]; [now left | now right].
    + exists (Throw e), o1. split; [now apply runs_as_bind_Throw |].
      apply Stop. discriminate.
    + exists Diverge, o1. split; [now apply runs_as_bind_Diverge |].
      apply Stop. discriminate.
Qed.

(** the loop returns exactly when every [render] does *)
Lemma pass_ends_returns n w l r dc :
  pass_ends n w l r dc ->
  (r = Ret tt <-> forall d, In d l -> fst (ThreeUI.render_entry n d w) = Ret tt).
Proof.
  intros [(-> & Hall & _) | (N & pre & d & post & -> & _ & Hd & _)].
  - now split.
  - split; [intros Hr; now destruct N |].
    intros Hall. rewrite <- Hd. apply Hall, in_elt.
Qed.

Lemma draw_unfold n w :
  shouldReDraw (ui w) = true ->
  ThreeUI.draw n w =
  bind (forEach (ThreeUI.render_entry n) (displayObjects (ui w)))
    (fun _ =>
       (if renderOnQuad (ui w)
        then modify (fun w => with_ui (with_texture_needsUpdate true (ui w)) w)
        else ret tt) ;;
       set_shouldReDraw false)
    (with_context (context w ++ [clear_call (ui w)]) w).
Proof.
  intros Hd. unfold ThreeUI.draw.
  change (bind (gets ui) ?k w) with (k (ui w) w). cbv beta. rewrite Hd. cbn [negb].
  replace (match clearRect (ui w) with
           | Some r => ctx_call (CClearRect (Bounds.x r) (Bounds.y r)
                                   (Bounds.width r) (Bounds.height r))
           | None => ctx_call (CClearRect 0 0 (canvas_width (ui w)) (canvas_height (ui w)))
           end) with (ctx_call (clear_call (ui w)))
    by (unfold clear_call; now destruct (clearRect (ui w))).
  now rewrite (bind_Ret _ _ w tt (with_context (context w ++ [clear_call (ui w)]) w) eq_refl).
Qed.

(** A pass that is due: the canvas is cleared and the nodes are rendered in
    turn.  Only if all of them return is the pass closed: the texture is
    flagged if the UI is on a quad and the dirty flag is cleared last.  If
    one does not, the pass ends there and has changed the context only. *)
Lemma draw_due n w :
  shouldReDraw (ui w) = true ->
  exists r ops,
    (r = Ret tt ->
     ThreeUI.draw n w =
       (Ret tt,
        with_ui (with_shouldReDraw false
                   (if renderOnQuad (ui w)
                    then with_texture_needsUpdate true (ui w) else ui w))
          (with_context (context w ++ clear_call (ui w) :: ops) w))) /\
    (r <> Ret tt ->
     ThreeUI.draw n w = (r, with_context (context w ++ clear_call (ui w) :: ops) w)) /\
    pass_ends n w (displayObjects (ui w)) r (List.filter is_CDraw ops).
Proof.
  intros Hd.
  destruct (forEach_render n w (displayObjects (ui w))) as (r & ops & H & P).
  exists r, ops. rewrite (draw_unfold n w Hd).
  specialize (H (context w ++ [clear_call (ui w)])).
  rewrite <- app_assoc in H. cbn [app] in H.
  split; [| split; [| exact P]].
  - intros ->. rewrite (bind_Ret _ _ _ _ _ H).
    destruct (renderOnQuad (ui w)); reflexivity.
  - intros Hr. destruct r as [[] | e |]; [now destruct Hr | |].
    + now rewrite (bind_Throw _ _ _ _ _ H).
    + now rewrite (bind_Diverge _ _ _ _ H).
Qed.

Lemma draw_clean n w : shouldReDraw (ui w) = false -> ThreeUI.draw n w = (Ret tt, w).
Proof.
  intros H. unfold ThreeUI.draw.
  change (bind (gets ui) ?k w) with (k (ui w) w). cbv beta. now rewrite H.
Qed.

Lemma draw_call_inv n w d l x y wd h :
  In (CDraw l x y wd h) (draw_call n w d) -> d = VObj l /\ is_visible n w d = true.
Proof.
  unfold draw_call. destruct (is_visible n w d); [| intros []].
  destruct d as [| | | | | l0]; try solve [intros []].
  destruct (fst (DisplayObject.getBounds n (VObj l0) w)); try solve [intros []].
  intros [[= -> _ _ _ _] | []]. auto.
Qed.

(** no draw callback of a node that reads invisible is among those that a
    pass enters *)
Lemma pass_ends_visible n w nodes r ops l x y wd h :
  pass_ends n w nodes r (List.filter is_CDraw ops) ->
  is_visible n w (VObj l) = false -> ~ In (CDraw l x y wd h) ops.
Proof.
  intros P Hv Hin.
  assert (Hin' : In (CDraw l x y wd h) (List.filter is_CDraw ops))
    by (apply List.filter_In; now split).
  assert (F : exists nodes', List.filter is_CDraw ops = draw_calls n w nodes').
  { destruct P as [(_ & _ & F) | (_ & pre & d & post & _ & _ & _ & [F | F])]; eauto. }
  destruct F as (nodes' & F). rewrite F in Hin'. unfold draw_calls in Hin'.
  apply in_flat_map in Hin' as (d & _ & Hd').
  apply draw_call_inv in Hd' as [-> Hv']. congruence.
Qed.

(** ** The draw pass *)

(** C10 (as amended): a pass that is due ([shouldReDraw] set) clears the
    canvas and renders the nodes in list order.  (1) A node whose [visible]
    reads as a falsy value (through the visibility getter, so also when its
    parent reads invisible) is skipped entirely: its [render] returns at
    once and leaves the world untouched, whatever resolving its bounds
    would do.  (2) Whether it returns or not, the pass leaves the heap as
    it is and adds to the context the [clearRect] call first, and no draw
    callback of a node that reads invisible is entered.  (3) The pass
    returns exactly when the [render] of every node returns; the draw
    callbacks entered are then those of the nodes that read visible, in
    list order and each with the node's resolved bounds, and the dirty flag
    is cleared.  (4) Otherwise the pass ends at the first node whose
    [render] does not return (bounds that do not resolve, a draw callback
    that throws), with the outcome of that [render]: the draw callbacks of
    the visible nodes before it have been entered, and its own if it got
    that far, none of the nodes after it, and the root is as it was, the
    dirty flag still set. *)
Theorem draw_skips_invisible_nodes n w :
  shouldReDraw (ui w) = true ->
  (forall d v, fst (get_prop n d "visible" w) = Ret v -> to_boolean v = false ->
               DisplayObject.render n d w = (Ret tt, w)) /\
  exists r w' rest,
    ThreeUI.draw n w = (r, w') /\
    heap w' = heap w /\
    context w' = context w ++ clear_call (ui w) :: rest /\
    (forall l x y wd h, is_visible n w (VObj l) = false -> ~ In (CDraw l x y wd h) rest) /\
    (r = Ret tt <->
     forall d, In d (displayObjects (ui w)) -> fst (ThreeUI.render_entry n d w) = Ret tt) /\
    (r = Ret tt ->
     shouldReDraw (ui w') = false /\
     List.filter is_CDraw rest = draw_calls n w (displayObjects (ui w))) /\
    (r <> Ret tt ->
     ui w' = ui w /\
     exists pre d post,
       displayObjects (ui w) = pre ++ d :: post /\
       (forall d', In d' pre -> fst (ThreeUI.render_entry n d' w) = Ret tt) /\
       fst (ThreeUI.render_entry n d w) = r /\
       (List.filter is_CDraw rest = draw_calls n w pre \/
        List.filter is_CDraw rest = draw_calls n w (pre ++ [d]))).
Proof.
  intros Hd. split; [intros d v; apply render_invisible |].
  destruct (draw_due n w Hd) as (r & ops & H1 & H2 & P).
  assert (E : exists w', ThreeUI.draw n w = (r, w') /\
                         heap w' = heap w /\
                         context w' = context w ++ clear_call (ui w) :: ops /\
                         (r = Ret tt -> shouldReDraw (ui w') = false) /\
                         (r <> Ret tt -> ui w' = ui w)).
  { destruct r as [[] | e |].
    - eexists. split; [exact (H1 eq_refl) |]. split; [reflexivity |].
      split; [reflexivity |]. split; [reflexivity | intros N; now destruct N].
    - eexists. split; [apply H2; discriminate |]. split; [reflexivity |].
      split; [reflexivity |]. split; [discriminate | reflexivity].
    - eexists. split; [apply H2; discriminate |]. split; [reflexivity |].
      split; [reflexivity |]. split; [discriminate | reflexivity]. }
  destruct E as (w' & E & Hh & Hc & Hf & Hu).
  exists r, w', ops.
  split; [exact E |]. split; [exact Hh |]. split; [exact Hc |].
  split; [intros l x y wd h; exact (pass_ends_visible n w _ r ops l x y wd h P) |].
  split; [exact (pass_ends_returns n w _ r _ P) |]. split.
  - intros Hr. split; [now apply Hf |].
    destruct P as [(_ & _ & F) | (N & _)]; [exact F | now destruct N].
  - intros Hr. split; [now apply Hu |].
    destruct P as [(-> & _) | (_ & Q)]; [now destruct Hr | exact Q].
Qed.

Lemma draw_skips_invisible_nodes_witness :
  exists w' rest,
    ThreeUI.draw 3 Examples.scene = (Ret tt, w') /\
    shouldReDraw (ui w') = false /\
    context w' = context Examples.scene ++ CClearRect 0 0 1280 720 :: rest /\
    List.filter is_CDraw rest = [CDraw 0 0 0 100 100; CDraw 15 495 495 10 10].
Proof.
  assert (Hd : shouldReDraw (ui Examples.scene) = true) by (vm_compute; reflexivity).
  destruct (draw_skips_invisible_nodes 3 Examples.scene Hd)
    as (_ & r & w' & rest & E & _ & Hc & _ & I & G & _).
  assert (Hr : r = Ret tt).
  { apply I. intros d Hin. vm_compute in Hin.
    destruct Hin as [<- | [<- | [<- | [<- | []]]]]; vm_compute; reflexivity. }
  subst r. destruct (G eq_refl) as [Hf F].
  exists w', rest. split; [exact E |]. split; [exact Hf |]. split; [exact Hc |].
  rewrite F. vm_compute. reflexivity.
Defined.

(** C10, the claim as stated fails: not every pass clears the dirty flag.
    After [a = ui.createRectangle('#f00', 0, 0, 10, 10); a.visible = false;
    t = ui.createText(42)] the pass skips [a], enters the draw callback of
    [t], which assigns the four text properties of the context and throws
    on [this.text.split]: [draw] passes the TypeError on, with the context
    left saved and the flag still set. *)
Lemma draw_pass_left_due :
  shouldReDraw (ui Examples.number_text) = true /\
  displayObjects (ui Examples.number_text) = [VObj 0; VObj 5] /\
  is_visible 3 Examples.number_text (VObj 0) = false /\
  fst (ThreeUI.draw 3 Examples.number_text) =
    Throw (TypeError "this.text.split is not a function") /\
  shouldReDraw (ui (snd (ThreeUI.draw 3 Examples.number_text))) = true /\
  context (snd (ThreeUI.draw 3 Examples.number_text)) =
    context Examples.number_text ++
    [CClearRect 0 0 1280 720; CSave; CGlobalAlpha (VNum 1);
     CSmoothing "imageSmoothingEnabled" (VBool true); CDraw 5 0 0 0 0;
     CProperty "font" (VStr "12px Arial"); CProperty "fillStyle" (VStr "#000000");
     CProperty "textAlign" (VStr "left"); CProperty "textBaseline" (VStr "alphabetic")].
Proof.
  split; [vm_compute; reflexivity |]. split; [vm_compute; reflexivity |].
  split; [vm_compute; reflexivity |]. split; [vm_compute; reflexivity |].
  split; vm_compute; reflexivity.
Qed.

(** ** Dirty tracking *)

Lemma mem_In s l : mem s l = true <-> In s l.
Proof.
  unfold mem. rewrite existsb_exists. split.
  - intros (x & Hx & E). apply String.eqb_eq in E. now subst.
  - intros H. exists s. split; [assumption | apply String.eqb_refl].
Qed.

Lemma observed_accessor o p : observed o = true -> In p dirtyProperties -> mem p (accessors o) = true.
Proof.
  unfold observed. intros H Hp. apply andb_prop in H as [H _].
  rewrite forallb_forall in H. now apply H.
Qed.

Lemma observed_proxy_plain o p :
  observed o = true -> In p dirtyProperties -> mem (proxyKey p) (accessors o) = false.
Proof.
  unfold observed. intros H Hp. apply andb_prop in H as [_ H].
  rewrite forallb_forall in H.
  destruct (mem (proxyKey p) (accessors o)) eqn:E; [| reflexivity].
  apply mem_In, H in E.
  simpl in Hp. repeat (destruct Hp as [<- | Hp]; [vm_compute in E; discriminate |]).
  destruct Hp.
Qed.

Lemma deref_Some l w o : heap w !! l = Some o -> deref l w = (Ret o, w).
Proof. intros H. unfold deref. now rewrite H. Qed.

(** an assignment changes the object it is made on, and nothing else *)
Lemma assign_runs l key v w o :
  heap w !! l = Some o ->
  assign l key v w = (Ret tt, with_heap (<[l := obj_assign key v o]> (heap w)) w).
Proof.
  intros Ho. unfold assign. now rewrite (bind_Ret _ _ _ _ _ (deref_Some _ _ _ Ho)).
Qed.

(** C3 (as amended): on a node [l] carrying the accessors of
    [observeDirtyProperties], for every tracked property [p]: (1) a read of
    [p] is the read of [object[proxyKey]]; for every property but [visible]
    that is the stored value, unchanged; for [visible], on a display object,
    it is the getter of the prototype, which answers false under a parent
    (another node) that reads invisible, and the stored [_visible] under a
    parent that reads visible or without a parent; (2) a write
    of [v] compares [v] with what a read of [p] returns, [cur]: it returns
    and leaves the root's flag [shouldReDraw] as it was when [cur === v],
    and sets it to true when [cur !== v]; (3) [draw] is a no-op when the
    flag is clear; (4) when the flag is set, [draw] returns exactly when
    the [render] of every node returns, and then the flag is false, the
    only thing of the root that has changed besides the texture's update
    mark; when a [render] does not return, neither does [draw], and the
    root is as it was, the flag still set. *)
Theorem dirty_tracking n w l o p :
  heap w !! l = Some o -> observed o = true -> In p dirtyProperties ->
  get_prop n (VObj l) p w = get_prop n (VObj l) (proxyKey p) w /\
  (p <> "visible" ->
   get_prop n (VObj l) p w = (Ret (default VUndef (field_lookup (proxyKey p) (fields o))), w)) /\
  (p = "visible" ->
   is_display (cls o) = true -> field_lookup "_proxied_visible" (fields o) = None ->
   get_prop (S n) (VObj l) p w = _proxied_visible_get (get_prop n) (VObj l) w /\
   forall parent,
     fst (get_prop n (VObj l) "parent" w) = Ret parent ->
     (to_boolean parent && negb (strict_eq parent (VObj l)) = false ->
      get_prop (S n) (VObj l) p w = get_prop n (VObj l) "_visible" w) /\
     (to_boolean parent && negb (strict_eq parent (VObj l)) = true ->
      forall pv,
        fst (get_prop n parent "visible" w) = Ret pv ->
        get_prop (S n) (VObj l) p w =
        if to_boolean pv then get_prop n (VObj l) "_visible" w
        else (Ret (VBool false), w))) /\
  (forall cur v,
     fst (get_prop n (VObj l) p w) = Ret cur ->
     exists w',
       set_prop n (VObj l) p v w = (Ret tt, w') /\
       shouldReDraw (ui w') = if strict_eq cur v then shouldReDraw (ui w) else true) /\
  (shouldReDraw (ui w) = false -> ThreeUI.draw n w = (Ret tt, w)) /\
  (shouldReDraw (ui w) = true ->
   exists r w',
     ThreeUI.draw n w = (r, w') /\
     (r = Ret tt <->
      forall d, In d (displayObjects (ui w)) ->
                fst (ThreeUI.render_entry n d w) = Ret tt) /\
     (r = Ret tt ->
      shouldReDraw (ui w') = false /\
      with_texture_needsUpdate (texture_needsUpdate (ui w)) (ui w') =
        with_shouldReDraw false (ui w)) /\
     (r <> Ret tt -> ui w' = ui w)).
Proof.
  intros Ho Hobs Hp.
  pose proof (observed_accessor o p Hobs Hp) as Hacc.
  pose proof (observed_proxy_plain o p Hobs Hp) as Hplain.
  split; [| split; [| split; [| split; [| split]]]].
  - destruct n; cbn [get_prop];
      rewrite !(bind_Ret _ _ _ _ _ (deref_Some _ _ _ Ho)); now rewrite Hacc, Hplain.
  - intros Hv.
    assert (Hk : String.eqb (proxyKey p) "_proxied_visible" = false).
    { apply String.eqb_neq. intros E. now apply Hv, proxyKey_visible. }
    destruct n; cbn [get_prop];
      rewrite (bind_Ret _ _ _ _ _ (deref_Some _ _ _ Ho)), Hacc, Hk, andb_false_r;
      now destruct (field_lookup (proxyKey p) (fields o)).
  - intros -> Hdis Hfree.
    assert (E : get_prop (S n) (VObj l) "visible" w =
                _proxied_visible_get (get_prop n) (VObj l) w).
    { cbn [get_prop]. rewrite (bind_Ret _ _ _ _ _ (deref_Some _ _ _ Ho)), Hacc.
      change (proxyKey "visible") with "_proxied_visible". now rewrite Hfree, Hdis. }
    split; [exact E |]. intros parent Hpar. rewrite E. unfold _proxied_visible_get.
    rewrite (bind_Ret _ _ _ _ _ (get_prop_run _ _ _ _ _ Hpar)).
    split; intros Hc; rewrite Hc; [reflexivity |].
    intros pv Hpv. rewrite (bind_Ret _ _ _ _ _ (get_prop_run _ _ _ _ _ Hpv)).
    now destruct (to_boolean pv).
  - intros cur v Hcur. unfold set_prop.
    rewrite (bind_Ret _ _ _ _ _ (deref_Some _ _ _ Ho)), Hacc.
    rewrite (bind_Ret _ _ _ _ _ (get_prop_run _ _ _ _ _ Hcur)).
    destruct (strict_eq cur v); cbn [negb].
    + rewrite bind_ret_l, (assign_runs l (proxyKey p) v w o Ho). eauto.
    + unfold set_shouldReDraw at 1.
      rewrite (bind_Ret _ _ w tt (with_ui (with_shouldReDraw true (ui w)) w) eq_refl).
      rewrite (assign_runs l (proxyKey p) v (with_ui (with_shouldReDraw true (ui w)) w) o Ho).
      eauto.
  - apply draw_clean.
  - intros Hd. destruct (draw_due n w Hd) as (r & ops & H1 & H2 & P).
    pose proof (pass_ends_returns n w _ r _ P) as I.
    destruct r as [[] | e |].
    + eexists _, _. split; [exact (H1 eq_refl) |]. split; [exact I |].
      split; [| intros N; now destruct N]. intros _. split; [reflexivity |].
      cbn. destruct (ui w), renderOnQuad0; reflexivity.
    + eexists _, _. split; [apply H2; discriminate |]. split; [exact I |].
      split; [discriminate | reflexivity].
    + eexists _, _. split; [apply H2; discriminate |]. split; [exact I |].
      split; [discriminate | reflexivity].
Qed.

Lemma dirty_tracking_witness :
  shouldReDraw (ui Examples.hidden_drawn) = false /\
  fst (get_prop 0 (VObj 10) "_visible" Examples.hidden_drawn) = Ret (VBool true) /\
  get_prop 3 (VObj 10) "visible" Examples.hidden_drawn =
    (Ret (VBool false), Examples.hidden_drawn) /\
  (exists w', set_prop 3 (VObj 10) "x" (VNum 10) Examples.hidden_drawn = (Ret tt, w') /\
              shouldReDraw (ui w') = false) /\
  (exists w', set_prop 3 (VObj 10) "x" (VNum 60) Examples.hidden_drawn = (Ret tt, w') /\
              shouldReDraw (ui w') = true) /\
  (exists w', set_prop 3 (VObj 10) "visible" (VBool false) Examples.hidden_drawn =
                (Ret tt, w') /\
              shouldReDraw (ui w') = false) /\
  (exists w', set_prop 3 (VObj 10) "visible" (VBool true) Examples.hidden_drawn =
                (Ret tt, w') /\
              shouldReDraw (ui w') = true).
Proof.
  assert (H0 : shouldReDraw (ui Examples.hidden_drawn) = false) by (vm_compute; reflexivity).
  destruct (heap Examples.hidden_drawn !! 10) as [o |] eqn:Ho;
    [| vm_compute in Ho; discriminate].
  assert (Hobs : observed o = true).
  { assert (E : match heap Examples.hidden_drawn !! 10 with
                | Some o => observed o
                | None => false
                end = true) by (vm_compute; reflexivity).
    now rewrite Ho in E. }
  assert (Hdis : is_display (cls o) = true).
  { assert (E : match heap Examples.hidden_drawn !! 10 with
                | Some o => is_display (cls o)
                | None => false
                end = true) by (vm_compute; reflexivity).
    now rewrite Ho in E. }
  assert (Hfree : field_lookup "_proxied_visible" (fields o) = None).
  { assert (E : match heap Examples.hidden_drawn !! 10 with
                | Some o => field_lookup "_proxied_visible" (fields o)
                | None => None
                end = None) by (vm_compute; reflexivity).
    now rewrite Ho in E. }
  assert (Hx : In "x" dirtyProperties) by (left; reflexivity).
  assert (Hv : In "visible" dirtyProperties) by (do 6 right; left; reflexivity).
  destruct (dirty_tracking 3 Examples.hidden_drawn 10 o "x" Ho Hobs Hx)
    as (_ & _ & _ & Hwx & _ & _).
  destruct (dirty_tracking 3 Examples.hidden_drawn 10 o "visible" Ho Hobs Hv)
    as (_ & _ & _ & Hwv & _ & _).
  destruct (dirty_tracking 2 Examples.hidden_drawn 10 o "visible" Ho Hobs Hv)
    as (_ & _ & Hrv & _).
  destruct (Hrv eq_refl Hdis Hfree) as (_ & Hparent).
  assert (Hp : fst (get_prop 2 (VObj 10) "parent" Examples.hidden_drawn) = Ret (VObj 5))
    by (vm_compute; reflexivity).
  destruct (Hparent (VObj 5) Hp) as (_ & Hunder).
  assert (Hpv : fst (get_prop 2 (VObj 5) "visible" Examples.hidden_drawn) =
                Ret (VBool false))
    by (vm_compute; reflexivity).
  specialize (Hunder eq_refl (VBool false) Hpv). cbn [to_boolean] in Hunder.
  assert (Hcx : fst (get_prop 3 (VObj 10) "x" Examples.hidden_drawn) = Ret (VNum 10))
    by (vm_compute; reflexivity).
  assert (Hcv : fst (get_prop 3 (VObj 10) "visible" Examples.hidden_drawn) =
                Ret (VBool false))
    by (now rewrite Hunder).
  split; [exact H0 |]. split; [vm_compute; reflexivity |]. split; [exact Hunder |].
  split; [| split; [| split]].
  - destruct (Hwx (VNum 10) (VNum 10) Hcx) as (w' & E & F).
    exists w'. split; [exact E |]. rewrite F, H0. reflexivity.
  - destruct (Hwx (VNum 10) (VNum 60) Hcx) as (w' & E & F).
    exists w'. split; [exact E |]. rewrite F. reflexivity.
  - destruct (Hwv (VBool false) (VBool false) Hcv) as (w' & E & F).
    exists w'. split; [exact E |]. rewrite F, H0. reflexivity.
  - destruct (Hwv (VBool false) (VBool true) Hcv) as (w' & E & F).
    exists w'. split; [exact E |]. rewrite F. reflexivity.
Defined.

(** C3, the claim as stated fails, in two places.  On [visible]: node [c]
    of the click scene, below the hidden [b] and after a pass, stores
    [_visible = true], but its [visible] reads false; writing the stored
    value, true, sets the flag, and writing false, which is not the stored
    value, leaves the flag clear while the stored value changes.  On
    [draw]: after [ui.createText(42)] the flag is set, [draw] throws and
    the flag is still set. *)
Lemma visible_read_differs_from_stored_value :
  In "visible" dirtyProperties /\
  shouldReDraw (ui Examples.hidden_drawn) = false /\
  fst (get_prop 0 (VObj 10) "_visible" Examples.hidden_drawn) = Ret (VBool true) /\
  fst (get_prop 3 (VObj 10) "visible" Examples.hidden_drawn) = Ret (VBool false) /\
  shouldReDraw
    (ui (snd (set_prop 3 (VObj 10) "visible" (VBool true) Examples.hidden_drawn))) = true /\
  shouldReDraw
    (ui (snd (set_prop 3 (VObj 10) "visible" (VBool false) Examples.hidden_drawn))) = false /\
  fst (get_prop 0 (VObj 10) "_visible"
         (snd (set_prop 3 (VObj 10) "visible" (VBool false) Examples.hidden_drawn))) =
    Ret (VBool false) /\
  shouldReDraw (ui Examples.number_text) = true /\
  fst (ThreeUI.draw 3 Examples.number_text) =
    Throw (TypeError "this.text.split is not a function") /\
  shouldReDraw (ui (snd (ThreeUI.draw 3 Examples.number_text))) = true.
Proof.
  split; [do 6 right; left; reflexivity |].
  split; [vm_compute; reflexivity |]. split; [vm_compute; reflexivity |].
  split; [vm_compute; reflexivity |]. split; [vm_compute; reflexivity |].
  split; [vm_compute; reflexivity |]. split; [vm_compute; reflexivity |].
  split; [vm_compute; reflexivity |]. split; vm_compute; reflexivity.
Qed.

(** ** Hit testing *)


(** one step of the first loop of [clickHandler], on a node whose [visible]
    reads as [v]: the read alone decides whether the bounds are tested *)
Lemma collect_step n coords listener rest queue w v :
  fst (get_prop n (displayObject listener) "visible" w) = Ret v ->
  ThreeUI.collect n coords (listener :: rest) queue w =
  if to_boolean v then
    (do bounds <- DisplayObject.getBounds n (displayObject listener);
     if ThreeUI.isInBoundingBox (Position.x coords) (Position.y coords)
          (Bounds.x bounds) (Bounds.y bounds) (Bounds.width bounds) (Bounds.height bounds)
     then ThreeUI.collect n coords rest (queue ++ [callback listener])
     else ThreeUI.collect n coords rest queue) w
  else ThreeUI.collect n coords rest queue w.
Proof.
  intros Hv. cbn [ThreeUI.collect]. unfold DisplayObject.shouldReceiveEvents.
  rewrite (bind_Ret _ _ _ _ _ (get_prop_run _ _ _ _ _ Hv)).
  now destruct (to_boolean v).
Qed.






(** on a node made by a factory, a read of [visible] runs the getter of the
    prototype one frame deeper, and cannot be done without call stack *)
Lemma visible_read n w l :
  visible_observed w l = true ->
  get_prop (S n) (VObj l) "visible" w = _proxied_visible_get (get_prop n) (VObj l) w /\
  get_prop 0 (VObj l) "visible" w = (Diverge, w).
Proof.
  unfold visible_observed. destruct (heap w !! l) as [o |] eqn:Ho; [| discriminate].
  intros H. apply andb_prop in H as [H H3]. apply andb_prop in H as [H1 H2].
  destruct (field_lookup "_proxied_visible" (fields o)) eqn:Ef; [discriminate |].
  split; cbn [get_prop]; rewrite (bind_Ret _ _ _ _ _ (deref_Some _ _ _ Ho)), H2;
    change (proxyKey "visible") with "_proxied_visible"; now rewrite Ef, H1.
Qed.

Lemma chain_observed_head w l k : chain_observed w l (S k) = true -> visible_observed w l = true.
Proof.
  unfold chain_observed. rewrite forallb_forall. intros H.
  apply (H 0). apply in_seq. lia.
Qed.

Lemma chain_observed_parent w l p k :
  parent_loc w l = Some p -> chain_observed w l (S (S k)) = true ->
  chain_observed w p (S k) = true.
Proof.
  unfold chain_observed. rewrite !forallb_forall. intros Hp H i Hi.
  apply in_seq in Hi. specialize (H (S i)). cbn [nth_parent] in H. rewrite Hp in H.
  apply H, in_seq. lia.
Qed.

(** Visibility is inherited: a node reads invisible as soon as it, or a node
    up its chain of parents, has its own flag cleared. *)
Lemma hidden_ancestor w a fv :
  fst (get_prop 0 (VObj a) "_visible" w) = Ret fv -> to_boolean fv = false ->
  forall k l n,
    nth_parent w k l = Some a -> chain_observed w l (S k) = true ->
    is_visible n w (VObj l) = false.
Proof.
  intros Hfv Hf. induction k as [| k IH]; intros l n Hk Hc.
  - injection Hk as ->. unfold is_visible.
    destruct (visible_read (pred n) w a (chain_observed_head _ _ _ Hc)) as [ES E0].
    destruct n as [| n]; [now rewrite E0 |]. cbn [pred] in ES. rewrite ES.
    unfold _proxied_visible_get. rewrite bind_ro by ro.
    destruct (fst (get_prop n (VObj a) "parent" w)) as [parent | |]; try reflexivity.
    pose proof (get_prop_from_0 n _ _ _ _ Hfv) as Eown.
    destruct (to_boolean parent && negb (strict_eq parent (VObj a)));
      [| now rewrite Eown].
    rewrite bind_ro by ro.
    destruct (fst (get_prop n parent "visible" w)) as [pv | |]; try reflexivity.
    destruct (to_boolean pv); cbn [negb]; [now rewrite Eown | reflexivity].
  - cbn [nth_parent] in Hk.
    destruct (parent_loc w l) as [p |] eqn:Ep; [| discriminate].
    destruct (parent_loc_Some _ _ _ Ep) as [Hpar _].
    pose proof (chain_observed_parent _ _ _ _ Ep Hc) as Hcp.
    destruct (Nat.eq_dec p l) as [-> | Hne].
    + now apply IH.
    + unfold is_visible.
      destruct (visible_read (pred n) w l (chain_observed_head _ _ _ Hc)) as [ES E0].
      destruct n as [| n]; [now rewrite E0 |]. cbn [pred] in ES. rewrite ES.
      unfold _proxied_visible_get.
      rewrite (bind_Ret _ _ _ _ _ (get_prop_from_0 n _ _ _ _ Hpar)).
      cbn [to_boolean strict_eq andb]. apply Nat.eqb_neq in Hne. rewrite Hne. cbn [negb].
      specialize (IH p n Hk Hcp). unfold is_visible in IH.
      rewrite bind_ro by ro.
      destruct (fst (get_prop n (VObj p) "visible" w)) as [pv | |]; try reflexivity.
      now rewrite IH.
Qed.

(** C6 (as amended): eligibility of a listener is the reading of its node's
    [visible] property, which goes through the visibility getter.  With the
    read giving [v], the loop tests the node's bounds when [v] is truthy and
    passes over the listener when it is falsy; and [v] is falsy as soon as
    the node itself ([k = 0]) or a node [k] steps up its chain of parents
    has its own flag [_visible] cleared: eligibility is inherited down the
    parent chain. *)
Theorem eligibility_follows_visibility_getter n w coords cb l rest queue v :
  fst (get_prop n (VObj l) "visible" w) = Ret v ->
  ThreeUI.collect n coords (mkListener cb (VObj l) :: rest) queue w =
    (if to_boolean v then
       (do bounds <- DisplayObject.getBounds n (VObj l);
        if ThreeUI.isInBoundingBox (Position.x coords) (Position.y coords)
             (Bounds.x bounds) (Bounds.y bounds) (Bounds.width bounds)
             (Bounds.height bounds)
        then ThreeUI.collect n coords rest (queue ++ [cb])
        else ThreeUI.collect n coords rest queue) w
     else ThreeUI.collect n coords rest queue w) /\
  (forall k a fv,
     nth_parent w k l = Some a -> chain_observed w l (S k) = true ->
     fst (get_prop 0 (VObj a) "_visible" w) = Ret fv -> to_boolean fv = false ->
     to_boolean v = false).
Proof.
  intros Hv. split.
  - exact (collect_step n coords (mkListener cb (VObj l)) rest queue w v Hv).
  - intros k a fv Hk Hc Hfv Hf.
    pose proof (hidden_ancestor w a fv Hfv Hf k l n Hk Hc) as H.
    unfold is_visible in H. now rewrite Hv in H.
Qed.

Lemma eligibility_follows_visibility_getter_witness :
  fst (get_prop 0 (VObj 10) "_visible" Examples.hidden_parent) = Ret (VBool true) /\
  nth_parent Examples.hidden_parent 1 10 = Some 5 /\
  ThreeUI.collect 3 (Position.mk 60 60) [mkListener 2 (VObj 10)] [] Examples.hidden_parent =
    (Ret [], Examples.hidden_parent).
Proof.
  assert (Hv : fst (get_prop 3 (VObj 10) "visible" Examples.hidden_parent) = Ret (VBool false))
    by (vm_compute; reflexivity).
  destruct (eligibility_follows_visibility_getter 3 Examples.hidden_parent
              (Position.mk 60 60) 2 10 [] [] (VBool false) Hv) as [E _].
  split; [vm_compute; reflexivity |]. split; [vm_compute; reflexivity |].
  rewrite E. reflexivity.
Defined.

(** C6, the claim as stated fails: node [c] has its own flag set and the
    point (60, 60) lies within its bounds (50, 50, 20, 20), but its parent
    [b] is hidden; the click calls the callback of [a] only, and neither
    tests nor fires [c]. *)
Lemma own_flag_does_not_decide_eligibility :
  fst (get_prop 0 (VObj 10) "_visible" Examples.hidden_parent) = Ret (VBool true) /\
  fst (DisplayObject.getBounds 3 (VObj 10) Examples.hidden_parent) =
    Ret (Bounds.mk 50 50 20 20) /\
  ThreeUI.isInBoundingBox 60 60 50 50 20 20 = true /\
  map displayObject (eventListeners_click (ui Examples.hidden_parent)) =
    [VObj 0; VObj 5; VObj 10] /\
  fst (ThreeUI.clickHandler Examples.callbacks 3 Examples.click Examples.hidden_parent) =
    Ret [0].
Proof. repeat split; vm_compute; reflexivity. Qed.

(** ** The factories *)

Lemma deref_focus l o w : deref l (focus l o w) = (Ret o, focus l o w).
Proof. apply deref_Some. unfold focus. cbn. apply lookup_insert_eq. Qed.

Lemma focus_focus l o o' w : focus l o' (focus l o w) = focus l o' w.
Proof. unfold focus, with_heap. cbn. now rewrite insert_insert_eq. Qed.

Lemma put_focus l o o' w : put_obj l o' (focus l o w) = (Ret tt, focus l o' w).
Proof. unfold put_obj, modify. f_equal. apply focus_focus. Qed.

Lemma assign_focus l key v o w :
  assign l key v (focus l o w) = (Ret tt, focus l (obj_assign key v o) w).
Proof.
  unfold assign. rewrite (bind_Ret _ _ _ _ _ (deref_focus l o w)). apply put_focus.
Qed.

Lemma accessors_obj_assign key v o : accessors (obj_assign key v o) = accessors o.
Proof. unfold obj_assign. now destruct (_ && _). Qed.

Lemma cls_obj_assign key v o : cls (obj_assign key v o) = cls o.
Proof. unfold obj_assign. now destruct (_ && _). Qed.

Lemma set_prop_focus n l o w name v :
  mem name (accessors o) = false ->
  set_prop n (VObj l) name v (focus l o w) = (Ret tt, focus l (obj_assign name v o) w).
Proof.
  intros H. unfold set_prop.
  rewrite (bind_Ret _ _ _ _ _ (deref_focus l o w)), H. apply assign_focus.
Qed.

Lemma get_prop_plain n l' o' w name :
  heap w !! l' = Some o' ->
  mem name (accessors o') = false -> String.eqb name "_proxied_visible" = false ->
  get_prop n (VObj l') name w = (Ret (obj_read name o'), w).
Proof.
  intros Ho Hm He.
  destruct n; cbn [get_prop]; rewrite (bind_Ret _ _ _ _ _ (deref_Some _ _ _ Ho)), Hm, He,
    andb_false_r; unfold obj_read; now destruct (field_lookup name (fields o')).
Qed.

Lemma get_prop_observed n l' o' w name :
  heap w !! l' = Some o' ->
  mem name (accessors o') = true -> String.eqb (proxyKey name) "_proxied_visible" = false ->
  get_prop n (VObj l') name w = (Ret (obj_read (proxyKey name) o'), w).
Proof.
  intros Ho Hm He.
  destruct n; cbn [get_prop]; rewrite (bind_Ret _ _ _ _ _ (deref_Some _ _ _ Ho)), Hm, He,
    andb_false_r; unfold obj_read; now destruct (field_lookup (proxyKey name) (fields o')).
Qed.

Lemma heap_focus l o w : heap (focus l o w) !! l = Some o.
Proof. unfold focus. cbn. apply lookup_insert_eq. Qed.

Lemma heap_focus_ne l l' o w : l <> l' -> heap (focus l o w) !! l' = heap w !! l'.
Proof. intros H. unfold focus. cbn. now apply lookup_insert_ne. Qed.

Lemma new_object_focus c props l o w :
  l <> next_loc w ->
  new_object c props (focus l o w) =
  (Ret (VObj (next_loc w)), focus l o (snd (new_object c props w))).
Proof.
  intros H. unfold new_object, alloc, focus, with_heap. cbn. f_equal. f_equal.
  now apply insert_insert_ne.
Qed.

Lemma observe_property_focus n l o w p :
  mem p (accessors o) = false -> mem (proxyKey p) (accessors o) = false ->
  String.eqb p "_proxied_visible" = false ->
  observe_property n (VObj l) p (focus l o w) = (Ret tt, focus l (obj_observe o p) w).
Proof.
  intros H1 H2 H3. unfold observe_property.
  rewrite (bind_Ret _ _ _ _ _ (get_prop_plain n l o _ p (heap_focus l o w) H1 H3)).
  rewrite (bind_Ret _ _ _ _ _ (set_prop_focus n l o w (proxyKey p) _ H2)).
  rewrite (bind_Ret _ _ _ _ _ (deref_focus l _ w)). apply put_focus.
Qed.

Lemma accessors_obj_observe o p : accessors (obj_observe o p) = p :: accessors o.
Proof. unfold obj_observe. cbn. now rewrite accessors_obj_assign. Qed.

Lemma forEach_observe_focus n l w props : forall o,
  observable props (accessors o) = true ->
  forEach (observe_property n (VObj l)) props (focus l o w) =
  (Ret tt, focus l (fold_left obj_observe props o) w).
Proof.
  induction props as [| p r IH]; intros o H; [reflexivity |].
  cbn [observable] in H.
  apply andb_prop in H as [H H4]. apply andb_prop in H as [H H3].
  apply andb_prop in H as [H1 H2].
  apply negb_true_iff in H1, H2, H3.
  cbn [forEach fold_left].
  rewrite (bind_Ret _ _ _ _ _ (observe_property_focus n l o w p H1 H2 H3)).
  apply IH. now rewrite accessors_obj_observe.
Qed.

Lemma bind_set_prop_focus {B} n l o w name v (k : unit -> M B) :
  mem name (accessors o) = false ->
  bind (set_prop n (VObj l) name v) k (focus l o w) =
  k tt (focus l (obj_assign name v o) w).
Proof. intros H. apply bind_Ret. now apply set_prop_focus. Qed.

Lemma bind_new_object_focus {B} c props l o w (k : jsval -> M B) :
  l <> next_loc w ->
  bind (new_object c props) k (focus l o w) =
  k (VObj (next_loc w)) (focus l o (snd (new_object c props w))).
Proof. intros H. apply bind_Ret. now apply new_object_focus. Qed.

Lemma next_loc_new_object c props w : next_loc (snd (new_object c props w)) = S (next_loc w).
Proof. reflexivity. Qed.

Lemma allocated_eq w :
  snd (new_object CPlain (fields offset_literal)
         (snd (new_object CPlain (fields stretch_literal)
                 (snd (new_object CPlain (fields anchor_literal)
                         (snd (new_object CPlain (fields pivot_literal) w))))))) =
  allocated w.
Proof. reflexivity. Qed.

(** the [DisplayObject] constructor, run on a node that is not observed
    yet: it changes the node as [obj_construct] says and allocates the four
    literals *)
Lemma construct_focus n l o w x y width height :
  accessors o = [] -> l < next_loc w ->
  Frame.construct n (VObj l) x y width height (focus l o w) =
  (Ret tt, focus l (obj_construct x y width height (next_loc w) o) (allocated w)).
Proof.
  intros Ha Hl. unfold Frame.construct.
  repeat first
    [ rewrite bind_set_prop_focus by (rewrite ?accessors_obj_assign, Ha; reflexivity)
    | rewrite bind_new_object_focus by (rewrite ?next_loc_new_object; lia) ].
  rewrite set_prop_focus by (rewrite ?accessors_obj_assign, Ha; reflexivity).
  change [("left", VNum 0%float); ("top", VNum 0%float); ("right", VNum 0%float);
          ("bottom", VNum 0%float)] with (fields offset_literal).
  change [("x", VBool false); ("y", VBool false)] with (fields stretch_literal).
  change [("x", anchors.left); ("y", anchors.top)] with (fields anchor_literal).
  change [("x", VNum 0.5%float); ("y", VNum 0.5%float)] with (fields pivot_literal).
  rewrite allocated_eq, !next_loc_new_object.
  unfold obj_construct. reflexivity.
Qed.

(** *** Nodes before observation *)

(** a display object without own property [_proxied_visible]: the setter of
    the prototype is in force *)
Definition proxied_free (o : obj) : Prop :=
  is_display (cls o) = true /\ field_lookup "_proxied_visible" (fields o) = None.

Lemma field_lookup_delete_None k p fs :
  field_lookup k fs = None -> field_lookup k (field_delete p fs) = None.
Proof.
  induction fs as [| [a v] r IH]; [reflexivity |]. cbn [field_lookup field_delete].
  destruct (String.eqb a k) eqn:E; [discriminate |]. intros H.
  destruct (String.eqb a p); [now apply IH |]. cbn [field_lookup]. rewrite E. now apply IH.
Qed.

Lemma proxied_free_assign k v o : proxied_free o -> proxied_free (obj_assign k v o).
Proof.
  intros [Hd Hf]. unfold proxied_free, obj_assign.
  destruct (String.eqb k "_proxied_visible") eqn:E.
  - apply String.eqb_eq in E. subst k. rewrite Hd, Hf. cbn. now rewrite Hd, Hf.
  - cbn. now rewrite E, Hd, Hf.
Qed.

Lemma proxied_free_define p o : proxied_free o -> proxied_free (obj_define_accessor p o).
Proof. intros [Hd Hf]. split; [exact Hd |]. cbn. now apply field_lookup_delete_None. Qed.

Lemma proxied_free_observe o p : proxied_free o -> proxied_free (obj_observe o p).
Proof. intros H. now apply proxied_free_define, proxied_free_assign. Qed.

Lemma proxied_free_fold props : forall o,
  proxied_free o -> proxied_free (fold_left obj_observe props o).
Proof.
  induction props as [| p r IH]; intros o H; [exact H |].
  cbn. now apply IH, proxied_free_observe.
Qed.

Lemma proxied_free_construct x y width height nx o :
  proxied_free o -> proxied_free (obj_construct x y width height nx o).
Proof. intros H. unfold obj_construct. now repeat apply proxied_free_assign. Qed.

Lemma obj_observe_visible o :
  proxied_free o ->
  obj_observe o "visible" =
  obj_define_accessor "visible" (obj_store "_visible" (obj_read "visible" o) o).
Proof.
  intros [Hd Hf]. unfold obj_observe, obj_assign.
  change (proxyKey "visible") with "_proxied_visible". now rewrite Hd, Hf.
Qed.

Lemma fold_observe_split pre p post o :
  fold_left obj_observe (pre ++ p :: post) o =
  fold_left obj_observe post (obj_observe (fold_left obj_observe pre o) p).
Proof. now rewrite fold_left_app. Qed.

(** what reading the defaults needs of an observed node [O] whose literals
    start at [nx] *)
Definition node_facts (O : obj) (nx : loc) : Prop :=
  proxied_free O /\
  mem "pivot" (accessors O) = true /\
  mem "anchor" (accessors O) = true /\
  mem "stretch" (accessors O) = true /\
  mem "offset" (accessors O) = true /\
  mem "rotation" (accessors O) = true /\
  mem "alpha" (accessors O) = true /\
  mem "visible" (accessors O) = true /\
  mem "parent" (accessors O) = true /\
  mem "_visible" (accessors O) = false /\
  obj_read (proxyKey "pivot") O = VObj nx /\
  obj_read (proxyKey "anchor") O = VObj (S nx) /\
  obj_read (proxyKey "stretch") O = VObj (S (S nx)) /\
  obj_read (proxyKey "offset") O = VObj (S (S (S nx))) /\
  obj_read (proxyKey "rotation") O = VNum 0 /\
  obj_read (proxyKey "alpha") O = VNum 1 /\
  obj_read "_visible" O = VBool true /\
  obj_read (proxyKey "parent") O = VUndef.

(** a node fresh from the constructor and [observeDirtyProperties] *)
Lemma observed_node_facts c fs x y width height nx :
  proxied_free (mkObj c [] fs) ->
  node_facts (fold_left obj_observe dirtyProperties
                (obj_construct x y width height nx (mkObj c [] fs))) nx.
Proof.
  intros H.
  pose proof (proxied_free_construct x y width height nx _ H) as HC.
  split; [now apply proxied_free_fold |].
  change dirtyProperties
    with (["x"; "y"; "width"; "height"; "rotation"; "alpha"] ++
          "visible" ::
          ["pivot"; "anchor"; "smoothing"; "stretch"; "offset"; "text"; "scale";
           "parent"; "textAlign"; "assetPath"; "color"; "left"; "right"; "up";
           "down"; "ActiveInvoke"]).
  rewrite fold_observe_split.
  rewrite (obj_observe_visible _ (proxied_free_fold _ _ HC)).
  do 16 (split; [vm_compute; reflexivity |]).
  vm_compute; reflexivity.
Qed.

(** *** Reading a fresh node *)

(** [visible] of an observed node without a parent comes from [_visible],
    through the accessor of the prototype *)
Lemma get_visible_fresh l O w :
  heap w !! l = Some O ->
  proxied_free O ->
  mem "visible" (accessors O) = true ->
  mem "parent" (accessors O) = true ->
  mem "_visible" (accessors O) = false ->
  obj_read (proxyKey "parent") O = VUndef ->
  get_prop 1 (VObj l) "visible" w = (Ret (obj_read "_visible" O), w).
Proof.
  intros Ho [Hd Hf] Hv Hp Hu Hpar. cbn [get_prop].
  rewrite (bind_Ret _ _ _ _ _ (deref_Some _ _ _ Ho)), Hv.
  change (proxyKey "visible") with "_proxied_visible". rewrite Hf, Hd.
  change (true && String.eqb "_proxied_visible" "_proxied_visible") with true.
  cbv iota. unfold _proxied_visible_get.
  rewrite (bind_Ret _ _ _ _ _ (get_prop_observed 0 l O w "parent" Ho Hp eq_refl)), Hpar.
  change (to_boolean VUndef && negb (strict_eq VUndef (VObj l))) with false.
  exact (get_prop_plain 0 l O w "_visible" Ho Hu eq_refl).
Qed.

Lemma read_defaults_fresh l O w nx po p :
  node_facts O nx ->
  heap w !! l = Some O ->
  heap w !! nx = Some po ->
  accessors po = [] -> obj_read "x" po = VNum p -> obj_read "y" po = VNum p ->
  heap w !! S nx = Some anchor_literal ->
  heap w !! S (S nx) = Some stretch_literal ->
  heap w !! S (S (S nx)) = Some offset_literal ->
  read_defaults (VObj l) w = (Ret (defaults p), w).
Proof.
  intros (Hfree & Mpivot & Manchor & Mstretch & Moffset & Mrotation & Malpha & Mvisible &
          Mparent & Mu & Rpivot & Ranchor & Rstretch & Roffset & Rrotation & Ralpha &
          Rvisible & Rparent) Ho Hpo Hpa Hpx Hpy Han Hst Hof.
  assert (Mx : mem "x" (accessors po) = false) by now rewrite Hpa.
  assert (My : mem "y" (accessors po) = false) by now rewrite Hpa.
  unfold read_defaults.
  rewrite (bind_Ret _ _ _ _ _ (get_prop_observed 1 l O w "pivot" Ho Mpivot eq_refl)), Rpivot.
  rewrite (bind_Ret _ _ _ _ _ (get_prop_plain 1 nx po w "x" Hpo Mx eq_refl)), Hpx.
  rewrite (bind_Ret _ _ _ _ _ (get_prop_plain 1 nx po w "y" Hpo My eq_refl)), Hpy.
  rewrite (bind_Ret _ _ _ _ _ (get_prop_observed 1 l O w "anchor" Ho Manchor eq_refl)), Ranchor.
  rewrite (bind_Ret _ _ _ _ _ (get_prop_plain 1 _ _ w "x" Han eq_refl eq_refl)).
  rewrite (bind_Ret _ _ _ _ _ (get_prop_plain 1 _ _ w "y" Han eq_refl eq_refl)).
  rewrite (bind_Ret _ _ _ _ _ (get_prop_observed 1 l O w "stretch" Ho Mstretch eq_refl)),
    Rstretch.
  rewrite (bind_Ret _ _ _ _ _ (get_prop_plain 1 _ _ w "x" Hst eq_refl eq_refl)).
  rewrite (bind_Ret _ _ _ _ _ (get_prop_plain 1 _ _ w "y" Hst eq_refl eq_refl)).
  rewrite (bind_Ret _ _ _ _ _ (get_prop_observed 1 l O w "offset" Ho Moffset eq_refl)), Roffset.
  rewrite (bind_Ret _ _ _ _ _ (get_prop_plain 1 _ _ w "left" Hof eq_refl eq_refl)).
  rewrite (bind_Ret _ _ _ _ _ (get_prop_plain 1 _ _ w "top" Hof eq_refl eq_refl)).
  rewrite (bind_Ret _ _ _ _ _ (get_prop_plain 1 _ _ w "right" Hof eq_refl eq_refl)).
  rewrite (bind_Ret _ _ _ _ _ (get_prop_plain 1 _ _ w "bottom" Hof eq_refl eq_refl)).
  rewrite (bind_Ret _ _ _ _ _ (get_prop_observed 1 l O w "rotation" Ho Mrotation eq_refl)),
    Rrotation.
  rewrite (bind_Ret _ _ _ _ _ (get_prop_observed 1 l O w "alpha" Ho Malpha eq_refl)), Ralpha.
  rewrite (bind_Ret _ _ _ _ _
             (get_visible_fresh l O w Ho Hfree Mvisible Mparent Mu Rparent)), Rvisible.
  rewrite (bind_Ret _ _ _ _ _ (get_prop_observed 1 l O w "parent" Ho Mparent eq_refl)), Rparent.
  reflexivity.
Qed.

Lemma defaults_of_fresh l c fs x y width height nx W po p :
  proxied_free (mkObj c [] fs) -> l < nx ->
  heap W !! nx = Some po ->
  accessors po = [] -> obj_read "x" po = VNum p -> obj_read "y" po = VNum p ->
  heap W !! S nx = Some anchor_literal ->
  heap W !! S (S nx) = Some stretch_literal ->
  heap W !! S (S (S nx)) = Some offset_literal ->
  fst (read_defaults (VObj l)
         (focus l (fold_left obj_observe dirtyProperties
                     (obj_construct x y width height nx (mkObj c [] fs))) W)) =
  Ret (defaults p).
Proof.
  intros Hf Hl Hpo Ha Hx Hy Han Hst Hof.
  set (O := fold_left _ _ _).
  assert (N : forall k v, l < k -> heap W !! k = v -> heap (focus l O W) !! k = v).
  { intros k v Hk <-. apply heap_focus_ne. lia. }
  now rewrite (read_defaults_fresh l O (focus l O W) nx po p
                 (observed_node_facts c fs x y width height nx Hf) (heap_focus l O W)
                 (N _ _ Hl Hpo) Ha Hx Hy
                 (N _ _ (Nat.lt_lt_succ_r _ _ Hl) Han)
                 (N _ _ (Nat.lt_lt_succ_r _ _ (Nat.lt_lt_succ_r _ _ Hl)) Hst)
                 (N _ _ (Nat.lt_lt_succ_r _ _
                           (Nat.lt_lt_succ_r _ _ (Nat.lt_lt_succ_r _ _ Hl))) Hof)).
Qed.

(** *** Writing anywhere in the heap *)

Lemma focus_id l o w : heap w !! l = Some o -> focus l o w = w.
Proof.
  intros H. destruct w as [h hp nl u c]. unfold focus, with_heap. cbn in *.
  f_equal. now apply insert_id.
Qed.

Lemma set_prop_at n l o w name v :
  heap w !! l = Some o -> mem name (accessors o) = false ->
  set_prop n (VObj l) name v w = (Ret tt, focus l (obj_assign name v o) w).
Proof.
  intros Ho Hm. rewrite <- (focus_id l o w Ho) at 1.
  rewrite (set_prop_focus n l o w name v Hm). reflexivity.
Qed.

(** the display list after [this.displayObjects.push(displayObject)] *)
Definition registered (d : jsval) (w : World) : World :=
  with_ui (with_displayObjects (displayObjects (ui w) ++ [d]) (ui w)) w.

Lemma heap_registered d w : heap (registered d w) = heap w.
Proof. reflexivity. Qed.

Lemma push_focus d l o w :
  modify (fun w =>
    with_ui (with_displayObjects (displayObjects (ui w) ++ [d]) (ui w)) w) (focus l o w) =
  (Ret tt, focus l o (registered d w)).
Proof. reflexivity. Qed.

Lemma register_focus n l o w :
  observable dirtyProperties (accessors o) = true ->
  ThreeUI.register n (VObj l) (focus l o w) =
  (Ret (VObj l),
   focus l (fold_left obj_observe dirtyProperties o) (registered (VObj l) w)).
Proof.
  intros H. unfold ThreeUI.register, observeDirtyProperties.
  rewrite (bind_Ret _ _ _ _ _ (push_focus (VObj l) l o w)).
  rewrite (bind_Ret _ _ _ _ _ (forEach_observe_focus n l _ dirtyProperties o H)).
  reflexivity.
Qed.

Lemma register_at n l o w :
  heap w !! l = Some o ->
  observable dirtyProperties (accessors o) = true ->
  ThreeUI.register n (VObj l) w =
  (Ret (VObj l),
   focus l (fold_left obj_observe dirtyProperties o) (registered (VObj l) w)).
Proof.
  intros Ho H. rewrite <- (focus_id l o w Ho) at 1.
  rewrite (register_focus n l o w H). reflexivity.
Qed.

Lemma accessors_obj_construct x y width height nx o :
  accessors (obj_construct x y width height nx o) = accessors o.
Proof. unfold obj_construct. now rewrite !accessors_obj_assign. Qed.

Lemma observable_construct x y width height nx o :
  accessors o = [] ->
  observable dirtyProperties (accessors (obj_construct x y width height nx o)) = true.
Proof. intros H. rewrite accessors_obj_construct, H. vm_compute. reflexivity. Qed.

Lemma allocated_lookup w :
  heap (allocated w) !! next_loc w = Some pivot_literal /\
  heap (allocated w) !! S (next_loc w) = Some anchor_literal /\
  heap (allocated w) !! S (S (next_loc w)) = Some stretch_literal /\
  heap (allocated w) !! S (S (S (next_loc w))) = Some offset_literal.
Proof.
  unfold allocated. cbn [heap].
  split; [| split; [| split]];
    repeat first [ apply lookup_insert_eq | rewrite lookup_insert_ne by lia ].
Qed.

Lemma bind_assoc_run {A B C} (m : M A) (k : A -> M B) (k2 : B -> M C) w :
  bind (bind m k) k2 w = bind m (fun a => bind (k a) k2) w.
Proof. unfold bind. now destruct (m w) as [[a | e |] w1]. Qed.

Lemma new_object_as_focus c props w :
  new_object c props w =
  (Ret (VObj (next_loc w)),
   focus (next_loc w) (mkObj c [] props)
     (mkWorld (host w) (heap w) (S (next_loc w)) (ui w) (context w))).
Proof. reflexivity. Qed.

(** *** The constructors *)

(** a computation that leaves the world as it is but for the node under
    construction, which stays unobserved *)
Definition keeps {A} (l : loc) (m : M A) : Prop :=
  forall o w r w1,
    accessors o = [] -> proxied_free o ->
    m (focus l o w) = (r, w1) ->
    exists o', w1 = focus l o' w /\ accessors o' = [] /\ proxied_free o'.

(** a computation that, begun on an unobserved node at [l], hands out
    nothing but nodes with the defaults and pivot [(p, p)] *)
Definition good (p : float) (l : loc) (m : M jsval) : Prop :=
  forall o w node w',
    accessors o = [] -> proxied_free o -> l < next_loc w ->
    m (focus l o w) = (Ret node, w') ->
    fst (read_defaults node w') = Ret (defaults p).

Lemma keeps_reader {A} l (m : M A) : reader m -> keeps l m.
Proof.
  intros Hr o w r w1 Ha Hf H.
  pose proof (reader_readonly _ Hr (focus l o w)) as E. rewrite H in E. cbn in E.
  subst w1. now exists o.
Qed.

Lemma keeps_set_prop n l name v : keeps l (set_prop n (VObj l) name v).
Proof.
  intros o w r w1 Ha Hf H. rewrite set_prop_focus in H by now rewrite Ha.
  exists (obj_assign name v o).
  split; [congruence |]. split; [now rewrite accessors_obj_assign |].
  now apply proxied_free_assign.
Qed.

Lemma keeps_bind {A B} l (m : M A) (k : A -> M B) :
  keeps l m -> (forall a, keeps l (k a)) -> keeps l (bind m k).
Proof.
  intros Hm Hk o w r w1 Ha Hf H. unfold bind in H.
  destruct (m (focus l o w)) as [[a | e |] w2] eqn:E;
    destruct (Hm _ _ _ _ Ha Hf E) as (o' & -> & Ha' & Hf').
  - now apply (Hk a o' w r w1).
  - exists o'. split; [congruence | now split].
  - exists o'. split; [congruence | now split].
Qed.

Lemma keeps_forEach {A} l (f : A -> M unit) xs :
  (forall a, keeps l (f a)) -> keeps l (forEach f xs).
Proof.
  intros Hf. induction xs as [| a r IH]; cbn [forEach].
  - apply keeps_reader, reader_ret.
  - apply keeps_bind; [apply Hf | intros _; exact IH].
Qed.

Ltac kp :=
  repeat (intros;
    first
      [ apply keeps_set_prop
      | solve [apply keeps_reader; ro]
      | apply keeps_forEach
      | match goal with
        | |- keeps _ (match ?x with _ => _ end) => destruct x
        | |- keeps _ (bind _ _) => apply keeps_bind
        end ]).

Lemma good_bind {A} p l (m : M A) (k : A -> M jsval) :
  keeps l m -> (forall a, good p l (k a)) -> good p l (bind m k).
Proof.
  intros Hm Hk o w node w' Ha Hf Hl H. unfold bind in H.
  destruct (m (focus l o w)) as [[a | e |] w1] eqn:E; try discriminate.
  destruct (Hm _ _ _ _ Ha Hf E) as (o' & -> & Ha' & Hf').
  now apply (Hk a o' w node w').
Qed.

Lemma good_assoc {A B} p l (m : M A) (k : A -> M B) (k2 : B -> M jsval) :
  good p l (bind m (fun a => bind (k a) k2)) -> good p l (bind (bind m k) k2).
Proof.
  intros Hg o w node w' Ha Hf Hl H. apply (Hg o w node w' Ha Hf Hl).
  now rewrite <- bind_assoc_run.
Qed.

Lemma good_throw {B} p l e (k : B -> M jsval) : good p l (bind (throw e) k).
Proof. intros o w node w' _ _ _ H. discriminate. Qed.

(** the constructor of [DisplayObject] followed by the registration *)
Lemma good_construct_register n l x y width height :
  good 0.5 l
    (bind (Frame.construct n (VObj l) x y width height)
       (fun _ => ThreeUI.register n (VObj l))).
Proof.
  intros o w node w' Ha Hf Hl H.
  rewrite (bind_Ret _ _ _ _ _ (construct_focus n l o w x y width height Ha Hl)) in H.
  rewrite register_focus in H by now apply observable_construct.
  assert (E1 := f_equal fst H). assert (E2 := f_equal snd H). cbn [fst snd] in E1, E2.
  assert (node = VObj l) as -> by congruence. subst w'.
  destruct (allocated_lookup w) as (L0 & L1 & L2 & L3).
  destruct o as [c acc fs]. cbn in Ha. subst acc.
  exact (defaults_of_fresh l c fs x y width height (next_loc w)
           (registered (VObj l) (allocated w)) pivot_literal 0.5
           Hf Hl L0 eq_refl eq_refl eq_refl L1 L2 L3).
Qed.

Lemma obj_read_pivot_construct x y width height nx o :
  obj_read "pivot" (obj_construct x y width height nx o) = VObj nx.
Proof. reflexivity. Qed.

(** the tail of the [BitmapText] constructor, which moves the pivot to the
    top left corner, followed by the registration *)
Lemma good_unpivot_register n l x y width height :
  good 0 l
    (bind
       (bind (Frame.construct n (VObj l) x y width height)
          (fun _ =>
             bind (get_prop n (VObj l) "pivot")
               (fun pivot =>
                  bind (set_prop n pivot "x" (VNum 0))
                    (fun _ =>
                       bind (get_prop n (VObj l) "pivot")
                         (fun pivot => set_prop n pivot "y" (VNum 0))))))
       (fun _ => ThreeUI.register n (VObj l))).
Proof.
  intros o w node w' Ha Hf Hl H.
  destruct (allocated_lookup w) as (L0 & L1 & L2 & L3).
  set (nx := next_loc w) in *.
  set (OC := obj_construct x y width height nx o) in *.
  assert (HaC : accessors OC = []) by (unfold OC; now rewrite accessors_obj_construct).
  assert (Mp : mem "pivot" (accessors OC) = false) by now rewrite HaC.
  rewrite bind_assoc_run in H.
  rewrite (bind_Ret _ _ _ _ _ (construct_focus n l o w x y width height Ha Hl)) in H.
  fold nx in H. fold OC in H.
  set (W1 := focus l OC (allocated w)) in *.
  assert (H1l : heap W1 !! l = Some OC) by apply heap_focus.
  assert (H1p : heap W1 !! nx = Some pivot_literal)
    by (unfold W1; rewrite heap_focus_ne by (unfold nx; lia); exact L0).
  rewrite !bind_assoc_run in H.
  rewrite (bind_Ret _ _ _ _ _ (get_prop_plain n l OC W1 "pivot" H1l Mp eq_refl)) in H.
  unfold OC in H at 1. rewrite obj_read_pivot_construct in H. fold OC in H.
  rewrite !bind_assoc_run in H.
  rewrite (bind_Ret _ _ _ _ _
             (set_prop_at n nx pivot_literal W1 "x" (VNum 0) H1p eq_refl)) in H.
  set (W2 := focus nx (obj_assign "x" (VNum 0) pivot_literal) W1) in *.
  assert (H2l : heap W2 !! l = Some OC)
    by (unfold W2; rewrite heap_focus_ne by (unfold nx; lia); exact H1l).
  assert (H2p : heap W2 !! nx = Some (obj_assign "x" (VNum 0) pivot_literal))
    by apply heap_focus.
  rewrite !bind_assoc_run in H.
  rewrite (bind_Ret _ _ _ _ _ (get_prop_plain n l OC W2 "pivot" H2l Mp eq_refl)) in H.
  unfold OC in H at 1. rewrite obj_read_pivot_construct in H. fold OC in H.
  rewrite (bind_Ret _ _ _ _ _ (set_prop_at n nx _ W2 "y" (VNum 0) H2p eq_refl)) in H.
  set (po := obj_assign "y" (VNum 0) (obj_assign "x" (VNum 0) pivot_literal)) in *.
  set (W3 := focus nx po W2) in *.
  assert (H3l : heap W3 !! l = Some OC)
    by (unfold W3; rewrite heap_focus_ne by (unfold nx; lia); exact H2l).
  rewrite (register_at n l OC W3 H3l) in H
    by (unfold OC; now apply observable_construct).
  assert (E1 := f_equal fst H). assert (E2 := f_equal snd H). cbn [fst snd] in E1, E2.
  assert (node = VObj l) as -> by congruence. subst w'.
  assert (H3p : heap W3 !! nx = Some po) by apply heap_focus.
  assert (T : forall k v, nx < k -> heap (allocated w) !! k = v -> heap W3 !! k = v).
  { intros k v Hk <-. unfold W3, W2, W1. rewrite !heap_focus_ne by lia. reflexivity. }
  destruct o as [c acc fs]. cbn in Ha. subst acc.
  exact (defaults_of_fresh l c fs x y width height nx (registered (VObj l) W3) po 0
           Hf Hl H3p eq_refl eq_refl eq_refl
           (T _ _ (Nat.lt_succ_diag_r _) L1)
           (T _ _ (Nat.lt_lt_succ_r _ _ (Nat.lt_succ_diag_r _)) L2)
           (T _ _ (Nat.lt_lt_succ_r _ _ (Nat.lt_lt_succ_r _ _ (Nat.lt_succ_diag_r _))) L3)).
Qed.

(** Breaks a constructor followed by the registration into its statements:
    what goes before the [DisplayObject] constructor keeps the node
    unobserved. *)
Ltac gd :=
  repeat (cbv beta;
    match goal with
    | |- good _ _ (bind (Frame.construct _ _ _ _ _ _) _) =>
        apply good_construct_register
    | |- good _ _ (bind (bind (Frame.construct _ _ _ _ _ _) _) _) =>
        apply good_unpivot_register
    | |- good _ _ (bind (throw _) _) => apply good_throw
    | |- good _ _ (bind (bind _ _) _) => apply good_assoc
    | |- good _ _ (bind (match ?x with _ => _ end) _) => destruct x
    | |- good _ _ (bind _ _) => apply good_bind; [solve [kp] | intros]
    end).

Lemma good_Rectangle n l color x y width height :
  good 0.5 l
    (bind (Rectangle.construct n (VObj l) color x y width height)
       (fun _ => ThreeUI.register n (VObj l))).
Proof. unfold Rectangle.construct. gd. Qed.

Lemma good_Text n l text size font color x y :
  good 0.5 l
    (bind (Text.construct n (VObj l) text size font color x y)
       (fun _ => ThreeUI.register n (VObj l))).
Proof. unfold Text.construct. gd. Qed.

Lemma good_Sprite n l assetPath x y width height sheetImagePath sheetDataPath :
  good 0.5 l
    (bind (Sprite.construct n (VObj l) assetPath x y width height
             sheetImagePath sheetDataPath)
       (fun _ => ThreeUI.register n (VObj l))).
Proof. unfold Sprite.construct, Sprite.setAssetPath. cbv zeta. gd. Qed.

Lemma good_BitmapText n l text scale x y sheetImagePath sheetDataPath :
  good 0 l
    (bind (BitmapText.construct n (VObj l) text scale x y sheetImagePath sheetDataPath)
       (fun _ => ThreeUI.register n (VObj l))).
Proof. unfold BitmapText.construct. gd. Qed.

(** a factory begins on a new, empty object of its class *)
Lemma good_factory p c (k : jsval -> M jsval) w node w' :
  is_display c = true ->
  (forall l, good p l (k (VObj l))) ->
  bind (new_object c []) k w = (Ret node, w') ->
  fst (read_defaults node w') = Ret (defaults p).
Proof.
  intros Hc Hk H.
  rewrite (bind_Ret _ _ _ _ _ (new_object_as_focus c [] w)) in H.
  refine (Hk (next_loc w) (mkObj c [] []) _ node w' eq_refl (conj Hc eq_refl) _ H).
  cbn. lia.
Qed.

Lemma construct_register_focus n l o w x y width height :
  accessors o = [] -> l < next_loc w ->
  bind (Frame.construct n (VObj l) x y width height)
    (fun _ => ThreeUI.register n (VObj l)) (focus l o w) =
  (Ret (VObj l),
   focus l (fold_left obj_observe dirtyProperties
              (obj_construct x y width height (next_loc w) o))
     (registered (VObj l) (allocated w))).
Proof.
  intros Ha Hl.
  rewrite (bind_Ret _ _ _ _ _ (construct_focus n l o w x y width height Ha Hl)).
  apply register_focus. now apply observable_construct.
Qed.

(** the factories of rectangles and texts always return *)
Lemma createRectangle_returns n color x y width height w :
  exists w', ThreeUI.createRectangle n color x y width height w =
             (Ret (VObj (next_loc w)), w').
Proof.
  unfold ThreeUI.createRectangle, Rectangle.construct.
  rewrite (bind_Ret _ _ _ _ _ (new_object_as_focus CRectangle [] w)).
  rewrite !bind_assoc_run.
  rewrite bind_set_prop_focus by reflexivity.
  rewrite construct_register_focus
    by (rewrite ?accessors_obj_assign; cbn; first [reflexivity | lia]).
  eexists. reflexivity.
Qed.

Lemma createText_returns n text font color x y w :
  exists w', ThreeUI.createText n text font color x y w = (Ret (VObj (next_loc w)), w').
Proof.
  unfold ThreeUI.createText, Text.construct.
  rewrite (bind_Ret _ _ _ _ _ (new_object_as_focus CText [] w)).
  repeat (rewrite !bind_assoc_run; rewrite bind_set_prop_focus by reflexivity).
  rewrite construct_register_focus
    by (rewrite ?accessors_obj_assign; cbn; first [reflexivity | lia]).
  eexists. reflexivity.
Qed.

(** C9: every node a factory hands out ([createSprite],
    [createSpriteFromSheet], [createRectangle], [createText],
    [createBitmapText]) reads, right after its creation, pivot (0.5, 0.5)
    (a bitmap text: (0, 0)), anchor (left, top), stretch (false, false),
    offsets 0, rotation 0, alpha 1, visible true and no parent. *)
Theorem factory_defaults n (c : factory_call) w node w' :
  run_factory n c w = (Ret node, w') ->
  fst (read_defaults node w') = Ret (defaults (default_pivot c)).
Proof.
  destruct c; cbn [run_factory default_pivot];
    unfold ThreeUI.createSprite, ThreeUI.createSpriteFromSheet, ThreeUI.createRectangle,
      ThreeUI.createText, ThreeUI.createBitmapText;
    intros H; refine (good_factory _ _ _ _ _ _ _ _ H); try reflexivity; intros l.
  - apply good_Sprite.
  - apply good_Sprite.
  - apply good_Rectangle.
  - apply good_Text.
  - apply good_BitmapText.
Qed.

Lemma factory_defaults_witness :
  fst (run_factory 1 (NewRectangle (VStr "#fff") VUndef VUndef VUndef VUndef)
         Examples.fresh) = Ret (VObj 0) /\
  fst (read_defaults (VObj 0)
         (snd (run_factory 1 (NewRectangle (VStr "#fff") VUndef VUndef VUndef VUndef)
                 Examples.fresh))) = Ret (defaults 0.5).
Proof.
  split; [vm_compute; reflexivity |].
  apply (factory_defaults 1 (NewRectangle (VStr "#fff") VUndef VUndef VUndef VUndef)
           Examples.fresh (VObj 0)).
  vm_compute. reflexivity.
Defined.

(** * Further properties of the code *)

(** ** The display list: [moveToFront] *)

(** the entries of [l] strictly equal to [d] *)
Definition occurrences (d : jsval) (l : list jsval) : list jsval :=
  List.filter (fun a => strict_eq a d) l.

(** the entries of [l] other than [d], in their order *)
Definition others (d : jsval) (l : list jsval) : list jsval :=
  List.filter (fun a => negb (strict_eq a d)) l.

(** what [indexOf] finds and what [splice] then leaves *)
Lemma splice_indexOf l v :
  match ThreeUI.indexOf l v with
  | Some i =>
      exists pre a post,
        l = pre ++ a :: post /\ ThreeUI.splice1 i l = pre ++ post /\
        strict_eq a v = true /\ occurrences v pre = []
  | None => occurrences v l = []
  end.
Proof.
  induction l as [| a l IH]; [reflexivity |].
  cbn [ThreeUI.indexOf]. destruct (strict_eq a v) eqn:E.
  - exists [], a, l. repeat split; assumption.
  - destruct (ThreeUI.indexOf l v) as [i |]; cbn [option_map].
    + destruct IH as (pre & b & post & -> & Hs & Hb & Hp).
      exists (a :: pre), b, post. cbn [ThreeUI.splice1]. rewrite Hs.
      repeat split; try assumption. unfold occurrences in *. cbn. now rewrite E.
    + unfold occurrences in *. cbn. now rewrite E.
Qed.

Lemma occurrences_app d l1 l2 : occurrences d (l1 ++ l2) = occurrences d l1 ++ occurrences d l2.
Proof. apply List.filter_app. Qed.

Lemma others_app d l1 l2 : others d (l1 ++ l2) = others d l1 ++ others d l2.
Proof. apply List.filter_app. Qed.

Lemma occurrences_hit d a l :
  strict_eq a d = true -> occurrences d (a :: l) = a :: occurrences d l.
Proof. intros H. unfold occurrences. cbn. now rewrite H. Qed.

Lemma others_hit d a l : strict_eq a d = true -> others d (a :: l) = others d l.
Proof. intros H. unfold others. cbn. now rewrite H. Qed.

Lemma moveToFront_list d w :
  displayObjects (ui (snd (ThreeUI.moveToFront d w))) =
  match ThreeUI.indexOf (displayObjects (ui w)) d with
  | Some i => ThreeUI.splice1 i (displayObjects (ui w))
  | None => displayObjects (ui w)
  end ++ [d].
Proof. reflexivity. Qed.

(** X1: after [moveToFront(d)], [d] is the last entry of the display list
    (it is rendered last, above the others), and the entries other than [d]
    are those of before, in the same order. *)
Theorem moveToFront_order d w :
  strict_eq d d = true ->
  List.last (displayObjects (ui (snd (ThreeUI.moveToFront d w)))) VUndef = d /\
  others d (displayObjects (ui (snd (ThreeUI.moveToFront d w)))) =
  others d (displayObjects (ui w)).
Proof.
  intros Hd. rewrite moveToFront_list. split; [apply List.last_last |].
  rewrite others_app, (others_hit d d [] Hd). cbn [others List.filter]. rewrite app_nil_r.
  pose proof (splice_indexOf (displayObjects (ui w)) d) as H.
  destruct (ThreeUI.indexOf (displayObjects (ui w)) d) as [i |]; [| reflexivity].
  destruct H as (pre & a & post & -> & -> & Ha & _).
  now rewrite !others_app, (others_hit d a post Ha).
Qed.

Lemma moveToFront_order_witness :
  List.last (displayObjects (ui (snd (ThreeUI.moveToFront (VObj 0) Examples.scene)))) VUndef
    = VObj 0 /\
  others (VObj 0) (displayObjects (ui (snd (ThreeUI.moveToFront (VObj 0) Examples.scene)))) =
  others (VObj 0) (displayObjects (ui Examples.scene)).
Proof. apply (moveToFront_order (VObj 0) Examples.scene). reflexivity. Defined.

(** X2: [moveToFront(d)] neither loses nor multiplies [d]: the list holds
    [d] as many times as before, and once if it did not hold it (the call
    then registers it). *)
Theorem moveToFront_occurrences d w :
  strict_eq d d = true ->
  length (occurrences d (displayObjects (ui (snd (ThreeUI.moveToFront d w))))) =
  Nat.max 1 (length (occurrences d (displayObjects (ui w)))).
Proof.
  intros Hd. rewrite moveToFront_list, occurrences_app.
  rewrite (occurrences_hit d d [] Hd). cbn [occurrences List.filter].
  pose proof (splice_indexOf (displayObjects (ui w)) d) as H.
  destruct (ThreeUI.indexOf (displayObjects (ui w)) d) as [i |].
  - destruct H as (pre & a & post & -> & -> & Ha & Hp).
    rewrite !occurrences_app, Hp, (occurrences_hit d a post Ha).
    cbn [app length]. rewrite length_app. cbn. lia.
  - rewrite H. reflexivity.
Qed.

Lemma moveToFront_occurrences_witness :
  length (occurrences (VObj 5)
            (displayObjects (ui (snd (ThreeUI.moveToFront (VObj 5) Examples.scene))))) =
  Nat.max 1 (length (occurrences (VObj 5) (displayObjects (ui Examples.scene)))).
Proof. apply (moveToFront_occurrences (VObj 5) Examples.scene). reflexivity. Defined.

(** X3: reordering does not schedule a redraw: [moveToFront] touches
    neither the dirty flag nor the canvas, so on a UI that is clean the
    [draw] that follows is a no-op and the new order is not painted. *)
Theorem moveToFront_schedules_no_redraw n d w :
  shouldReDraw (ui w) = false ->
  ThreeUI.draw n (snd (ThreeUI.moveToFront d w)) = (Ret tt, snd (ThreeUI.moveToFront d w)) /\
  context (snd (ThreeUI.moveToFront d w)) = context w /\
  heap (snd (ThreeUI.moveToFront d w)) = heap w.
Proof.
  intros H. split; [| split; reflexivity]. apply draw_clean. exact H.
Qed.

Lemma moveToFront_schedules_no_redraw_witness :
  ThreeUI.draw 3 (snd (ThreeUI.moveToFront (VObj 0) Examples.drawn)) =
    (Ret tt, snd (ThreeUI.moveToFront (VObj 0) Examples.drawn)) /\
  context (snd (ThreeUI.moveToFront (VObj 0) Examples.drawn)) = context Examples.drawn /\
  heap (snd (ThreeUI.moveToFront (VObj 0) Examples.drawn)) = heap Examples.drawn.
Proof.
  apply (moveToFront_schedules_no_redraw 3 (VObj 0) Examples.drawn).
  vm_compute. reflexivity.
Defined.

Lemma indexOf_last d r :
  strict_eq d d = true -> occurrences d r = [] ->
  ThreeUI.indexOf (r ++ [d]) d = Some (length r) /\
  ThreeUI.splice1 (length r) (r ++ [d]) = r.
Proof.
  intros Hd. induction r as [| a r IH]; intros Hr; cbn.
  - now rewrite Hd.
  - unfold occurrences in Hr. cbn in Hr.
    destruct (strict_eq a d); [discriminate |].
    destruct (IH Hr) as [-> ->]. now split.
Qed.

(** X4: on a list that holds [d] at most once, a second [moveToFront(d)]
    changes nothing. *)
Theorem moveToFront_twice d w :
  strict_eq d d = true ->
  length (occurrences d (displayObjects (ui w))) <= 1 ->
  ThreeUI.moveToFront d (snd (ThreeUI.moveToFront d w)) = ThreeUI.moveToFront d w.
Proof.
  intros Hd Hc.
  assert (H : exists r, displayObjects (ui (snd (ThreeUI.moveToFront d w))) = r ++ [d] /\
                        occurrences d r = []).
  { rewrite moveToFront_list.
    pose proof (splice_indexOf (displayObjects (ui w)) d) as H.
    destruct (ThreeUI.indexOf (displayObjects (ui w)) d) as [i |].
    - destruct H as (pre & a & post & E & -> & Ha & Hp).
      exists (pre ++ post). split; [reflexivity |].
      rewrite E, !occurrences_app, Hp, (occurrences_hit d a post Ha) in Hc. cbn in Hc.
      rewrite occurrences_app, Hp. cbn [app].
      destruct (occurrences d post); [reflexivity | cbn in Hc; lia].
    - now exists (displayObjects (ui w)). }
  destruct H as (r & Er & Hr).
  destruct (indexOf_last d r Hd Hr) as [Ei Es].
  unfold ThreeUI.moveToFront at 1. unfold modify. cbv zeta.
  rewrite Er, Ei, Es, <- Er.
  unfold ThreeUI.moveToFront, modify. cbv zeta. reflexivity.
Qed.

Lemma moveToFront_twice_witness :
  ThreeUI.moveToFront (VObj 0) (snd (ThreeUI.moveToFront (VObj 0) Examples.scene)) =
  ThreeUI.moveToFront (VObj 0) Examples.scene.
Proof.
  apply (moveToFront_twice (VObj 0) Examples.scene); [reflexivity |].
  vm_compute. lia.
Defined.

(** ** Touch and mouse events *)

Lemma reader_windowToUISpace x y : reader (ThreeUI.windowToUISpace x y).
Proof. unfold ThreeUI.windowToUISpace. ro. Qed.

Lemma reader_collect n coords listeners : forall queue,
  reader (ThreeUI.collect n coords listeners queue).
Proof.
  induction listeners as [| lis rest IH]; intros queue; cbn [ThreeUI.collect].
  - apply reader_ret.
  - apply reader_bind; [apply reader_shouldReceiveEvents |]. intros receive.
    destruct (negb (to_boolean receive)); [apply IH |].
    apply reader_bind; [apply reader_getBounds |]. intros bounds.
    destruct (ThreeUI.isInBoundingBox _ _ _ _ _ _); apply IH.
Qed.

Lemma clickHandler_shadowed callbacks n event w :
  is_TouchEvent event = false -> is_MouseEvent event = true ->
  listeningToTouchEvents (ui w) = true ->
  ThreeUI.clickHandler callbacks n event w = (Ret [], w).
Proof.
  intros Ht Hm Hl. unfold ThreeUI.clickHandler, ThreeUI.event_coords.
  rewrite Ht, bind_ret_l.
  change (bind (gets ui) ?k w) with (k (ui w) w). cbv beta iota.
  now rewrite Hl, Hm.
Qed.

(** X5: while the UI is listening to touch events, a mouse event is
    dropped: no listener is tested, no callback is called, nothing
    changes. *)
Theorem mouse_event_dropped_while_touching callbacks n event w :
  is_TouchEvent event = false -> is_MouseEvent event = true ->
  listeningToTouchEvents (ui w) = true ->
  ThreeUI.clickHandler callbacks n event w = (Ret [], w).
Proof. apply clickHandler_shadowed. Qed.

Lemma mouse_event_dropped_while_touching_witness :
  ThreeUI.clickHandler Examples.callbacks 3 Examples.click
    (with_ui (with_listeningToTouchEvents true (ui Examples.overlap)) Examples.overlap) =
  (Ret [], with_ui (with_listeningToTouchEvents true (ui Examples.overlap)) Examples.overlap).
Proof.
  apply (mouse_event_dropped_while_touching Examples.callbacks 3 Examples.click);
    reflexivity.
Defined.

Lemma event_coords_touch event t ts w :
  is_TouchEvent event = true -> touches event = t :: ts ->
  ThreeUI.event_coords event w =
  (Ret (Some t), with_ui (with_listeningToTouchEvents true (ui w)) w).
Proof. intros H1 H2. unfold ThreeUI.event_coords. now rewrite H1, H2. Qed.

Lemma fire_keeps_touch_flag callbacks :
  (forall k w0, listeningToTouchEvents (ui (snd (callbacks k w0))) =
                listeningToTouchEvents (ui w0)) ->
  forall queue w0,
    listeningToTouchEvents (ui (snd (ThreeUI.fire callbacks queue w0))) =
    listeningToTouchEvents (ui w0).
Proof.
  intros H. induction queue as [| c rest IH]; intros w0; cbn [ThreeUI.fire]; [reflexivity |].
  unfold bind at 1. specialize (H c w0).
  destruct (callbacks c w0) as [[[] | e |] w1]; cbn [snd] in *; try assumption.
  unfold bind, ret. specialize (IH w1).
  destruct (ThreeUI.fire callbacks rest w1) as [[f | e |] w2]; cbn [snd] in *; congruence.
Qed.

(** X6: a touch event that carries a touch point leaves the UI listening
    to touch events (the callbacks not touching that flag), however the
    handler ends; the mouse event that the browser sends after it is then
    dropped. *)
Theorem touch_shadows_mouse callbacks n touch mouse w r w' :
  (forall k w0, listeningToTouchEvents (ui (snd (callbacks k w0))) =
                listeningToTouchEvents (ui w0)) ->
  is_TouchEvent touch = true -> touches touch <> [] ->
  is_TouchEvent mouse = false -> is_MouseEvent mouse = true ->
  ThreeUI.clickHandler callbacks n touch w = (r, w') ->
  listeningToTouchEvents (ui w') = true /\
  ThreeUI.clickHandler callbacks n mouse w' = (Ret [], w').
Proof.
  intros Hcb Ht Hne Hm1 Hm2 H.
  destruct (touches touch) as [| t ts] eqn:Et; [now destruct Hne |].
  assert (Hw : listeningToTouchEvents (ui w') = true).
  { unfold ThreeUI.clickHandler in H.
    rewrite (bind_Ret _ _ _ _ _ (event_coords_touch _ _ _ w Ht Et)) in H.
    set (w1 := with_ui (with_listeningToTouchEvents true (ui w)) w) in *.
    assert (F1 : listeningToTouchEvents (ui w1) = true) by reflexivity.
    unfold bind at 1 in H. unfold gets at 1 in H. cbv beta iota in H.
    rewrite F1 in H. cbn [andb] in H.
    destruct (is_MouseEvent touch).
    - apply (f_equal snd) in H. cbn [snd] in H. now subst w'.
    - rewrite bind_ro in H by apply reader_readonly, reader_windowToUISpace.
      destruct (fst (ThreeUI.windowToUISpace (fst t) (snd t) w1)) as [coords | e |];
        try (apply (f_equal snd) in H; cbn [snd] in H; now subst w').
      rewrite bind_ro in H by apply reader_readonly, reader_collect.
      destruct (fst (ThreeUI.collect n coords (eventListeners_click (ui w1)) [] w1))
        as [queue | e |];
        try (apply (f_equal snd) in H; cbn [snd] in H; now subst w').
      rewrite <- F1, <- (fire_keeps_touch_flag callbacks Hcb queue w1). now rewrite H. }
  split; [exact Hw | now apply clickHandler_shadowed].
Qed.

Lemma touch_shadows_mouse_witness :
  listeningToTouchEvents
    (ui (snd (ThreeUI.clickHandler (fun _ => ret tt) 3
                (mkEvent true false [(VNum 60, VNum 60)] VUndef VUndef)
                Examples.overlap))) = true /\
  ThreeUI.clickHandler (fun _ => ret tt) 3 Examples.click
    (snd (ThreeUI.clickHandler (fun _ => ret tt) 3
            (mkEvent true false [(VNum 60, VNum 60)] VUndef VUndef) Examples.overlap)) =
  (Ret [],
   snd (ThreeUI.clickHandler (fun _ => ret tt) 3
          (mkEvent true false [(VNum 60, VNum 60)] VUndef VUndef) Examples.overlap)).
Proof.
  apply (touch_shadows_mouse (fun _ => ret tt) 3
           (mkEvent true false [(VNum 60, VNum 60)] VUndef VUndef) Examples.click
           Examples.overlap
           (fst (ThreeUI.clickHandler (fun _ => ret tt) 3
                   (mkEvent true false [(VNum 60, VNum 60)] VUndef VUndef)
                   Examples.overlap)));
    [reflexivity | reflexivity | discriminate | reflexivity | reflexivity
    | apply surjective_pairing].
Defined.

(** X7: a touch event without coordinates (no touch point, and [pageX] or
    [pageY] falsy, 0 included) calls no callback and switches the listening
    to touch events off, so that mouse events count again; nothing else
    changes. *)
Theorem touch_without_coordinates callbacks n event w :
  is_TouchEvent event = true -> touches event = [] ->
  to_boolean (pageX event) && to_boolean (pageY event) = false ->
  ThreeUI.clickHandler callbacks n event w =
  (Ret [], with_ui (with_listeningToTouchEvents false (ui w)) w).
Proof.
  intros Ht He Hp. unfold ThreeUI.clickHandler, ThreeUI.event_coords.
  rewrite Ht, He, Hp. reflexivity.
Qed.

Lemma touch_without_coordinates_witness :
  ThreeUI.clickHandler Examples.callbacks 3 (mkEvent true false [] (VNum 0) (VNum 60))
    Examples.overlap =
  (Ret [], with_ui (with_listeningToTouchEvents false (ui Examples.overlap)) Examples.overlap).
Proof.
  apply (touch_without_coordinates Examples.callbacks 3
           (mkEvent true false [] (VNum 0) (VNum 60)) Examples.overlap);
    reflexivity.
Defined.

(** ** Writes through and past the accessors *)

(** X8: on an observed node, a write to a tracked property other than
    [visible] can be read back: the read that follows gives the value
    written. *)
Theorem observed_write_then_read n w l o p v w' :
  heap w !! l = Some o -> observed o = true -> In p dirtyProperties -> p <> "visible" ->
  set_prop n (VObj l) p v w = (Ret tt, w') ->
  get_prop n (VObj l) p w' = (Ret v, w').
Proof.
  intros Ho Hobs Hp Hv H.
  pose proof (observed_accessor o p Hobs Hp) as Hacc.
  assert (Hk : String.eqb (proxyKey p) "_proxied_visible" = false).
  { apply String.eqb_neq. intros E. now apply Hv, proxyKey_visible. }
  unfold set_prop in H. rewrite (bind_Ret _ _ _ _ _ (deref_Some _ _ _ Ho)), Hacc in H.
  rewrite bind_ro in H by ro.
  destruct (fst (get_prop n (VObj l) p w)) as [cur | e |]; try discriminate H.
  assert (Hw : exists w0, w' = focus l (obj_assign (proxyKey p) v o) w0).
  { destruct (negb (strict_eq cur v)).
    - unfold set_shouldReDraw at 1 in H.
      rewrite (bind_Ret _ _ w tt (with_ui (with_shouldReDraw true (ui w)) w) eq_refl) in H.
      rewrite (assign_runs l (proxyKey p) v (with_ui (with_shouldReDraw true (ui w)) w) o Ho)
        in H.
      apply (f_equal snd) in H. cbn [snd] in H. eexists. symmetry. exact H.
    - rewrite bind_ret_l, (assign_runs l (proxyKey p) v w o Ho) in H.
      apply (f_equal snd) in H. cbn [snd] in H. eexists. symmetry. exact H. }
  destruct Hw as (w0 & ->).
  rewrite (get_prop_observed n l _ _ p (heap_focus l _ w0)); [| | exact Hk].
  - f_equal. f_equal. unfold obj_assign. rewrite Hk. cbn [andb].
    unfold obj_read, obj_store. cbn [fields field_lookup]. now rewrite String.eqb_refl.
  - now rewrite accessors_obj_assign.
Qed.

Lemma observed_write_then_read_witness :
  get_prop 1 (VObj 0) "rotation"
    (snd (set_prop 1 (VObj 0) "rotation" (VNum 45) Examples.scene)) =
  (Ret (VNum 45), snd (set_prop 1 (VObj 0) "rotation" (VNum 45) Examples.scene)).
Proof.
  apply (observed_write_then_read 1 Examples.scene 0
           (default (mkObj CPlain [] []) (heap Examples.scene !! 0)) "rotation" (VNum 45));
    [ vm_compute; reflexivity | vm_compute; reflexivity
    | unfold dirtyProperties; do 4 right; left; reflexivity
    | discriminate
    | vm_compute; reflexivity ].
Defined.

(** X9: a write to a property for which the object carries no accessor (on
    a node: any property outside [dirtyProperties], such as a text's size,
    font or line height; on the pivot, anchor, stretch and offset objects:
    any property) returns, changes that object alone and leaves the dirty
    flag as it was: no redraw is scheduled. *)
Theorem unobserved_write_schedules_no_redraw n w l o name v :
  heap w !! l = Some o -> mem name (accessors o) = false ->
  exists w',
    set_prop n (VObj l) name v w = (Ret tt, w') /\
    ui w' = ui w /\ context w' = context w /\
    forall l', l' <> l -> heap w' !! l' = heap w !! l'.
Proof.
  intros Ho Hm. unfold set_prop.
  rewrite (bind_Ret _ _ _ _ _ (deref_Some _ _ _ Ho)), Hm, (assign_runs l name v w o Ho).
  eexists. split; [reflexivity |]. split; [reflexivity |]. split; [reflexivity |].
  intros l' Hl. cbn. now apply lookup_insert_ne.
Qed.

Lemma unobserved_write_schedules_no_redraw_witness :
  exists w',
    set_prop 1 (VObj 1) "x" (VNum 0) Examples.drawn = (Ret tt, w') /\
    ui w' = ui Examples.drawn /\ context w' = context Examples.drawn /\
    forall l', l' <> 1 -> heap w' !! l' = heap Examples.drawn !! l'.
Proof.
  apply (unobserved_write_schedules_no_redraw 1 Examples.drawn 1
           (default (mkObj CPlain [] []) (heap Examples.drawn !! 1)) "x" (VNum 0));
    vm_compute; reflexivity.
Defined.

(** ** The root container *)

(** X10: the logical height of a constructed UI is never 0 and never NaN:
    it is the height asked for when that is a truthy number, and 720 when
    it is missing, 0 or NaN. *)
Theorem constructed_height h height renderOnQuad :
  to_boolean (VNum (ui_height (ui (ThreeUI.construct h height renderOnQuad)))) = true /\
  (forall x, height = Some x -> to_boolean (VNum x) = true ->
             ui_height (ui (ThreeUI.construct h height renderOnQuad)) = x) /\
  (forall x, height = Some x -> to_boolean (VNum x) = false ->
             ui_height (ui (ThreeUI.construct h height renderOnQuad)) = 720%float) /\
  (height = None -> ui_height (ui (ThreeUI.construct h height renderOnQuad)) = 720%float).
Proof.
  change (ui_height (ui (ThreeUI.construct h height renderOnQuad)))
    with (ThreeUI.height_or_default height).
  unfold ThreeUI.height_or_default. destruct height as [x |].
  - destruct (to_boolean (VNum x)) eqn:E.
    + split; [exact E |]. split; [| split]; intros; congruence.
    + split; [reflexivity |]. split; [| split]; intros; congruence.
  - split; [reflexivity |]. split; [| split]; intros; congruence.
Qed.

(** ** Bounds: the parent, the anchors, the offsets *)

Lemma frame_getParentBounds_invalid k f this w p :
  fst (get_prop 0 this "parent" w) = Ret p ->
  typeof_undefined p = false ->
  fst (instanceof_DisplayObject p w) = Ret false ->
  Frame.getParentBounds k f this w =
  (Throw (Error "DisplayObject.parent should always be an instance of DisplayObject"), w).
Proof.
  intros Hp Hu Hi. unfold Frame.getParentBounds.
  rewrite (bind_Ret _ _ _ _ _ (get_prop_from_0 k _ _ _ _ Hp)), Hu.
  now rewrite (bind_Ret _ _ _ _ _
                 (ro_eq _ _ _ (reader_readonly _ (reader_instanceof _)) Hi)).
Qed.

(** X11: a node whose [parent] holds anything but undefined or a display
    object ([null] included, a number, a string, a plain object) has no
    bounds: [getBounds] throws the error "DisplayObject.parent should always
    be an instance of DisplayObject", on a stretched node as on an anchored
    one, and leaves the world as it is. *)
Theorem getBounds_rejects_invalid_parent n l w p :
  stretch_readable w l = true ->
  fst (get_prop 0 (VObj l) "parent" w) = Ret p ->
  typeof_undefined p = false ->
  fst (instanceof_DisplayObject p w) = Ret false ->
  DisplayObject.getBounds (S n) (VObj l) w =
  (Throw (Error "DisplayObject.parent should always be an instance of DisplayObject"), w).
Proof.
  intros Hs Hp Hu Hi.
  destruct (get_prop_heap _ _ _ _ _ Hp) as [o Ho].
  destruct (get_prop_total n l "x" w o Ho) as (vx & Hx & _); try discriminate.
  destruct (get_prop_total n l "y" w o Ho) as (vy & Hy & _); try discriminate.
  destruct (stretch_readable_inv _ _ Hs) as (s & sx & sy & Hst & Hsx & Hsy).
  pose proof (frame_getParentBounds_invalid n (DisplayObject.getBounds n) _ _ _ Hp Hu Hi)
    as Hpb.
  cbn [DisplayObject.getBounds]. unfold Frame.getBounds. apply bind_Throw.
  unfold Frame.determinePositionInCanvas.
  rewrite (bind_Ret _ _ _ _ _ Hx), (bind_Ret _ _ _ _ _ Hy).
  rewrite (bind_Ret _ _ _ _ _ (get_prop_from_0 n _ _ _ _ Hst)).
  rewrite (bind_Ret _ _ _ _ _ (get_prop_from_0 n _ _ _ _ Hsx)).
  rewrite (bind_Ret _ _ _ _ _ (get_prop_from_0 n _ _ _ _ Hsy)).
  destruct (to_boolean sx || to_boolean sy).
  - apply bind_Throw. now apply bind_Throw.
  - rewrite bind_ret_l.
    apply bind_Throw. unfold Frame.adjustPositionForAnchor. now apply bind_Throw.
Qed.

Lemma getBounds_rejects_invalid_parent_witness :
  DisplayObject.getBounds 1 (VObj 0) Examples.null_parent =
  (Throw (Error "DisplayObject.parent should always be an instance of DisplayObject"),
   Examples.null_parent).
Proof.
  apply (getBounds_rejects_invalid_parent 0 0 Examples.null_parent VNull);
    vm_compute; reflexivity.
Defined.

(** the value one axis of [adjustPositionForAnchor] gives *)
Definition anchor_value (a lo hi : jsval) (origin size v : float) : float :=
  if strict_eq a lo then (origin + v)%float
  else if strict_eq a hi then (origin + size - v)%float
  else if strict_eq a anchors.center then (origin + size * 0.5 + v)%float
  else v.

Lemma anchored_runs n this w axis lo hi o s v an a :
  fst (get_prop 0 this "anchor" w) = Ret an ->
  fst (get_prop 0 an axis w) = Ret a ->
  Frame.anchored n this axis lo hi o s v w = (Ret (anchor_value a lo hi o s v), w).
Proof.
  intros Han Ha. unfold Frame.anchored, anchor_value.
  rewrite (bind_Ret _ _ _ _ _ (get_prop_from_0 n _ _ _ _ Han)).
  rewrite (bind_Ret _ _ _ _ _ (get_prop_from_0 n _ _ _ _ Ha)).
  destruct (strict_eq a lo); [reflexivity |].
  destruct (strict_eq a hi); [reflexivity |].
  destruct (strict_eq a anchors.center); reflexivity.
Qed.

(** X12: the bounds of a node that is stretched on no axis, under parent
    bounds [pb].  Width and height are the node's own when they are
    numbers, else 0.  On each axis the position is measured from the
    parent's near edge for the anchors left and top, backwards from its far
    edge for right and bottom, from its middle for center, and is the raw
    coordinate, whatever the parent, for any other anchor value; the pivot
    share of the raw size is then subtracted. *)
Theorem unstretched_bounds n this w fs pb :
  fst (read_fields this w) = Ret fs ->
  to_boolean (f_stretch_x fs) = false -> to_boolean (f_stretch_y fs) = false ->
  fst (DisplayObject.getParentBounds n this w) = Ret pb ->
  let num := to_number (StringToNumber (host w)) in
  let x := number_or_zero (f_x fs) in
  let y := number_or_zero (f_y fs) in
  let dx := (num (f_width fs) * num (f_pivot_x fs))%float in
  let dy := (num (f_height fs) * num (f_pivot_y fs))%float in
  exists bounds,
    DisplayObject.getBounds (S n) this w = (Ret bounds, w) /\
    Bounds.width bounds = number_or_zero (f_width fs) /\
    Bounds.height bounds = number_or_zero (f_height fs) /\
    (f_anchor_x fs = anchors.left ->
     Bounds.x bounds = (Bounds.x pb + x - dx)%float) /\
    (f_anchor_x fs = anchors.right ->
     Bounds.x bounds = (Bounds.x pb + Bounds.width pb - x - dx)%float) /\
    (f_anchor_x fs = anchors.center ->
     Bounds.x bounds = (Bounds.x pb + Bounds.width pb * 0.5 + x - dx)%float) /\
    (strict_eq (f_anchor_x fs) anchors.left = false ->
     strict_eq (f_anchor_x fs) anchors.right = false ->
     strict_eq (f_anchor_x fs) anchors.center = false ->
     Bounds.x bounds = (x - dx)%float) /\
    (f_anchor_y fs = anchors.top ->
     Bounds.y bounds = (Bounds.y pb + y - dy)%float) /\
    (f_anchor_y fs = anchors.bottom ->
     Bounds.y bounds = (Bounds.y pb + Bounds.height pb - y - dy)%float) /\
    (f_anchor_y fs = anchors.center ->
     Bounds.y bounds = (Bounds.y pb + Bounds.height pb * 0.5 + y - dy)%float) /\
    (strict_eq (f_anchor_y fs) anchors.top = false ->
     strict_eq (f_anchor_y fs) anchors.bottom = false ->
     strict_eq (f_anchor_y fs) anchors.center = false ->
     Bounds.y bounds = (y - dy)%float).
Proof.
  intros Hfs Hsx0 Hsy0 Hpb. cbv zeta.
  destruct (read_fields_inv _ _ _ Hfs)
    as [(st & an & pv & Hx & Hy & Hw & Hh & Hst & Hsx & Hsy & Han & Hax & Hay & Hpv & Hpx & Hpy) _].
  assert (Hpb' : Frame.getParentBounds n (DisplayObject.getBounds n) this w = (Ret pb, w))
    by (apply ro_eq; [ro | exact Hpb]).
  assert (Eanc : forall x y,
    Frame.adjustPositionForAnchor n (DisplayObject.getBounds n) this x y w =
    (Ret (Position.mk
            (anchor_value (f_anchor_x fs) anchors.left anchors.right
               (Bounds.x pb) (Bounds.width pb) x)
            (anchor_value (f_anchor_y fs) anchors.top anchors.bottom
               (Bounds.y pb) (Bounds.height pb) y)), w)).
  { intros x y. unfold Frame.adjustPositionForAnchor.
    rewrite (bind_Ret _ _ _ _ _ Hpb').
    rewrite (bind_Ret _ _ _ _ _ (get_prop_from_0 n _ _ _ _ Hst)).
    rewrite (bind_Ret _ _ _ _ _ (get_prop_from_0 n _ _ _ _ Hsx)).
    rewrite Hsx0. cbn [negb].
    rewrite (bind_Ret _ _ _ _ _ (anchored_runs n this w "x" _ _ _ _ _ _ _ Han Hax)).
    rewrite (bind_Ret _ _ _ _ _ (get_prop_from_0 n _ _ _ _ Hsy)).
    rewrite Hsy0. cbn [negb].
    rewrite (bind_Ret _ _ _ _ _ (anchored_runs n this w "y" _ _ _ _ _ _ _ Han Hay)).
    reflexivity. }
  assert (Epos : exists p,
    Frame.determinePositionInCanvas n (DisplayObject.getBounds n) this w = (Ret p, w) /\
    p = Position.mk
          (anchor_value (f_anchor_x fs) anchors.left anchors.right
             (Bounds.x pb) (Bounds.width pb) (number_or_zero (f_x fs)) -
           to_number (StringToNumber (host w)) (f_width fs) *
           to_number (StringToNumber (host w)) (f_pivot_x fs))%float
          (anchor_value (f_anchor_y fs) anchors.top anchors.bottom
             (Bounds.y pb) (Bounds.height pb) (number_or_zero (f_y fs)) -
           to_number (StringToNumber (host w)) (f_height fs) *
           to_number (StringToNumber (host w)) (f_pivot_y fs))%float).
  { unfold Frame.determinePositionInCanvas.
    rewrite (bind_Ret _ _ _ _ _ (get_prop_from_0 n _ _ _ _ Hx)).
    rewrite (bind_Ret _ _ _ _ _ (get_prop_from_0 n _ _ _ _ Hy)).
    rewrite (bind_Ret _ _ _ _ _ (get_prop_from_0 n _ _ _ _ Hst)).
    rewrite (bind_Ret _ _ _ _ _ (get_prop_from_0 n _ _ _ _ Hsx)).
    rewrite (bind_Ret _ _ _ _ _ (get_prop_from_0 n _ _ _ _ Hsy)).
    rewrite Hsx0, Hsy0. cbn [orb]. rewrite bind_ret_l. cbn [Position.x Position.y].
    rewrite (bind_Ret _ _ _ _ _ (Eanc _ _)). cbn [Position.x Position.y].
    rewrite (node_adjustPositionForPivot n this w fs Hfs).
    eexists. split; reflexivity. }
  assert (Edim :
    Frame.determineDimensionsInCanvas n (DisplayObject.getBounds n) this w =
    (Ret (Dimensions.mk (number_or_zero (f_width fs)) (number_or_zero (f_height fs))), w)).
  { unfold Frame.determineDimensionsInCanvas.
    rewrite (bind_Ret _ _ _ _ _ (get_prop_from_0 n _ _ _ _ Hw)).
    rewrite (bind_Ret _ _ _ _ _ (get_prop_from_0 n _ _ _ _ Hh)).
    rewrite (bind_Ret _ _ _ _ _ (get_prop_from_0 n _ _ _ _ Hst)).
    rewrite (bind_Ret _ _ _ _ _ (get_prop_from_0 n _ _ _ _ Hsx)).
    rewrite (bind_Ret _ _ _ _ _ (get_prop_from_0 n _ _ _ _ Hsy)).
    now rewrite Hsx0, Hsy0. }
  destruct Epos as (p & Epos & ->).
  cbn [DisplayObject.getBounds]. unfold Frame.getBounds.
  rewrite (bind_Ret _ _ _ _ _ Epos), (bind_Ret _ _ _ _ _ Edim).
  eexists. split; [reflexivity |].
  cbn [Bounds.x Bounds.y Bounds.width Bounds.height Position.x Position.y
       Dimensions.width Dimensions.height].
  split; [reflexivity |]. split; [reflexivity |].
  unfold anchor_value.
  split; [intros ->; reflexivity |]. split; [intros ->; reflexivity |].
  split; [intros ->; reflexivity |].
  split; [intros -> -> ->; reflexivity |].
  split; [intros ->; reflexivity |]. split; [intros ->; reflexivity |].
  split; [intros ->; reflexivity |].
  intros -> -> ->; reflexivity.
Qed.

Lemma unstretched_bounds_witness :
  exists bounds,
    DisplayObject.getBounds 1 (VObj 0) Examples.anchored = (Ret bounds, Examples.anchored) /\
    Bounds.x bounds = 1255%float /\ Bounds.y bounds = 360%float /\
    Bounds.width bounds = 30%float /\ Bounds.height bounds = 40%float.
Proof.
  destruct (unstretched_bounds 0 (VObj 0) Examples.anchored
              (mkFields (VNum 10) (VNum 20) (VNum 30) (VNum 40)
                 (VBool false) (VBool false) anchors.right anchors.center
                 (VNum 0.5) (VNum 0.5) (VNum 0) (VNum 0) (VNum 0) (VNum 0))
              (Bounds.mk 0 0 1280 720))
    as (bounds & E & Hw & Hh & _ & Hr & _ & _ & _ & _ & Hc & _);
    try (vm_compute; reflexivity).
  exists bounds. split; [exact E |].
  split; [rewrite (Hr eq_refl); vm_compute; reflexivity |].
  split; [rewrite (Hc eq_refl); vm_compute; reflexivity |].
  split; [rewrite Hw | rewrite Hh]; reflexivity.
Defined.

(** X13: an offset edge that is neither a number nor a percentage string
    (a string the pattern rejects, such as "5 %" or "-5%", a boolean, null,
    undefined) makes [getOffsetInCanvas] throw a TypeError, once the parent's
    bounds have been resolved; shown for the first edge read, [left]. *)
Theorem getOffsetInCanvas_rejects_offset n this w vl vt vr vb pb :
  fst (read_offset this w) = Ret (vl, vt, vr, vb) ->
  spec_edge (Bounds.width pb) vl = None ->
  fst (DisplayObject.getParentBounds n this w) = Ret pb ->
  exists msg, DisplayObject.getOffsetInCanvas n this w = (Throw (TypeError msg), w).
Proof.
  intros Hoff Hs Hpb.
  destruct (read_offset_inv _ _ _ _ _ _ Hoff) as (o & Ho & Hvl & Hvt & Hvr & Hvb).
  assert (Hpb' : Frame.getParentBounds n (DisplayObject.getBounds n) this w = (Ret pb, w))
    by (apply ro_eq; [ro | exact Hpb]).
  unfold DisplayObject.getOffsetInCanvas, Frame.getOffsetInCanvas.
  rewrite (bind_Ret _ _ _ _ _ (get_prop_from_0 n _ _ _ _ Ho)).
  rewrite (bind_Ret _ _ _ _ _ (get_prop_from_0 n _ _ _ _ Hvl)).
  rewrite (bind_Ret _ _ _ _ _ (get_prop_from_0 n _ _ _ _ Hvt)).
  rewrite (bind_Ret _ _ _ _ _ (get_prop_from_0 n _ _ _ _ Hvr)).
  rewrite (bind_Ret _ _ _ _ _ (get_prop_from_0 n _ _ _ _ Hvb)).
  destruct vl as [| | b | f | s | l]; try discriminate Hs;
    try (eexists; apply bind_Throw; unfold Frame.offset_entry;
         rewrite (bind_Ret _ _ _ _ _ Hpb'); reflexivity).
  cbn [spec_edge] in Hs. destruct (percent_match s) as [d |] eqn:Ed; [discriminate |].
  eexists. apply bind_Throw. unfold Frame.offset_entry.
  rewrite (bind_Ret _ _ _ _ _ Hpb'). unfold Frame.percent_capture. rewrite Ed. reflexivity.
Qed.

Lemma getOffsetInCanvas_rejects_offset_witness :
  exists msg,
    DisplayObject.getOffsetInCanvas 1 (VObj 0) Examples.malformed =
    (Throw (TypeError msg), Examples.malformed).
Proof.
  apply (getOffsetInCanvas_rejects_offset 1 (VObj 0) Examples.malformed
           (VStr "5 %") (VNum 0) (VNum 0) (VNum 0) (Bounds.mk 0 0 1280 720));
    vm_compute; reflexivity.
Defined.

Lemma append_String c d t : String.append (String c d) t = String c (String.append d t).
Proof. reflexivity. Qed.

(** X14: the percentage pattern accepts exactly the strings made of a
    non-empty run of digits and dots followed by one final percent sign, and
    captures the run: "50%", "12.5%", but also "1.2.3%" and ".%"; a sign, a
    blank, an exponent or anything after the percent sign are rejected. *)
Theorem percent_match_accepts s d :
  percent_match s = Some d <->
  s = String.append d "%" /\ d <> EmptyString /\ all_chars is_digit_or_dot d = true.
Proof.
  split.
  - revert d. induction s as [| c r IH]; intros d H; [discriminate |].
    cbn [percent_match] in H. destruct (is_digit_or_dot c) eqn:Ec; [| discriminate].
    destruct (String.eqb r "%") eqn:Er.
    + apply String.eqb_eq in Er. subst r. injection H as <-.
      cbn [all_chars]. rewrite Ec. repeat split. discriminate.
    + destruct (percent_match r) as [d' |]; [| discriminate]. injection H as <-.
      destruct (IH d' eq_refl) as (-> & Hne & Hall).
      rewrite append_String. cbn [all_chars]. rewrite Ec, Hall. repeat split. discriminate.
  - intros (-> & Hne & Hall). induction d as [| c d IH]; [contradiction |].
    cbn [all_chars] in Hall. apply andb_prop in Hall as [Hc Hall].
    rewrite append_String. cbn [percent_match]. rewrite Hc.
    destruct d as [| c' d'].
    + reflexivity.
    + assert (E : String.eqb (String.append (String c' d') "%") "%" = false).
      { rewrite append_String. cbn [String.eqb].
        destruct (Ascii.eqb c' "%") eqn:E'; [| reflexivity].
        apply Ascii.eqb_eq in E'. subst c'. cbn in Hall. discriminate. }
      rewrite E, IH; [reflexivity | discriminate | exact Hall].
Qed.

(** ** Rendering and the draw pass *)

(** X15: when the bounds of a visible node cannot be resolved, [render]
    passes the exception on after [context.save()] and before anything
    else: the state of the context stays saved, without the matching
    [restore()]. *)
Theorem render_failing_bounds n this w v e :
  fst (get_prop n this "visible" w) = Ret v -> to_boolean v = true ->
  fst (DisplayObject.getBounds n this w) = Throw e ->
  DisplayObject.render n this w = (Throw e, with_context (context w ++ [CSave]) w).
Proof.
  intros Hv Ht Hb. unfold DisplayObject.render.
  rewrite (bind_Ret _ _ _ _ _ (get_prop_run _ _ _ _ _ Hv)), Ht. cbn [negb].
  rewrite (bind_Ret _ _ w tt (with_context (context w ++ [CSave]) w) eq_refl).
  apply bind_Throw.
  rewrite (reader_getBounds n this _ w (same_layout_context _ w)). now rewrite Hb.
Qed.

Lemma render_failing_bounds_witness :
  DisplayObject.render 1 (VObj 0) Examples.null_parent =
  (Throw (Error "DisplayObject.parent should always be an instance of DisplayObject"),
   with_context (context Examples.null_parent ++ [CSave]) Examples.null_parent).
Proof.
  apply (render_failing_bounds 1 (VObj 0) Examples.null_parent (VBool true));
    vm_compute; reflexivity.
Defined.

(** [save] and [restore] *)
Definition is_bracket (op : ctx_op) : bool :=
  match op with CSave | CRestore => true | _ => false end.

Definition unbracketed (op : ctx_op) : Prop := is_bracket op = false.

(** [m] adds calls to the context, and if it returns, the last of them is
    [restore], the only bracket among them *)
Definition closes (m : M unit) (w : World) : Prop :=
  exists r ops,
    runs_as m w r ops /\
    (r = Ret tt -> exists mid, ops = mid ++ [CRestore] /\ Forall unbracketed mid).

Lemma closes_bind {A} (m : M A) (k : A -> M unit) w :
  emits unbracketed m -> (forall a, closes (k a) w) -> closes (bind m k) w.
Proof.
  intros Hm Hk. destruct (Hm w) as (r & o1 & H1 & F1).
  destruct r as [a | e |].
  - destruct (Hk a) as (r2 & o2 & H2 & F2).
    exists r2, (o1 ++ o2). split; [now apply (runs_as_bind m k w a) |].
    intros Hr. destruct (F2 Hr) as (mid & -> & Fm).
    exists (o1 ++ mid). split; [now rewrite app_assoc | now apply Forall_app].
  - destruct (runs_as_bind_stop m k w _ _ H1) as (r' & H' & N); [discriminate |].
    exists r', o1. split; [assumption |]. intros ->. now destruct (N tt).
  - destruct (runs_as_bind_stop m k w _ _ H1) as (r' & H' & N); [discriminate |].
    exists r', o1. split; [assumption |]. intros ->. now destruct (N tt).
Qed.

Lemma closes_restore w : closes (ctx_call CRestore) w.
Proof.
  exists (Ret tt), [CRestore]. split; [apply runs_as_ctx_call |].
  intros _. exists []. now split.
Qed.

Lemma emits_draw_unbracketed n this bounds :
  emits unbracketed (DisplayObject.draw n this bounds).
Proof.
  apply (emits_weaken called); [| apply emits_draw].
  intros op [H | H]; destruct op; try reflexivity; discriminate.
Qed.

(** X16: a [render] of a visible node that returns has bracketed its calls
    on the context: [save] first, [restore] last, and neither of them in
    between; nothing but the context has changed. *)
Theorem render_balanced n this w v w' :
  fst (get_prop n this "visible" w) = Ret v -> to_boolean v = true ->
  DisplayObject.render n this w = (Ret tt, w') ->
  exists mid,
    w' = with_context (context w ++ CSave :: mid ++ [CRestore]) w /\
    Forall unbracketed mid.
Proof.
  intros Hv Ht. unfold DisplayObject.render.
  rewrite (bind_Ret _ _ _ _ _ (get_prop_run _ _ _ _ _ Hv)), Ht. cbn [negb].
  rewrite (bind_Ret _ _ w tt (with_context (context w ++ [CSave]) w) eq_refl).
  match goal with
  | |- ?m (with_context ?c w) = _ -> _ => assert (C : closes m w)
  end.
  { repeat (apply closes_bind; [solve [em | apply emits_draw_unbracketed] | intros]).
    apply closes_restore. }
  destruct C as (r & ops & H & F). rewrite H. intros E.
  assert (E1 := f_equal fst E). assert (E2 := f_equal snd E). cbn [fst snd] in E1, E2.
  destruct (F E1) as (mid & -> & Fm). exists mid. split; [| exact Fm].
  rewrite <- E2, <- app_assoc. reflexivity.
Qed.

Lemma render_balanced_witness :
  exists mid,
    snd (DisplayObject.render 3 (VObj 0) Examples.scene) =
    with_context (context Examples.scene ++ CSave :: mid ++ [CRestore]) Examples.scene /\
    Forall unbracketed mid.
Proof.
  apply (render_balanced 3 (VObj 0) Examples.scene (VBool true));
    vm_compute; reflexivity.
Defined.

(** X17: a pass in which some node's [render] fails is not closed: the
    canvas has been cleared and the nodes before the failing one have been
    drawn, but the dirty flag is still set (the next [draw] starts over),
    the texture is not marked, and no node has changed. *)
Theorem failed_pass_stays_due n w :
  shouldReDraw (ui w) = true ->
  fst (ThreeUI.draw n w) <> Ret tt ->
  ui (snd (ThreeUI.draw n w)) = ui w /\
  heap (snd (ThreeUI.draw n w)) = heap w /\
  exists ops, context (snd (ThreeUI.draw n w)) = context w ++ clear_call (ui w) :: ops.
Proof.
  intros Hd Hf. destruct (draw_due n w Hd) as (r & ops & H1 & H2 & _).
  assert (Hr : r <> Ret tt).
  { intros ->. apply Hf. now rewrite (H1 eq_refl). }
  rewrite (H2 Hr). cbn [snd]. split; [reflexivity |]. split; [reflexivity |].
  now exists ops.
Qed.

Lemma failed_pass_stays_due_witness :
  ui (snd (ThreeUI.draw 1 Examples.null_parent)) = ui Examples.null_parent /\
  heap (snd (ThreeUI.draw 1 Examples.null_parent)) = heap Examples.null_parent /\
  exists ops,
    context (snd (ThreeUI.draw 1 Examples.null_parent)) =
    context Examples.null_parent ++ clear_call (ui Examples.null_parent) :: ops.
Proof.
  apply (failed_pass_stays_due 1 Examples.null_parent).
  - vm_compute. reflexivity.
  - vm_compute. discriminate.
Defined.

(** X18: [resize] schedules a pass: the [draw] that follows it clears the
    canvas, whatever the state of the dirty flag before. *)
Theorem resize_schedules_pass n w :
  exists ops,
    context (snd (ThreeUI.draw n (snd (ThreeUI.resize w)))) =
    context w ++ clear_call (ui (snd (ThreeUI.resize w))) :: ops.
Proof.
  destruct (draw_due n (snd (ThreeUI.resize w)) eq_refl) as (r & ops & H1 & H2 & _).
  exists ops. destruct r as [[] | e |].
  - now rewrite (H1 eq_refl).
  - rewrite H2 by discriminate. reflexivity.
  - rewrite H2 by discriminate. reflexivity.
Qed.

(** ** Hit testing *)

Lemma is_nan_spec x : is_nan x = true -> Prim2SF x = S754_nan.
Proof.
  unfold is_nan. rewrite FloatAxioms.eqb_spec.
  destruct (Prim2SF x) as [s | s | | s m e]; try reflexivity; unfold SFeqb, SFcompare.
  - discriminate.
  - destruct s; discriminate.
  - rewrite Z.compare_refl. destruct s; rewrite Pos.compare_cont_refl; discriminate.
Qed.

Lemma is_nan_intro x : Prim2SF x = S754_nan -> is_nan x = true.
Proof. intros H. unfold is_nan. now rewrite FloatAxioms.eqb_spec, H. Qed.

Lemma leb_nan_l a b : is_nan a = true -> (a <=? b)%float = false.
Proof. intros H. now rewrite FloatAxioms.leb_spec, (is_nan_spec a H). Qed.

Lemma leb_nan_r a b : is_nan b = true -> (a <=? b)%float = false.
Proof.
  intros H. rewrite FloatAxioms.leb_spec, (is_nan_spec b H).
  unfold SFleb, SFcompare. now destruct (Prim2SF a).
Qed.

Lemma add_nan_r a b : is_nan b = true -> is_nan (a + b)%float = true.
Proof.
  intros H. apply is_nan_intro. rewrite FloatAxioms.add_spec, (is_nan_spec b H).
  unfold FloatAxioms.SF64add, SFadd. now destruct (Prim2SF a).
Qed.

(** X19: a point with a NaN coordinate is in no bounding box, and a
    bounding box with a NaN position or size holds no point. *)
Theorem isInBoundingBox_nan x y boundX boundY boundWidth boundHeight :
  is_nan x || is_nan y || is_nan boundX || is_nan boundY ||
  is_nan boundWidth || is_nan boundHeight = true ->
  ThreeUI.isInBoundingBox x y boundX boundY boundWidth boundHeight = false.
Proof.
  intros H. unfold ThreeUI.isInBoundingBox.
  rewrite !orb_true_iff in H. destruct H as [[[[[H | H] | H] | H] | H] | H].
  - now rewrite (leb_nan_r boundX x H).
  - now rewrite (leb_nan_r boundY y H), !andb_false_r.
  - now rewrite (leb_nan_l boundX x H).
  - now rewrite (leb_nan_l boundY y H), !andb_false_r.
  - now rewrite (leb_nan_r x _ (add_nan_r boundX boundWidth H)), !andb_false_r.
  - now rewrite (leb_nan_r y _ (add_nan_r boundY boundHeight H)), !andb_false_r.
Qed.

Lemma isInBoundingBox_nan_witness :
  ThreeUI.isInBoundingBox 5 5 0 0 nan 10 = false.
Proof. apply (isInBoundingBox_nan 5 5 0 0 nan 10). reflexivity. Defined.

(** ** What a factory leaves behind *)

Lemma accessors_fold_observe props : forall o,
  accessors (fold_left obj_observe props o) = rev props ++ accessors o.
Proof.
  induction props as [| p r IH]; intros o; [reflexivity |].
  cbn [fold_left rev]. rewrite IH, accessors_obj_observe, <- app_assoc. reflexivity.
Qed.

Lemma observed_fold_observe o :
  accessors o = [] -> observed (fold_left obj_observe dirtyProperties o) = true.
Proof.
  intros H. unfold observed. rewrite accessors_fold_observe, H. vm_compute. reflexivity.
Qed.

(** what a factory working on the new object at [l] leaves of the world
    [w] it began in: it makes no call on the context; when it returns, it
    returns that object, now observed and last in the display list, the
    root being otherwise as before; when it does not, the root is as
    before *)
Definition factory_result (l : loc) (r : outcome jsval) (w w' : World) : Prop :=
  context w' = context w /\
  match r with
  | Ret node =>
      node = VObj l /\
      ui w' = ui (registered (VObj l) w) /\
      exists o, heap w' !! l = Some o /\ observed o = true
  | _ => ui w' = ui w
  end.

Definition made (l : loc) (m : M jsval) : Prop :=
  forall o w r w',
    accessors o = [] -> proxied_free o -> l < next_loc w ->
    m (focus l o w) = (r, w') -> factory_result l r w w'.

Lemma made_bind {A} l (m : M A) (k : A -> M jsval) :
  keeps l m -> (forall a, made l (k a)) -> made l (bind m k).
Proof.
  intros Hm Hk o w r w' Ha Hf Hl H. unfold bind in H.
  destruct (m (focus l o w)) as [[a | e |] w1] eqn:E;
    destruct (Hm _ _ _ _ Ha Hf E) as (o' & -> & Ha' & Hf').
  - now apply (Hk a o' w r w').
  - assert (E1 := f_equal fst H). assert (E2 := f_equal snd H). cbn [fst snd] in E1, E2.
    subst r w'. now split.
  - assert (E1 := f_equal fst H). assert (E2 := f_equal snd H). cbn [fst snd] in E1, E2.
    subst r w'. now split.
Qed.

Lemma made_assoc {A B} l (m : M A) (k : A -> M B) (k2 : B -> M jsval) :
  made l (bind m (fun a => bind (k a) k2)) -> made l (bind (bind m k) k2).
Proof.
  intros Hg o w r w' Ha Hf Hl H. apply (Hg o w r w' Ha Hf Hl).
  now rewrite <- bind_assoc_run.
Qed.

Lemma made_throw {B} l e (k : B -> M jsval) : made l (bind (throw e) k).
Proof.
  intros o w r w' _ _ _ H.
  assert (E1 := f_equal fst H). assert (E2 := f_equal snd H). cbn in E1, E2.
  subst r w'. now split.
Qed.

Lemma made_construct_register n l x y width height :
  made l
    (bind (Frame.construct n (VObj l) x y width height)
       (fun _ => ThreeUI.register n (VObj l))).
Proof.
  intros o w r w' Ha Hf Hl H.
  rewrite (construct_register_focus n l o w x y width height Ha Hl) in H.
  assert (E1 := f_equal fst H). assert (E2 := f_equal snd H). cbn [fst snd] in E1, E2.
  subst r w'. split; [reflexivity |]. split; [reflexivity |]. split; [reflexivity |].
  eexists. split; [apply heap_focus |].
  apply observed_fold_observe. now rewrite accessors_obj_construct.
Qed.

Lemma made_unpivot_register n l x y width height :
  made l
    (bind
       (bind (Frame.construct n (VObj l) x y width height)
          (fun _ =>
             bind (get_prop n (VObj l) "pivot")
               (fun pivot =>
                  bind (set_prop n pivot "x" (VNum 0))
                    (fun _ =>
                       bind (get_prop n (VObj l) "pivot")
                         (fun pivot => set_prop n pivot "y" (VNum 0))))))
       (fun _ => ThreeUI.register n (VObj l))).
Proof.
  intros o w r w' Ha Hf Hl H.
  destruct (allocated_lookup w) as (L0 & L1 & L2 & L3).
  set (nx := next_loc w) in *.
  set (OC := obj_construct x y width height nx o) in *.
  assert (HaC : accessors OC = []) by (unfold OC; now rewrite accessors_obj_construct).
  assert (Mp : mem "pivot" (accessors OC) = false) by now rewrite HaC.
  rewrite bind_assoc_run in H.
  rewrite (bind_Ret _ _ _ _ _ (construct_focus n l o w x y width height Ha Hl)) in H.
  fold nx in H. fold OC in H.
  set (W1 := focus l OC (allocated w)) in *.
  assert (H1l : heap W1 !! l = Some OC) by apply heap_focus.
  assert (H1p : heap W1 !! nx = Some pivot_literal)
    by (unfold W1; rewrite heap_focus_ne by (unfold nx; lia); exact L0).
  rewrite !bind_assoc_run in H.
  rewrite (bind_Ret _ _ _ _ _ (get_prop_plain n l OC W1 "pivot" H1l Mp eq_refl)) in H.
  unfold OC in H at 1. rewrite obj_read_pivot_construct in H. fold OC in H.
  rewrite !bind_assoc_run in H.
  rewrite (bind_Ret _ _ _ _ _
             (set_prop_at n nx pivot_literal W1 "x" (VNum 0) H1p eq_refl)) in H.
  set (W2 := focus nx (obj_assign "x" (VNum 0) pivot_literal) W1) in *.
  assert (H2l : heap W2 !! l = Some OC)
    by (unfold W2; rewrite heap_focus_ne by (unfold nx; lia); exact H1l).
  assert (H2p : heap W2 !! nx = Some (obj_assign "x" (VNum 0) pivot_literal))
    by apply heap_focus.
  rewrite !bind_assoc_run in H.
  rewrite (bind_Ret _ _ _ _ _ (get_prop_plain n l OC W2 "pivot" H2l Mp eq_refl)) in H.
  unfold OC in H at 1. rewrite obj_read_pivot_construct in H. fold OC in H.
  rewrite (bind_Ret _ _ _ _ _ (set_prop_at n nx _ W2 "y" (VNum 0) H2p eq_refl)) in H.
  set (po := obj_assign "y" (VNum 0) (obj_assign "x" (VNum 0) pivot_literal)) in *.
  set (W3 := focus nx po W2) in *.
  assert (H3l : heap W3 !! l = Some OC)
    by (unfold W3; rewrite heap_focus_ne by (unfold nx; lia); exact H2l).
  rewrite (register_at n l OC W3 H3l) in H
    by (unfold OC; now apply observable_construct).
  assert (E1 := f_equal fst H). assert (E2 := f_equal snd H). cbn [fst snd] in E1, E2.
  subst r w'. split; [reflexivity |]. split; [reflexivity |]. split; [reflexivity |].
  eexists. split; [apply heap_focus |]. now apply observed_fold_observe.
Qed.

Ltac md :=
  repeat (cbv beta;
    match goal with
    | |- made _ (bind (Frame.construct _ _ _ _ _ _) _) =>
        apply made_construct_register
    | |- made _ (bind (bind (Frame.construct _ _ _ _ _ _) _) _) =>
        apply made_unpivot_register
    | |- made _ (bind (throw _) _) => apply made_throw
    | |- made _ (bind (bind _ _) _) => apply made_assoc
    | |- made _ (bind (match ?x with _ => _ end) _) => destruct x
    | |- made _ (bind _ _) => apply made_bind; [solve [kp] | intros]
    end).

Lemma made_factory c (k : jsval -> M jsval) w r w' :
  is_display c = true ->
  (forall l, made l (k (VObj l))) ->
  bind (new_object c []) k w = (r, w') ->
  factory_result (next_loc w) r w w'.
Proof.
  intros Hc Hk H.
  rewrite (bind_Ret _ _ _ _ _ (new_object_as_focus c [] w)) in H.
  refine (Hk (next_loc w) (mkObj c [] []) _ r w' eq_refl (conj Hc eq_refl) _ H).
  cbn. lia.
Qed.

Lemma run_factory_result n c w r w' :
  run_factory n c w = (r, w') -> factory_result (next_loc w) r w w'.
Proof.
  destruct c; cbn [run_factory];
    unfold ThreeUI.createSprite, ThreeUI.createSpriteFromSheet, ThreeUI.createRectangle,
      ThreeUI.createText, ThreeUI.createBitmapText;
    intros H; refine (made_factory _ _ _ _ _ _ _ H); try reflexivity; intros l.
  - unfold Sprite.construct, Sprite.setAssetPath. cbv zeta. md.
  - unfold Sprite.construct, Sprite.setAssetPath. cbv zeta. md.
  - unfold Rectangle.construct. md.
  - unfold Text.construct. md.
  - unfold BitmapText.construct. md.
Qed.

(** X20: the node a factory returns is a new object (at the next free
    location), it is the last entry of the display list, whose other
    entries are as before, and it carries the observing accessor of every
    tracked property and no other. *)
Theorem factory_registers_observed_node n c w node w' :
  run_factory n c w = (Ret node, w') ->
  node = VObj (next_loc w) /\
  displayObjects (ui w') = displayObjects (ui w) ++ [node] /\
  exists o, heap w' !! next_loc w = Some o /\ observed o = true.
Proof.
  intros H. destruct (run_factory_result n c w _ _ H) as (_ & -> & Hu & Ho).
  split; [reflexivity |]. split; [now rewrite Hu | exact Ho].
Qed.

Lemma factory_registers_observed_node_witness :
  VObj 0 = VObj (next_loc Examples.fresh) /\
  displayObjects
    (ui (snd (run_factory 1 (NewText (VStr "Hello") VUndef VUndef VUndef VUndef)
                Examples.fresh))) =
  displayObjects (ui Examples.fresh) ++ [VObj 0] /\
  exists o,
    heap (snd (run_factory 1 (NewText (VStr "Hello") VUndef VUndef VUndef VUndef)
                 Examples.fresh)) !! next_loc Examples.fresh = Some o /\
    observed o = true.
Proof.
  apply (factory_registers_observed_node 1
           (NewText (VStr "Hello") VUndef VUndef VUndef VUndef) Examples.fresh (VObj 0)).
  vm_compute. reflexivity.
Defined.

(** X21: a factory call schedules no redraw and draws nothing: the dirty
    flag and the context are as before, whether the call returns or not;
    on a clean UI the node made is not painted before something else marks
    the UI dirty.  A call that does not return leaves the whole root, the
    display list included, as it was. *)
Theorem factory_schedules_no_redraw n c w r w' :
  run_factory n c w = (r, w') ->
  shouldReDraw (ui w') = shouldReDraw (ui w) /\
  context w' = context w /\
  eventListeners_click (ui w') = eventListeners_click (ui w) /\
  ((forall node, r <> Ret node) -> ui w' = ui w).
Proof.
  intros H. destruct (run_factory_result n c w _ _ H) as (Hc & Hr).
  destruct r as [node | e |].
  - destruct Hr as (_ & Hu & _). rewrite Hu.
    split; [reflexivity |]. split; [exact Hc |]. split; [reflexivity |].
    intros Hn. now destruct (Hn node).
  - rewrite Hr. auto.
  - rewrite Hr. auto.
Qed.

Lemma factory_schedules_no_redraw_witness :
  fst (run_factory 1 (NewRectangle (VStr "#fff") VUndef VUndef VUndef VUndef)
         Examples.drawn) = Ret (VObj 20) /\
  shouldReDraw
    (ui (snd (run_factory 1 (NewRectangle (VStr "#fff") VUndef VUndef VUndef VUndef)
                Examples.drawn))) = shouldReDraw (ui Examples.drawn) /\
  context (snd (run_factory 1 (NewRectangle (VStr "#fff") VUndef VUndef VUndef VUndef)
                  Examples.drawn)) = context Examples.drawn.
Proof.
  split; [vm_compute; reflexivity |].
  destruct (factory_schedules_no_redraw 1
              (NewRectangle (VStr "#fff") VUndef VUndef VUndef VUndef) Examples.drawn
              (Ret (VObj 20))
              (snd (run_factory 1 (NewRectangle (VStr "#fff") VUndef VUndef VUndef VUndef)
                      Examples.drawn)))
    as (H1 & H2 & _); [vm_compute; reflexivity |].
  now split.
Defined.

(** ** Bitmap texts *)

Lemma measure_no_data character :
  BitmapText.measure [] (Dimensions.mk 0 0) character = Dimensions.mk 0 0.
Proof. reflexivity. Qed.

(** X22: a bitmap text whose font has no character data measures
    [0 * scale] by [0 * scale], whatever its text. *)
Theorem calculateDimensions_without_data characters scale :
  BitmapText.calculateDimensions characters [] scale =
  Dimensions.mk (0 * scale) (0 * scale).
Proof.
  unfold BitmapText.calculateDimensions.
  assert (E : fold_left (BitmapText.measure []) characters (Dimensions.mk 0 0) =
              Dimensions.mk 0 0).
  { induction characters as [| c r IH]; [reflexivity |].
    cbn [fold_left]. now rewrite measure_no_data. }
  now rewrite E.
Qed.

(** the characters the font has data for *)
Definition known (characterData : list (string * BitmapText.CharData))
    (character : string) : bool :=
  match BitmapText.characterData_get characterData character with
  | Some _ => true
  | None => false
  end.

(** X23: a character the font lacks is measured as the first character of
    the font: the dimensions of a text are those of the text in which every
    such character is replaced by that first character. *)
Theorem calculateDimensions_unknown_characters first d rest characters scale :
  BitmapText.calculateDimensions characters ((first, d) :: rest) scale =
  BitmapText.calculateDimensions
    (map (fun c => if known ((first, d) :: rest) c then c else first) characters)
    ((first, d) :: rest) scale.
Proof.
  unfold BitmapText.calculateDimensions. f_equal; f_equal;
    generalize (Dimensions.mk 0 0);
    (induction characters as [| c r IH]; intros acc; [reflexivity |]);
    cbn [fold_left map]; rewrite IH; f_equal;
    unfold BitmapText.measure, known;
    destruct (BitmapText.characterData_get ((first, d) :: rest) c) eqn:E;
    rewrite ?E; try reflexivity;
    cbn [BitmapText.characterData_get]; now rewrite String.eqb_refl.
Qed.

(** the source rectangle of a call *)
Definition source (call : BitmapText.DrawImage) : BitmapText.CharData :=
  BitmapText.mkCharData (BitmapText.src_x call) (BitmapText.src_y call)
    (BitmapText.src_width call) (BitmapText.src_height call).

(** X24: [draw] makes one [drawImage] call for each character the font has
    data for, in the order of the text, and none for the others; the call
    copies the character's rectangle of the sheet, scaled by [scale], and
    every call is made at the [y] given. *)
Theorem bitmap_draw_calls characterData scale characters x y :
  map source (BitmapText.draw characterData scale characters x y) =
  flat_map (fun c => match BitmapText.characterData_get characterData c with
                     | Some data => [data]
                     | None => []
                     end) characters /\
  Forall (fun call =>
            BitmapText.dst_y call = y /\
            BitmapText.dst_width call = (BitmapText.src_width call * scale)%float /\
            BitmapText.dst_height call = (BitmapText.src_height call * scale)%float)
         (BitmapText.draw characterData scale characters x y).
Proof.
  revert x. induction characters as [| c r IH]; intros x; [split; constructor |].
  cbn [BitmapText.draw flat_map]. unfold BitmapText.drawCharacter.
  destruct (BitmapText.characterData_get characterData c) as [[dx dy dw dh] |];
    cbn.
  - destruct (IH (x + dw * scale)%float) as [IH1 IH2].
    split; [now rewrite IH1 |].
    constructor; [now repeat split | exact IH2].
  - destruct (IH (x + BitmapText.fallbackWidth * scale)%float) as [IH1 IH2].
    split; assumption.
Qed.

(** X25: a character the font lacks is not drawn, but the text moves on by
    the fallback width: the rest of the text is drawn [6 * scale] further
    right, although the same character was measured as the font's first
    character. *)
Theorem bitmap_draw_unknown_character characterData scale c rest x y :
  known characterData c = false ->
  BitmapText.draw characterData scale (c :: rest) x y =
  BitmapText.draw characterData scale rest (x + 6 * scale)%float y.
Proof.
  unfold known. intros H. cbn [BitmapText.draw]. unfold BitmapText.drawCharacter.
  now destruct (BitmapText.characterData_get characterData c).
Qed.

Lemma bitmap_draw_unknown_character_witness :
  BitmapText.draw [("A", BitmapText.mkCharData 0 0 8 10)] 2 ["?"; "A"] 100 50 =
  BitmapText.draw [("A", BitmapText.mkCharData 0 0 8 10)] 2 ["A"] (100 + 6 * 2)%float 50.
Proof.
  apply (bitmap_draw_unknown_character [("A", BitmapText.mkCharData 0 0 8 10)] 2 "?" ["A"]
           100 50).
  reflexivity.
Defined.

(** *** The methods on a node of the heap *)

(** the call on the context that [call] stands for, [sheet] being the
    image: the arguments as they are passed *)
Definition drawImage_call (sheet : loc) (call : BitmapText.DrawImage) : ctx_op :=
  CDrawImage (VObj sheet)
    [VNum (BitmapText.src_x call); VNum (BitmapText.src_y call);
     VNum (BitmapText.src_width call); VNum (BitmapText.src_height call);
     VNum (BitmapText.dst_x call); VNum (BitmapText.dst_y call);
     VNum (BitmapText.dst_width call); VNum (BitmapText.dst_height call)].

(** in world [w], the object [d] is the entry [data] of a character *)
Definition holds_data (n : nat) (w : World) (d : jsval) (data : BitmapText.CharData)
    : Prop :=
  typeof_undefined d = false /\
  fst (get_prop n d "x" w) = Ret (VNum (BitmapText.data_x data)) /\
  fst (get_prop n d "y" w) = Ret (VNum (BitmapText.data_y data)) /\
  fst (get_prop n d "width" w) = Ret (VNum (BitmapText.data_width data)) /\
  fst (get_prop n d "height" w) = Ret (VNum (BitmapText.data_height data)).

(** in world [w], node [this] is a bitmap text with these characters,
    character data and scale, and with an image [sheet] that can be drawn *)
Definition bitmap_text (n : nat) (w : World) (this : jsval) (characters : list string)
    (characterData : list (string * BitmapText.CharData)) (scale : float) (sheet : loc)
    : Prop :=
  exists chars len cd,
    fst (get_prop n this "characters" w) = Ret chars /\
    fst (get_prop n chars "length" w) = Ret len /\
    BitmapText.prototype.rounds (to_number (StringToNumber (host w)) len) =
      Some (length characters) /\
    (forall i c, characters !! i = Some c ->
                 fst (get_prop n chars (BitmapText.prototype.index_key i) w) =
                 Ret (VStr c)) /\
    fst (get_prop n this "characterData" w) = Ret cd /\
    (forall c, match BitmapText.characterData_get characterData c with
               | Some data =>
                   exists d, fst (get_prop n cd c w) = Ret d /\ holds_data n w d data
               | None => fst (get_prop n cd c w) = Ret VUndef
               end) /\
    fst (get_prop n this "scale" w) = Ret (VNum scale) /\
    fst (get_prop n this "sheet" w) = Ret (VObj sheet) /\
    image_error (host w) sheet = None.

Lemma drawImage_at l args c w :
  image_error (host w) l = None ->
  drawImage (VObj l) args (with_context c w) =
  (Ret tt, with_context (c ++ [CDrawImage (VObj l) args]) w).
Proof.
  intros H. unfold drawImage. rewrite bind_reader_at by ro.
  change (fst (gets host w)) with (Ret (host w)). cbv beta iota. now rewrite H.
Qed.

Lemma heap_drawCharacter n w this characters characterData scale sheet c x y ctx :
  bitmap_text n w this characters characterData scale sheet ->
  BitmapText.prototype.drawCharacter n this (VStr c) x y (with_context ctx w) =
  (Ret (snd (BitmapText.drawCharacter characterData scale c x y)),
   with_context
     (ctx ++ match fst (BitmapText.drawCharacter characterData scale c x y) with
             | Some call => [drawImage_call sheet call]
             | None => []
             end) w).
Proof.
  intros (chars & len & cd & _ & _ & _ & _ & Hcd & Hdata & Hscale & Hsheet & Himg).
  unfold BitmapText.prototype.drawCharacter, BitmapText.drawCharacter.
  rewrite bind_reader_at by ro.
  change (fst (gets host w)) with (Ret (host w)). cbv beta iota zeta.
  rewrite bind_reader_at, Hcd by ro.
  cbn [to_string]. specialize (Hdata c).
  destruct (BitmapText.characterData_get characterData c) as [data |].
  - destruct Hdata as (d & Hd & Hu & Hx & Hy & Hw & Hh).
    rewrite bind_reader_at, Hd, Hu by ro.
    rewrite bind_reader_at, Hw by ro.
    rewrite bind_reader_at, Hscale by ro.
    rewrite bind_reader_at, Hh by ro.
    rewrite bind_reader_at, Hsheet by ro.
    rewrite bind_reader_at, Hx by ro.
    rewrite bind_reader_at, Hy by ro.
    rewrite (bind_Ret _ _ _ _ _ (drawImage_at sheet _ ctx w Himg)). reflexivity.
  - rewrite bind_reader_at, Hdata by ro. cbn [typeof_undefined].
    rewrite bind_reader_at, Hscale by ro.
    cbn [fst snd to_number]. now rewrite app_nil_r.
Qed.

Lemma heap_draw_from n w this characters characterData scale sheet :
  bitmap_text n w this characters characterData scale sheet ->
  forall rest i x y ctx,
    (forall j c, rest !! j = Some c -> characters !! (i + j) = Some c) ->
    BitmapText.prototype.draw_from n this x y i (length rest) (with_context ctx w) =
    (Ret tt,
     with_context
       (ctx ++ map (drawImage_call sheet) (BitmapText.draw characterData scale rest x y))
       w).
Proof.
  intros H. pose proof H as (chars & len & cd & Hchars & _ & _ & Hidx & _).
  induction rest as [| c rest IH]; intros i x y ctx Hrest.
  - cbn. now rewrite app_nil_r.
  - cbn [length BitmapText.prototype.draw_from BitmapText.draw].
    rewrite bind_reader_at, Hchars by ro.
    assert (Hc : characters !! i = Some c).
    { rewrite <- (Nat.add_0_r i). now apply Hrest. }
    rewrite bind_reader_at, (Hidx i c Hc) by ro.
    unfold bind at 1.
    rewrite (heap_drawCharacter n w this characters characterData scale sheet c x y ctx H).
    rewrite IH.
    + rewrite map_app, app_assoc.
      now destruct (fst (BitmapText.drawCharacter characterData scale c x y)).
    + intros j c' Hj. replace (S i + j) with (i + S j) by lia. now apply Hrest.
Qed.

(** the methods on the heap make the calls that [BitmapText.draw] lists:
    on a bitmap text whose sheet can be drawn, [draw] returns after adding
    these calls to the context, in order, and changes nothing else *)
Lemma heap_draw_calls n w this characters characterData scale sheet x y :
  bitmap_text n w this characters characterData scale sheet ->
  BitmapText.prototype.draw n this x y w =
  (Ret tt,
   with_context
     (context w ++
      map (drawImage_call sheet) (BitmapText.draw characterData scale characters x y)) w).
Proof.
  intros H. pose proof H as (chars & len & cd & Hchars & Hlen & Hrounds & _).
  rewrite <- (with_context_id w) at 1.
  unfold BitmapText.prototype.draw.
  rewrite bind_reader_at, Hchars by ro.
  rewrite bind_reader_at, Hlen by ro.
  rewrite bind_reader_at by ro.
  change (fst (gets host w)) with (Ret (host w)). cbv beta iota.
  rewrite Hrounds.
  now apply (heap_draw_from n w this characters characterData scale sheet H characters 0).
Qed.

(** a bitmap text "?A" of scale 2 whose font knows the character A, an
    8x10 rectangle at the origin of the sheet, as the constructor leaves
    it in the heap *)
Definition bitmap_label : World :=
  Examples.after
    (do characters <- new_object CPlain
                        [("length", VNum 2); ("0", VStr "?"); ("1", VStr "A")];
     do data <- new_object CPlain
                  [("x", VNum 0); ("y", VNum 0); ("width", VNum 8); ("height", VNum 10)];
     do characterData <- new_object CPlain [("A", data)];
     do sheet <- new_object CPlain [("width", VNum 64); ("height", VNum 64)];
     new_object CBitmapText
       [("sheet", sheet); ("characterData", characterData); ("scale", VNum 2);
        ("text", VStr "?A"); ("characters", characters)])%js
    Examples.fresh.

Lemma bitmap_label_text :
  bitmap_text 1 bitmap_label (VObj 4) ["?"; "A"]
    [("A", BitmapText.mkCharData 0 0 8 10)] 2 3.
Proof.
  exists (VObj 0), (VNum 2), (VObj 2).
  split; [vm_compute; reflexivity |]. split; [vm_compute; reflexivity |].
  split; [vm_compute; reflexivity |]. split.
  { intros [| [| i]] c Hc; try discriminate Hc;
      apply (f_equal (default c)) in Hc; cbn in Hc; subst c; vm_compute; reflexivity. }
  split; [vm_compute; reflexivity |]. split.
  { intros c. cbn [BitmapText.characterData_get].
    destruct (String.eqb "A" c) eqn:E.
    - apply String.eqb_eq in E. subst c. exists (VObj 1).
      split; [vm_compute; reflexivity |].
      split; [reflexivity |]. split; [vm_compute; reflexivity |].
      split; [vm_compute; reflexivity |]. split; vm_compute; reflexivity.
    - assert (Ho : heap bitmap_label !! 2 = Some (mkObj CPlain [] [("A", VObj 1)]))
        by (vm_compute; reflexivity).
      cbn [get_prop]. rewrite (bind_Ret _ _ _ _ _ (deref_Some _ _ _ Ho)).
      cbn [accessors mem existsb fields field_lookup]. now rewrite E. }
  split; [vm_compute; reflexivity |]. split; vm_compute; reflexivity.
Qed.

Lemma heap_draw_calls_example :
  BitmapText.prototype.draw 1 (VObj 4) 100 50 bitmap_label =
  (Ret tt,
   with_context
     (context bitmap_label ++
      [CDrawImage (VObj 3)
         [VNum 0; VNum 0; VNum 8; VNum 10; VNum 112; VNum 50; VNum 16; VNum 20]])
     bitmap_label).
Proof.
  rewrite (heap_draw_calls 1 bitmap_label (VObj 4) _ _ _ _ 100 50 bitmap_label_text).
  vm_compute. reflexivity.
Qed.

(** ** Texts *)

(** the lines that a list of calls writes *)
Definition lines_filled (ops : list ctx_op) : list string :=
  flat_map (fun op => match op with CFillText line _ _ => [line] | _ => [] end) ops.

(** the number of line feeds of a string *)
Fixpoint line_feeds (s : string) : nat :=
  match s with
  | EmptyString => 0
  | String c r => (if Ascii.eqb c Text.LF then 1 else 0) + line_feeds r
  end.

Lemma split_lines_length s : length (Text.split_lines s) = S (line_feeds s).
Proof.
  induction s as [| c r IH]; [reflexivity |].
  cbn [Text.split_lines line_feeds]. destruct (Ascii.eqb c Text.LF).
  - cbn. now rewrite IH.
  - destruct (Text.split_lines r) as [| l ls]; [discriminate |]. exact IH.
Qed.

Lemma concat_cons sep x y ys :
  String.concat sep (x :: y :: ys) =
  String.append x (String.append sep (String.concat sep (y :: ys))).
Proof. reflexivity. Qed.

Lemma split_lines_join s :
  String.concat (String Text.LF EmptyString) (Text.split_lines s) = s.
Proof.
  induction s as [| c r IH]; [reflexivity |].
  pose proof (split_lines_length r) as Hl.
  cbn [Text.split_lines]. destruct (Ascii.eqb c Text.LF) eqn:E.
  - apply Ascii.eqb_eq in E. subst c.
    destruct (Text.split_lines r) as [| l ls]; [discriminate |].
    rewrite concat_cons, IH. reflexivity.
  - destruct (Text.split_lines r) as [| l ls]; [discriminate |].
    destruct ls as [| l' ls].
    + cbn in IH |- *. now rewrite IH.
    + rewrite concat_cons in IH |- *. rewrite append_String. now rewrite IH.
Qed.

Lemma fill_lines_spec x y mid step : forall lines idx,
  lines_filled (Text.fill_lines x y mid step idx lines) = lines /\
  Forall (fun op => match op with CFillText _ x' _ => x' = x | _ => True end)
         (Text.fill_lines x y mid step idx lines).
Proof.
  induction lines as [| l r IH]; intros idx; [split; constructor |].
  destruct (IH (S idx)) as [IH1 IH2]. cbn [Text.fill_lines]. split.
  - unfold lines_filled in *. cbn. now rewrite IH1.
  - now constructor.
Qed.

Lemma text_draw_lines_at n this x y w s c w' :
  fst (get_prop n this "text" w) = Ret (VStr s) ->
  Text.draw n this x y (with_context c w) = (Ret tt, w') ->
  exists ops,
    w' = with_context (c ++ ops) w /\
    lines_filled ops = Text.split_lines s /\
    Forall (fun op => match op with CFillText _ x' _ => x' = x | _ => True end) ops.
Proof.
  intros Ht H. unfold Text.draw in H.
  rewrite bind_reader_at in H by ro.
  change (fst (gets host w)) with (Ret (host w)) in H. cbv beta iota in H.
  rewrite bind_reader_at in H by ro.
  destruct (fst (get_prop n this "size" w)) as [size | |] eqn:Esize; try discriminate H.
  rewrite bind_reader_at in H by ro.
  destruct (fst (get_prop n this "font" w)) as [font | |]; try discriminate H.
  rewrite bind_ctx_call_at, bind_reader_at in H by ro.
  destruct (fst (get_prop n this "color" w)) as [color | |]; try discriminate H.
  rewrite bind_ctx_call_at, bind_reader_at in H by ro.
  destruct (fst (get_prop n this "textAlign" w)) as [textAlign | |]; try discriminate H.
  rewrite bind_ctx_call_at, bind_reader_at in H by ro.
  destruct (fst (get_prop n this "textBaseline" w)) as [textBaseline | |];
    try discriminate H.
  rewrite bind_ctx_call_at, bind_reader_at in H by ro.
  rewrite Ht in H. cbv beta iota zeta in H.
  rewrite bind_reader_at in H by ro.
  destruct (fst (get_prop n this "textVerticalAlign" w)) as [textVerticalAlign | |];
    try discriminate H.
  rewrite bind_reader_at in H by ro. rewrite Esize in H.
  rewrite bind_reader_at in H by ro.
  destruct (fst (get_prop n this "lineHeight" w)) as [lineHeight | |]; try discriminate H.
  rewrite (runs_as_ctx_calls _ w _) in H.
  apply (f_equal snd) in H. cbn [snd] in H. subst w'.
  match goal with
  | |- context [Text.fill_lines ?a ?b ?c ?d ?e ?f] =>
      destruct (fill_lines_spec a b c d f e) as [F1 F2];
      exists ([CProperty "font"
                 (VStr (String.append (to_string (NumberToString (host w)) size)
                          (String.append "px "
                             (to_string (NumberToString (host w)) font))));
               CProperty "fillStyle" color; CProperty "textAlign" textAlign;
               CProperty "textBaseline" textBaseline] ++ Text.fill_lines a b c d e f)
  end.
  split; [now rewrite <- !app_assoc |]. split.
  - unfold lines_filled in *. cbn [flat_map app]. exact F1.
  - cbn [app]. repeat (constructor; [exact I |]). exact F2.
Qed.

(** X26: [draw] writes the text line by line: it makes one [fillText] call
    for each line of [this.text] (one more than the text has line feeds; an
    empty text still gives one call), in order, all at the [x] given, and
    the lines written, joined by line feeds, are the text; nothing but the
    context changes. *)
Theorem text_draw_lines n this x y w s w' :
  fst (get_prop n this "text" w) = Ret (VStr s) ->
  Text.draw n this x y w = (Ret tt, w') ->
  exists ops,
    w' = with_context (context w ++ ops) w /\
    String.concat (String Text.LF EmptyString) (lines_filled ops) = s /\
    length (lines_filled ops) = S (line_feeds s) /\
    Forall (fun op => match op with CFillText _ x' _ => x' = x | _ => True end) ops.
Proof.
  intros Ht H. rewrite <- (with_context_id w) in H.
  destruct (text_draw_lines_at n this x y w s (context w) w' Ht H) as (ops & E & Hl & Hx).
  exists ops. split; [exact E |]. rewrite Hl.
  split; [apply split_lines_join |]. split; [apply split_lines_length | exact Hx].
Qed.

Lemma text_draw_lines_witness :
  exists ops,
    snd (Text.draw 1 (VObj 0) 100 50 Examples.label) =
      with_context (context Examples.label ++ ops) Examples.label /\
    String.concat (String Text.LF EmptyString) (lines_filled ops) =
      String.append "Hello" (String Text.LF "World") /\
    length (lines_filled ops) =
      S (line_feeds (String.append "Hello" (String Text.LF "World"))) /\
    Forall (fun op => match op with CFillText _ x' _ => x' = 100%float | _ => True end) ops.
Proof.
  apply (text_draw_lines 1 (VObj 0) 100 50 Examples.label
           (String.append "Hello" (String Text.LF "World")));
    vm_compute; reflexivity.
Defined.

Lemma text_draw_rejects_at n l x y w o v c :
  heap w !! l = Some o ->
  fst (get_prop n (VObj l) "text" w) = Ret v ->
  (forall s, v <> VStr s) ->
  exists msg font color textAlign textBaseline,
    fst (get_prop n (VObj l) "color" w) = Ret color /\
    fst (get_prop n (VObj l) "textAlign" w) = Ret textAlign /\
    fst (get_prop n (VObj l) "textBaseline" w) = Ret textBaseline /\
    Text.draw n (VObj l) x y (with_context c w) =
    (Throw (TypeError msg),
     with_context
       (c ++ [CProperty "font" (VStr font); CProperty "fillStyle" color;
              CProperty "textAlign" textAlign; CProperty "textBaseline" textBaseline]) w).
Proof.
  intros Ho Hv Hs.
  destruct (get_prop_total n l "size" w o Ho) as (v1 & H1 & _); try discriminate.
  destruct (get_prop_total n l "font" w o Ho) as (v2 & H2 & _); try discriminate.
  destruct (get_prop_total n l "color" w o Ho) as (v3 & H3 & _); try discriminate.
  destruct (get_prop_total n l "textAlign" w o Ho) as (v4 & H4 & _); try discriminate.
  destruct (get_prop_total n l "textBaseline" w o Ho) as (v5 & H5 & _); try discriminate.
  apply (f_equal fst) in H1, H2, H3, H4, H5. cbn [fst] in H1, H2, H3, H4, H5.
  exists (match v with
          | VUndef | VNull => "cannot read properties of undefined or null"
          | _ => "this.text.split is not a function"
          end),
    (String.append (to_string (NumberToString (host w)) v1)
       (String.append "px " (to_string (NumberToString (host w)) v2))), v3, v4, v5.
  split; [exact H3 |]. split; [exact H4 |]. split; [exact H5 |].
  unfold Text.draw.
  rewrite bind_reader_at by ro.
  change (fst (gets host w)) with (Ret (host w)). cbv beta iota.
  rewrite bind_reader_at, H1 by ro.
  rewrite bind_reader_at, H2 by ro.
  rewrite bind_ctx_call_at, bind_reader_at, H3 by ro.
  rewrite bind_ctx_call_at, bind_reader_at, H4 by ro.
  rewrite bind_ctx_call_at, bind_reader_at, H5 by ro.
  rewrite bind_ctx_call_at, bind_reader_at, Hv by ro.
  rewrite <- !app_assoc. cbn [app].
  destruct v as [| | b | f | s | q]; try reflexivity.
  now destruct (Hs s).
Qed.

(** X27: [createText] does not convert its text: when [this.text] holds
    anything but a string (a number, say), [draw] assigns the four text
    properties of the context, [font], [fillStyle], [textAlign] and
    [textBaseline], and then throws a TypeError: no [fillText] call is
    made, and the assignments are all that has changed. *)
Theorem text_draw_rejects_non_string n l x y w o v :
  heap w !! l = Some o ->
  fst (get_prop n (VObj l) "text" w) = Ret v ->
  (forall s, v <> VStr s) ->
  exists msg font color textAlign textBaseline,
    fst (get_prop n (VObj l) "color" w) = Ret color /\
    fst (get_prop n (VObj l) "textAlign" w) = Ret textAlign /\
    fst (get_prop n (VObj l) "textBaseline" w) = Ret textBaseline /\
    Text.draw n (VObj l) x y w =
    (Throw (TypeError msg),
     with_context
       (context w ++
        [CProperty "font" (VStr font); CProperty "fillStyle" color;
         CProperty "textAlign" textAlign; CProperty "textBaseline" textBaseline]) w).
Proof.
  intros Ho Hv Hs.
  destruct (text_draw_rejects_at n l x y w o v (context w) Ho Hv Hs)
    as (msg & font & color & textAlign & textBaseline & Hc & Ha & Hb & E).
  rewrite with_context_id in E. now exists msg, font, color, textAlign, textBaseline.
Qed.

Lemma text_draw_rejects_non_string_witness :
  exists msg font color textAlign textBaseline,
    fst (get_prop 1 (VObj 5) "color" Examples.number_text) = Ret color /\
    fst (get_prop 1 (VObj 5) "textAlign" Examples.number_text) = Ret textAlign /\
    fst (get_prop 1 (VObj 5) "textBaseline" Examples.number_text) = Ret textBaseline /\
    Text.draw 1 (VObj 5) 100 50 Examples.number_text =
    (Throw (TypeError msg),
     with_context
       (context Examples.number_text ++
        [CProperty "font" (VStr font); CProperty "fillStyle" color;
         CProperty "textAlign" textAlign; CProperty "textBaseline" textBaseline])
       Examples.number_text).
Proof.
  apply (text_draw_rejects_non_string 1 5 100 50 Examples.number_text
           (default (mkObj CPlain [] []) (heap Examples.number_text !! 5))
           (VNum 42)).
  - vm_compute. reflexivity.
  - vm_compute. reflexivity.
  - discriminate.
Defined.

(** ** Visibility of a node without parent *)

Lemma obj_assign_visible v o :
  proxied_free o ->
  obj_assign (proxyKey "visible") v o = obj_store "_visible" v o.
Proof.
  intros [Hd Hf]. unfold obj_assign. change (proxyKey "visible") with "_proxied_visible".
  now rewrite Hd, Hf.
Qed.

(** X28: on an observed node that has no parent, a write to [visible] can
    be read back: the setter of the prototype stores the value in
    [_visible], from where the getter returns it. *)
Theorem visible_write_then_read w l o v :
  heap w !! l = Some o -> observed o = true -> proxied_free o ->
  obj_read (proxyKey "parent") o = VUndef ->
  exists w',
    set_prop 1 (VObj l) "visible" v w = (Ret tt, w') /\
    get_prop 1 (VObj l) "visible" w' = (Ret v, w').
Proof.
  intros Ho Hobs Hfree Hpar.
  assert (Hvis : mem "visible" (accessors o) = true)
    by (apply observed_accessor; [assumption | now apply mem_In]).
  assert (Hparent : mem "parent" (accessors o) = true)
    by (apply observed_accessor; [assumption | now apply mem_In]).
  assert (Hu : mem "_visible" (accessors o) = false).
  { destruct (mem "_visible" (accessors o)) eqn:E; [| reflexivity].
    unfold observed in Hobs. apply andb_prop in Hobs as [_ Hobs].
    rewrite forallb_forall in Hobs. apply mem_In in E. now apply Hobs in E. }
  pose proof (get_visible_fresh l o w Ho Hfree Hvis Hparent Hu Hpar) as Hcur.
  assert (Hread : forall W, get_prop 1 (VObj l) "visible"
                              (focus l (obj_assign (proxyKey "visible") v o) W) =
                            (Ret v, focus l (obj_assign (proxyKey "visible") v o) W)).
  { intros W.
    rewrite (get_visible_fresh l (obj_assign (proxyKey "visible") v o) _ (heap_focus _ _ _));
      try (now rewrite accessors_obj_assign);
      try (now apply proxied_free_assign);
      rewrite (obj_assign_visible v o Hfree).
    - reflexivity.
    - exact Hpar. }
  unfold set_prop.
  rewrite (bind_Ret _ _ _ _ _ (deref_Some _ _ _ Ho)), Hvis, (bind_Ret _ _ _ _ _ Hcur).
  destruct (negb (strict_eq (obj_read "_visible" o) v)).
  - unfold set_shouldReDraw at 1.
    rewrite (bind_Ret _ _ w tt (with_ui (with_shouldReDraw true (ui w)) w) eq_refl).
    rewrite (assign_runs l _ v (with_ui (with_shouldReDraw true (ui w)) w) o Ho).
    eexists. split; [reflexivity |]. apply Hread.
  - rewrite bind_ret_l, (assign_runs l _ v w o Ho).
    eexists. split; [reflexivity |]. apply Hread.
Qed.

Lemma visible_write_then_read_witness :
  exists w',
    set_prop 1 (VObj 0) "visible" (VBool false) Examples.scene = (Ret tt, w') /\
    get_prop 1 (VObj 0) "visible" w' = (Ret (VBool false), w').
Proof.
  apply (visible_write_then_read Examples.scene 0
           (default (mkObj CPlain [] []) (heap Examples.scene !! 0)) (VBool false));
    try (vm_compute; reflexivity).
  split; vm_compute; reflexivity.
Defined.

(** ** Rotation *)

Definition is_transform (op : ctx_op) : bool :=
  match op with CTranslate _ _ | CRotate _ => true | _ => false end.

Definition untransformed (op : ctx_op) : Prop := is_transform op = false.

(** [m] adds calls to the context, none of which moves or turns it *)
Definition calm {A} (m : M A) (w : World) : Prop :=
  exists r ops, runs_as m w r ops /\ Forall untransformed ops.

Lemma calm_emits {A} (m : M A) w : emits untransformed m -> calm m w.
Proof. intros H. destruct (H w) as (r & ops & H1 & F). now exists r, ops. Qed.

Lemma calm_bind {A B} (m : M A) (k : A -> M B) w :
  emits untransformed m -> (forall a, fst (m w) = Ret a -> calm (k a) w) ->
  calm (bind m k) w.
Proof.
  intros Hm Hk. destruct (Hm w) as (r & o1 & H1 & F1).
  pose proof (runs_as_here _ _ _ _ H1) as E.
  destruct r as [a | e |].
  - destruct (Hk a) as (r2 & o2 & H2 & F2); [now rewrite E |].
    exists r2, (o1 ++ o2). split; [now apply (runs_as_bind m k w a) | now apply Forall_app].
  - destruct (runs_as_bind_stop m k w _ _ H1) as (r' & H' & _); [discriminate |].
    now exists r', o1.
  - destruct (runs_as_bind_stop m k w _ _ H1) as (r' & H' & _); [discriminate |].
    now exists r', o1.
Qed.

Lemma emits_draw_untransformed n this bounds :
  emits untransformed (DisplayObject.draw n this bounds).
Proof.
  apply (emits_weaken called); [| apply emits_draw].
  intros op [H | H]; destruct op; try reflexivity; discriminate.
Qed.

(** X29: a node whose rotation is falsy (0, NaN, undefined) is rendered
    without any [translate] or [rotate] call on the context, however the
    [render] ends, and nothing but the context changes. *)
Theorem render_without_rotation n this w rotation :
  fst (get_prop n this "rotation" w) = Ret rotation -> to_boolean rotation = false ->
  exists r ops,
    DisplayObject.render n this w = (r, with_context (context w ++ ops) w) /\
    Forall untransformed ops.
Proof.
  intros Hr Hf.
  assert (C : calm (DisplayObject.render n this) w).
  { unfold DisplayObject.render.
    apply calm_bind; [em |]. intros v _.
    destruct (negb (to_boolean v)); [apply calm_emits; em |].
    apply calm_bind; [em |]. intros [] _.
    apply calm_bind; [em |]. intros bounds _.
    apply calm_bind; [em |]. intros rot Hrot.
    assert (rot = rotation) as -> by congruence. rewrite Hf.
    apply calm_emits.
    repeat (apply emits_bind; [solve [em] | intros]).
    apply emits_bind; [apply emits_draw_untransformed | intros; em]. }
  destruct C as (r & ops & H & F). exists r, ops.
  split; [now apply runs_as_here | exact F].
Qed.

Lemma render_without_rotation_witness :
  exists r ops,
    DisplayObject.render 3 (VObj 0) Examples.scene =
    (r, with_context (context Examples.scene ++ ops) Examples.scene) /\
    Forall untransformed ops.
Proof.
  apply (render_without_rotation 3 (VObj 0) Examples.scene (VNum 0));
    vm_compute; reflexivity.
Defined.

(** ** The arguments of [createText] *)

Lemma get_prop_focus_read n l O W name :
  String.eqb (if mem name (accessors O) then proxyKey name else name) "_proxied_visible"
    = false ->
  fst (get_prop n (VObj l) name (focus l O W)) =
  Ret (obj_read (if mem name (accessors O) then proxyKey name else name) O).
Proof.
  intros H. destruct (mem name (accessors O)) eqn:E.
  - now rewrite (get_prop_observed n l O _ name (heap_focus _ _ _) E H).
  - destruct (String.eqb name "_proxied_visible") eqn:E'; [discriminate |].
    now rewrite (get_prop_plain n l O _ name (heap_focus _ _ _) E E').
Qed.

(** X30: [createText(text, font, color, x, y)] hands its arguments to a
    constructor that expects [(text, size, font, color, x, y)]: on the node
    returned, [size] holds the font passed, [font] the color, [color] the x
    and [x] the y, each with the default of the property it landed in, and
    [y] is 0. *)
Theorem createText_arguments n text font color x y w :
  exists w',
    ThreeUI.createText n text font color x y w = (Ret (VObj (next_loc w)), w') /\
    map (fun name => fst (get_prop n (VObj (next_loc w)) name w'))
      ["text"; "size"; "font"; "color"; "x"; "y"] =
    map Ret
      [default_to (VStr "") text; default_to (VNum 12) font;
       default_to (VStr "Arial") color; default_to (VStr "#000000") x;
       default_to (VNum 0) y; VNum 0].
Proof.
  unfold ThreeUI.createText, Text.construct.
  rewrite (bind_Ret _ _ _ _ _ (new_object_as_focus CText [] w)).
  repeat (rewrite !bind_assoc_run; rewrite bind_set_prop_focus by reflexivity).
  rewrite construct_register_focus
    by (rewrite ?accessors_obj_assign; cbn; first [reflexivity | lia]).
  eexists. split; [reflexivity |].
  cbn [map].
  rewrite !get_prop_focus_read by (vm_compute; reflexivity).
  destruct y; vm_compute; reflexivity.
Qed.
